(** * Hexon: the container resolution engine of [hexon/core/container.py]

    A shallow embedding of the dependency-injection container: the element
    contract, the resolution records, the process-wide cache and the
    construction algorithm of [_Container], its public accessor, the
    check of the adapter decorator, the container decorator and the
    singleton decorator, followed by the properties of the specification
    that were checked against it and by further properties of the code.

    Python objects that are mutated while shared are kept in an explicit
    store: [_Resolution] records and the [_resolutions] dictionaries live in
    two heaps and are referred to by address, so that two containers holding
    the same record observe each other's writes, as they do in Python.
    Dictionaries are insertion-ordered association lists, like Python's
    [dict].  Calls to [Logger] carry no control flow and are left out. *)

From stdpp Require Import gmap strings list.

(** ** Exceptions and results *)

Inductive ErrorCodes := NOT_FOUND | INVALID_ELEMENT.

Inductive PyExn :=
| ContainerError (message : string) (code : ErrorCodes)
| AttributeError (message : string)
| KeyError (message : string)
| TypeError (message : string)
| UserError (message : string).

Inductive Result (A : Type) :=
| Ok (a : A)
| Raise (e : PyExn).
Arguments Ok {A} a.
Arguments Raise {A} e.

#[global] Instance ErrorCodes_eq_dec : EqDecision ErrorCodes.
Proof. solve_decision. Defined.
#[global] Instance PyExn_eq_dec : EqDecision PyExn.
Proof. solve_decision. Defined.

(** ** Python dictionaries: insertion-ordered, one entry per key *)

Abbreviation PyDict V := (list (string * V)).

Fixpoint dict_get {V} (k : string) (d : PyDict V) : option V :=
  match d with
  | [] => None
  | (k', v) :: rest => if decide (k = k') then Some v else dict_get k rest
  end.

(** [d[k] = v]: an existing key keeps its position, a new key goes last. *)
Fixpoint dict_set {V} (k : string) (v : V) (d : PyDict V) : PyDict V :=
  match d with
  | [] => [(k, v)]
  | (k', v') :: rest =>
      if decide (k = k') then (k, v) :: rest else (k', v') :: dict_set k v rest
  end.

Definition dict_keys {V} (d : PyDict V) : list string := d.*1.

(** ** Values seen through [hasattr] and [inspect.isclass] *)

Record PyObj := {
  py_isclass : bool;          (* inspect.isclass(x) *)
  py_attrs : list string      (* the attribute names hasattr(x, _) finds *)
}.

Definition hasattr (o : PyObj) (name : string) : bool :=
  bool_decide (name ∈ py_attrs o).

(** ** Element types, as the engine reads them *)

(** A type as it is looked up: its identity, [__name__] and [__token__]. *)
Record PyType := {
  ty_id : nat;
  __name__ : string;
  __token__ : string
}.

(** A type as a constructor hint names it and as [_get] is asked for it: a
    type that carries a [__token__], or one that does not (a builtin,
    [_Element] itself, a class that no decorator has touched), of which
    the identity and the name are read. *)
Inductive Requested :=
| Tokened (t : PyType)
| Untokened (id : nat) (name : string).

Coercion Tokened : PyType >-> Requested.

Definition req_id (r : Requested) : nat :=
  match r with Tokened t => ty_id t | Untokened id _ => id end.
Definition req_name (r : Requested) : string :=
  match r with Tokened t => __name__ t | Untokened _ name => name end.
(** [r.__token__], when the attribute exists. *)
Definition req_token (r : Requested) : option string :=
  match r with Tokened t => Some (__token__ t) | Untokened _ _ => None end.

(** A provider or export class: its ancestors (for [issubclass]), whether
    it still has unimplemented abstract methods, and its constructor:
    [get_type_hints(cls.__init__)] in order, the parameters that have no
    default, and the exception its body raises, if any. *)
Record Class := {
  cls_type :> PyType;
  cls_ancestors : list nat;
  cls_abstract : bool;
  cls_hints : list (string * Requested);
  cls_required : list string;
  cls_init_raises : option PyExn
}.

#[global] Instance PyType_eq_dec : EqDecision PyType.
Proof. solve_decision. Defined.
#[global] Instance Requested_eq_dec : EqDecision Requested.
Proof. solve_decision. Defined.
#[global] Instance Class_eq_dec : EqDecision Class.
Proof. solve_decision. Defined.

Definition issubclass (c : Class) (base : Requested) : bool :=
  bool_decide (ty_id c = req_id base ∨ req_id base ∈ cls_ancestors c).

(** An instance: its identity, its class and the keyword arguments it was
    built from (by identity). *)
Record Instance := {
  obj_id : nat;
  obj_class : PyType;
  obj_kwargs : list (string * nat)
}.

Record _Meta := {
  meta_name : string;
  meta_description : string;
  meta_version : string;
  meta_authors : list string
}.

Inductive Role := provider | export.

#[global] Instance Role_eq_dec : EqDecision Role.
Proof. solve_decision. Defined.

Record _Resolution := {
  token : string;
  type : Role;
  instance : Instance;
  deps : list string;
  origin : option string;
  from_cache : bool
}.

(** A container class with its [__config__]; [imports] holds container
    classes, which exist before the class that lists them is declared. *)
Inductive ContainerClass :=
| MkContainerClass (name tok : string) (meta : option _Meta)
                   (config : option _Config)
with _Config :=
| Mk_Config (providers exports : list Class) (imports : list ContainerClass)
            (re_export : bool).

Definition k_name (K : ContainerClass) : string :=
  match K with MkContainerClass n _ _ _ => n end.
Definition k_token (K : ContainerClass) : string :=
  match K with MkContainerClass _ t _ _ => t end.
Definition k_meta (K : ContainerClass) : option _Meta :=
  match K with MkContainerClass _ _ m _ => m end.
Definition k_config (K : ContainerClass) : option _Config :=
  match K with MkContainerClass _ _ _ c => c end.

Definition cfg_providers (c : _Config) : list Class :=
  match c with Mk_Config p _ _ _ => p end.
Definition cfg_exports (c : _Config) : list Class :=
  match c with Mk_Config _ e _ _ => e end.
Definition cfg_imports (c : _Config) : list ContainerClass :=
  match c with Mk_Config _ _ i _ => i end.
Definition cfg_re_export (c : _Config) : bool :=
  match c with Mk_Config _ _ _ r => r end.

(** A container instance: the attributes [__init__] sets. [_resolutions]
    is the address of its dictionary. *)
Record ContainerObj := {
  c_id : nat;
  c_name : string;            (* self.__class__.__name__ *)
  c_token : string;           (* self.__token__ *)
  _imports : list ContainerClass;
  _providers : list Class;
  _exports : list Class;
  _re_export : bool;
  _resolutions : nat
}.

(** ** The store *)

Record State := {
  heap_res : gmap nat _Resolution;       (* the _Resolution objects *)
  heap_dict : gmap nat (PyDict nat);     (* the _resolutions dictionaries *)
  _containers : PyDict ContainerObj;     (* _Cache._containers *)
  next_id : nat                          (* the next fresh identity *)
}.

Definition empty_state : State :=
  {| heap_res := ∅; heap_dict := ∅; _containers := []; next_id := 0 |}.

#[global] Instance Instance_inhabited : Inhabited Instance :=
  populate {| obj_id := 0;
              obj_class := {| ty_id := 0; __name__ := ""; __token__ := "" |};
              obj_kwargs := [] |}.
#[global] Instance Resolution_inhabited : Inhabited _Resolution :=
  populate {| token := ""; type := provider; instance := inhabitant;
              deps := []; origin := None; from_cache := false |}.

Definition with_res (f : gmap nat _Resolution → gmap nat _Resolution)
    (σ : State) : State :=
  {| heap_res := f (heap_res σ); heap_dict := heap_dict σ;
     _containers := _containers σ; next_id := next_id σ |}.
Definition with_dict (f : gmap nat (PyDict nat) → gmap nat (PyDict nat))
    (σ : State) : State :=
  {| heap_res := heap_res σ; heap_dict := f (heap_dict σ);
     _containers := _containers σ; next_id := next_id σ |}.
Definition with_containers (f : PyDict ContainerObj → PyDict ContainerObj)
    (σ : State) : State :=
  {| heap_res := heap_res σ; heap_dict := heap_dict σ;
     _containers := f (_containers σ); next_id := next_id σ |}.
Definition bump (σ : State) : State :=
  {| heap_res := heap_res σ; heap_dict := heap_dict σ;
     _containers := _containers σ; next_id := S (next_id σ) |}.

(** The record at address [l], and an attribute write to it. *)
Definition res_at (σ : State) (l : nat) : _Resolution := heap_res σ !!! l.
Definition dict_at (σ : State) (d : nat) : PyDict nat := heap_dict σ !!! d.

Definition set_origin (o : option string) (r : _Resolution) : _Resolution :=
  {| token := token r; type := type r; instance := instance r;
     deps := deps r; origin := o; from_cache := from_cache r |}.
Definition set_from_cache (b : bool) (r : _Resolution) : _Resolution :=
  {| token := token r; type := type r; instance := instance r;
     deps := deps r; origin := origin r; from_cache := b |}.
Definition set_type (t : Role) (r : _Resolution) : _Resolution :=
  {| token := token r; type := t; instance := instance r;
     deps := deps r; origin := origin r; from_cache := from_cache r |}.

Definition update_res (l : nat) (f : _Resolution → _Resolution)
    (σ : State) : State :=
  with_res (λ h, <[l := f (h !!! l)]> h) σ.

(** [self._resolutions[k] = l] on the dictionary at address [d]. *)
Definition dict_store (d : nat) (k : string) (l : nat) (σ : State) : State :=
  with_dict (λ h, <[d := dict_set k l (h !!! d)]> h) σ.

(** ** Computations that read and write the store and may raise *)

Definition M (A : Type) : Type := State → Result A * State.

Definition ret {A} (a : A) : M A := λ σ, (Ok a, σ).
Definition raise {A} (e : PyExn) : M A := λ σ, (Raise e, σ).
Definition bind {A B} (m : M A) (k : A → M B) : M B :=
  λ σ, match m σ with
       | (Ok a, σ') => k a σ'
       | (Raise e, σ') => (Raise e, σ')
       end.

Notation "'let*' x ':=' m 'in' k" := (bind m (λ x, k))
  (at level 10, x name, m at level 100, k at level 200).

Definition fresh : M nat := λ σ, (Ok (next_id σ), bump σ).
Definition modify (f : State → State) : M unit := λ σ, (Ok tt, f σ).

(** ** [_Element.__init__] *)

Module _Element.

Definition __init__ (self : PyObj) : M unit :=
  if negb (hasattr self "__element__") then
    raise (ContainerError "Property '__element__' not found." INVALID_ELEMENT)
  else if negb (hasattr self "__token__") then
    raise (ContainerError "Property '__token__' not found" INVALID_ELEMENT)
  else if negb (hasattr self "__meta__") then
    raise (ContainerError "Property '__meta__' not found" INVALID_ELEMENT)
  else ret tt.

End _Element.

(** ** [ContainerTools.is_element_or_raise] *)

Module ContainerTools.

Definition is_element_or_raise (element : PyObj) : Result unit :=
  if negb (py_isclass element) then
    Raise (AttributeError "The element must be a class.")
  else if negb (hasattr element "__meta__") then
    Raise (AttributeError "The element must have a '__meta__' property.")
  else if negb (hasattr element "__token__") then
    Raise (AttributeError "The element must have a '__token__' property.")
  else Ok tt.

End ContainerTools.

(** ** The read views of a container: [resolutions], [exports], [providers] *)

Definition resolutions (c : ContainerObj) (σ : State) : PyDict nat :=
  dict_at σ (_resolutions c).

Definition has_role (σ : State) (t : Role) (entry : string * nat) : Prop :=
  type (res_at σ entry.2) = t.

#[global] Instance has_role_dec σ t entry : Decision (has_role σ t entry).
Proof. unfold has_role. apply _. Defined.

Definition exports (c : ContainerObj) (σ : State) : PyDict nat :=
  filter (has_role σ export) (resolutions c σ).

Definition providers (c : ContainerObj) (σ : State) : PyDict nat :=
  filter (has_role σ provider) (resolutions c σ).

(** ** The process cache *)

(** What may be handed to the cache: an element class or a container class
    ([issubclass(x, _Container)] tells them apart). *)
Inductive PyClass :=
| ElementClass (c : Class)
| ContainerType (K : ContainerClass).

Module _Cache.

Definition add (container : ContainerObj) (σ : State) : State :=
  with_containers (dict_set (c_token container) container) σ.

Definition get_by_token (tok : string) (σ : State) : option ContainerObj :=
  dict_get tok (_containers σ).

Definition get (container : PyClass) (σ : State)
    : Result (option ContainerObj) :=
  match container with
  | ElementClass _ =>
      Raise (ContainerError "The element must be a Container." INVALID_ELEMENT)
  | ContainerType K => Ok (get_by_token (k_token K) σ)
  end.

Definition try_get (container : PyClass) (σ : State) : Result ContainerObj :=
  match container with
  | ElementClass _ =>
      Raise (ContainerError "The element must be a Container." INVALID_ELEMENT)
  | ContainerType K =>
      match get_by_token (k_token K) σ with
      | Some cache_container => Ok cache_container
      | None =>
          Raise (ContainerError
                   ("Container with token " +:+ k_token K +:+ " not found")
                   NOT_FOUND)
      end
  end.

Definition clear (σ : State) : State := with_containers (λ _, []) σ.

(** The [for container in self._containers.values()] loop: the first
    cached container whose [providers] view has the token answers with
    its [resolutions] entry. *)
Fixpoint get_provider_in (tok : string) (σ : State)
    (values : list ContainerObj) : option nat :=
  match values with
  | [] => None
  | container :: rest =>
      if dict_get tok (providers container σ) is Some _
      then dict_get tok (resolutions container σ)
      else get_provider_in tok σ rest
  end.

Definition get_provider (cls : Class) (σ : State) : option nat :=
  get_provider_in (__token__ cls) σ (_containers σ).*2.

End _Cache.

(** ** Construction of a container *)

Module _Container.

(** A call of [cls] with keyword arguments: an abstract class cannot be
    instantiated, every parameter without a default must be given, and the
    constructor body may raise. A new object takes the next identity.
    The two [TypeError] messages stand for the interpreter's own. *)
Definition instantiate (cls : Class) (kwargs : PyDict Instance)
    : M Instance :=
  if cls_abstract cls then
    raise (TypeError ("Can't instantiate abstract class " +:+ __name__ cls))
  else if filter (λ p, p ∉ dict_keys kwargs) (cls_required cls) is p :: _ then
    raise (TypeError
             ("__init__() missing required argument: '" +:+ p +:+ "'"))
  else if cls_init_raises cls is Some e then raise e
  else
    let* id := fresh in
    ret {| obj_id := id; obj_class := cls;
           obj_kwargs := (λ kv, (kv.1, obj_id kv.2)) <$> kwargs |}.

(** A type without [__token__] makes the fallback raise at the
    attribute; the message stands for the interpreter's own. *)
Definition _get (self : ContainerObj) (cls : Requested) : M Instance :=
  match find (λ p, issubclass p cls) (_providers self ++ _exports self) with
  | Some p => instantiate p []
  | None =>
      match req_token cls with
      | None =>
          raise (AttributeError
                   ("type object '" +:+ req_name cls
                      +:+ "' has no attribute '__token__'"))
      | Some tok =>
          λ σ, match dict_get tok (resolutions self σ) with
               | Some l => (Ok (instance (res_at σ l)), σ)
               | None =>
                   (Raise (KeyError
                             ("Provider with " +:+ req_name cls
                                +:+ " not found")),
                    σ)
               end
      end
  end.

(** The loop of [_resolve] over [get_type_hints(cls.__init__)]. *)
Fixpoint resolve_params (self : ContainerObj)
    (constructor_params : list (string * Requested))
    (init_args : PyDict Instance) (deps : list string)
    : M (PyDict Instance * list string) :=
  match constructor_params with
  | [] => ret (init_args, deps)
  | (param, param_type) :: rest =>
      if decide (param = "return") then
        resolve_params self rest init_args deps
      else
        let* dependency := _get self param_type in
        resolve_params self rest
          (dict_set param dependency init_args)
          (deps ++ ["<" +:+ param +:+ ", "
                        +:+ __name__ (obj_class dependency) +:+ ">"])
  end.

Definition _resolve (self : ContainerObj) (cls : Class)
    : M (Instance * list string) :=
  let* args := resolve_params self (cls_hints cls) [] [] in
  let* inst := instantiate cls args.1 in
  ret (inst, args.2).

(** One export of an imported container, merged into [self]. The record
    is the imported container's own: the three attribute writes reach it
    through whichever dictionary holds it. *)
Definition merge_export (self : ContainerObj) (container : ContainerObj)
    (item : string * nat) (σ : State) : State :=
  let '(symbol, resolution) := item in
  let σ := update_res resolution (set_origin (Some (c_name container))) σ in
  let σ := dict_store (_resolutions self) symbol resolution σ in
  let σ := update_res resolution (set_from_cache true) σ in
  update_res resolution (set_type provider) σ.

Definition merge_exports (self container : ContainerObj) (σ : State)
    : State :=
  foldl (λ σ item, merge_export self container item σ) σ
        (exports container σ).

Section imports.
(** [container_class()], the construction of an imported container. *)
Variable construct : ContainerClass → M ContainerObj.

Definition import_container (container_class : ContainerClass)
    : M ContainerObj :=
  λ σ, match _Cache.get (ContainerType container_class) σ with
       | Raise e => (Raise e, σ)
       | Ok (Some container) => (Ok container, σ)
       | Ok None =>
           match construct container_class σ with
           | (Ok container, σ') => (Ok container, _Cache.add container σ')
           | (Raise e, σ') => (Raise e, σ')
           end
       end.

Fixpoint _resolve_imports (self : ContainerObj)
    (imports : list ContainerClass) : M unit :=
  match imports with
  | [] => ret tt
  | container_class :: rest =>
      let* container := import_container container_class in
      let* _ := modify (merge_exports self container) in
      _resolve_imports self rest
  end.
End imports.

(** The body of the [for provider in providers] loop. *)
Definition resolve_provider (self : ContainerObj) (cls : Class) : M unit :=
  λ σ,
  let tok := __token__ cls in
  match _Cache.get_provider cls σ with
  | Some resolution =>
      let σ := dict_store (_resolutions self) tok resolution σ in
      let σ := update_res resolution (set_from_cache true) σ in
      let σ := update_res resolution
                 (set_type (if bool_decide (cls ∈ _exports self)
                               && _re_export self
                            then export else provider)) σ in
      (Ok tt, σ)
  | None =>
      match _resolve self cls σ with
      | (Ok (inst, deps), σ) =>
          let l := next_id σ in
          let r := {| token := tok;
                      type := if bool_decide (cls ∈ _providers self)
                              then provider else export;
                      instance := inst; deps := deps;
                      origin := None; from_cache := false |} in
          (Ok tt,
           dict_store (_resolutions self) tok l
             (with_res (λ h, <[l := r]> h) (bump σ)))
      | (Raise e, σ) => (Raise e, σ)
      end
  end.

Fixpoint resolve_providers (self : ContainerObj) (classes : list Class)
    : M unit :=
  match classes with
  | [] => ret tt
  | cls :: rest =>
      let* _ := resolve_provider self cls in
      resolve_providers self rest
  end.

Definition adopt (self container : ContainerObj) : ContainerObj :=
  {| c_id := c_id self; c_name := c_name self; c_token := c_token self;
     _imports := _imports self; _providers := _providers self;
     _exports := _exports self; _re_export := _re_export self;
     _resolutions := _resolutions container |}.

Definition _make_resolution (self : ContainerObj) : M ContainerObj :=
  λ σ, match _Cache.get_by_token (c_token self) σ with
       | Some container => (Ok (adopt self container), σ)
       | None =>
           match resolve_providers self
                   (_providers self ++ _exports self) σ with
           | (Ok _, σ') => (Ok self, _Cache.add self σ')
           | (Raise e, σ') => (Raise e, σ')
           end
       end.

(** The new object of [__init__], with [self._resolutions = {}]. *)
Definition new_self (K : ContainerClass) (cfg : _Config) (σ : State)
    : ContainerObj :=
  {| c_id := next_id σ; c_name := k_name K; c_token := k_token K;
     _imports := cfg_imports cfg; _providers := cfg_providers cfg;
     _exports := cfg_exports cfg; _re_export := cfg_re_export cfg;
     _resolutions := S (next_id σ) |}.

Definition init_state (σ : State) : State :=
  with_dict (λ h, <[S (next_id σ) := []]> h) (bump (bump σ)).

Fixpoint __init__ (K : ContainerClass) (σ : State)
    : Result ContainerObj * State :=
  match k_config K, k_meta K with
  | None, _ =>
      (Raise (AttributeError
                "The container must have a '__config__' property."), σ)
  | Some _, None =>
      (Raise (AttributeError
                "The container must have a '__meta__' property."), σ)
  | Some cfg, Some _ =>
      let self := new_self K cfg σ in
      match _resolve_imports __init__ self (cfg_imports cfg)
              (init_state σ) with
      | (Ok _, σ') => _make_resolution self σ'
      | (Raise e, σ') => (Raise e, σ')
      end
  end.

End _Container.

(** ** Predicates used to state the properties *)

(** The element contract: kind, token and metadata are all present. *)
Definition has_element_attrs (o : PyObj) : Prop :=
  "__element__" ∈ py_attrs o ∧ "__token__" ∈ py_attrs o
  ∧ "__meta__" ∈ py_attrs o.

(** What makes [is_element_or_raise] raise. *)
Definition lacks_class_tags (o : PyObj) : Prop :=
  py_isclass o = false ∨ "__meta__" ∉ py_attrs o ∨ "__token__" ∉ py_attrs o.

(** [p] is the first class of [classes] that is a subclass of [cls]. *)
Definition first_match (cls : Requested) (classes : list Class) (p : Class)
    : Prop :=
  ∃ before after,
    classes = before ++ p :: after
    ∧ issubclass p cls = true
    ∧ Forall (λ q, issubclass q cls = false) before.

Definition no_match (cls : Requested) (classes : list Class) : Prop :=
  Forall (λ q, issubclass q cls = false) classes.

(** The parameters [_resolve] looks up: every hint but the return slot. *)
Definition resolved_params (cls : Class) : list (string * Requested) :=
  filter (λ h, h.1 ≠ "return") (cls_hints cls).

(** ** The classes of [tests/core/test_container.py]

    The decorators leave their mark on a class as follows: [Port] sets the
    token to the class name; [Adapter] wraps the class, keeps its name and
    takes the token of its port (the wrapper does not descend from the
    port); [Service] wraps the class under the name ["Service"] with the
    original name as token; [Container] names and tokens the container
    after the class. *)

Module Calculator.

Definition NoneType : Requested := Untokened 0 "NoneType".

(** [class EmptyElement(Element): pass], which no decorator has
    touched. *)
Definition EmptyElement : Requested := Untokened 2 "EmptyElement".

Definition element_id : nat := 1.

Definition Port (id : nat) (name : string) : Class :=
  {| cls_type := {| ty_id := id; __name__ := name; __token__ := name |};
     cls_ancestors := [element_id]; cls_abstract := true;
     cls_hints := [("return", NoneType)]; cls_required := [];
     cls_init_raises := None |}.

Definition Adapter (port : Class) (id : nat) (name : string) : Class :=
  {| cls_type := {| ty_id := S id; __name__ := name;
                    __token__ := __token__ port |};
     cls_ancestors := [id; element_id]; cls_abstract := false;
     cls_hints := [("return", NoneType)]; cls_required := [];
     cls_init_raises := None |}.

Definition Service (id : nat) (name : string)
    (params : list (string * Requested)) : Class :=
  {| cls_type := {| ty_id := S id; __name__ := "Service";
                    __token__ := name |};
     cls_ancestors := [id; element_id]; cls_abstract := false;
     cls_hints := params; cls_required := params.*1;
     cls_init_raises := None |}.

Definition meta : _Meta :=
  {| meta_name := "CalculatorContainer";
     meta_description := "A container to calculate operations";
     meta_version := "0.1.0"; meta_authors := [] |}.

Definition Container (name : string) (providers exports : list Class)
    (imports : list ContainerClass) (re_export : bool) : ContainerClass :=
  MkContainerClass name name (Some meta)
    (Some (Mk_Config providers exports imports re_export)).

Definition SubstractorPort := Port 10 "SubstractorPort".
Definition SubstractorAdapter := Adapter SubstractorPort 11 "SubstractorAdapter".
Definition SubstractorService :=
  Service 13 "SubstractorService"
    [("substractor", SubstractorPort : Requested)].
Definition SubstractorContainer :=
  Container "SubstractorContainer"
    [SubstractorAdapter] [SubstractorService] [] false.

Definition AdderPort := Port 20 "AdderPort".
Definition AdderAdapter := Adapter AdderPort 21 "AdderAdapter".
Definition AdderService :=
  Service 23 "AdderService" [("adder", AdderPort : Requested)].
Definition AdderContainer :=
  Container "AdderContainer" [AdderAdapter] [AdderService] [] false.

Definition MultiplierPort := Port 30 "MultiplierPort".
Definition MultiplierAdapter := Adapter MultiplierPort 31 "MultiplierAdapter".
Definition MultiplierService :=
  Service 33 "MultiplierService"
    [("multiplier", MultiplierPort : Requested)].
Definition MultiplierContainer :=
  Container "MultiplierContainer"
    [MultiplierAdapter] [MultiplierService] [] false.

Definition DividerPort := Port 40 "DividerPort".
Definition DividerAdapter := Adapter DividerPort 41 "DividerAdapter".
Definition DividerService :=
  Service 43 "DividerService" [("divider", DividerPort : Requested)].
Definition DividerContainer :=
  Container "DividerContainer" [DividerAdapter] [DividerService] [] false.

Definition CalculatorService :=
  Service 50 "CalculatorService"
    [("adder", AdderPort : Requested);
     ("substractor", SubstractorPort : Requested);
     ("multiplier", MultiplierPort : Requested);
     ("divider", DividerPort : Requested)].

Definition CalculatorServiceFromServices :=
  Service 52 "CalculatorServiceFromServices"
    [("adder", AdderService : Requested);
     ("substractor", SubstractorService : Requested);
     ("multiplier", MultiplierService : Requested);
     ("divider", DividerService : Requested)].

Definition CalculatorWithMultipleProvidersContainer :=
  Container "CalculatorWithMultipleProvidersContainer"
    [AdderAdapter; SubstractorAdapter; MultiplierAdapter; DividerAdapter]
    [CalculatorService] [] false.

Definition CalculatorWithImportsContainer :=
  Container "CalculatorWithImportsContainer" []
    [CalculatorServiceFromServices]
    [AdderContainer; SubstractorContainer; MultiplierContainer;
     DividerContainer] false.

(** The store after a sequence of constructions, whatever their outcome. *)
Definition after (classes : list ContainerClass) (σ : State) : State :=
  foldl (λ σ K, (_Container.__init__ K σ).2) σ classes.

End Calculator.

(** ** Well-formed stores

    Every state that constructions reach from the empty one is well
    formed: a dictionary files a record under the record's own token and
    has one entry per key, nothing refers to an identity that has not been
    handed out, and the cache files a container under its own token. *)

Record wf (σ : State) : Prop := {
  wf_entry : ∀ d k l, (k, l) ∈ dict_at σ d →
                      l < next_id σ ∧ token (res_at σ l) = k;
  wf_keys : ∀ d, NoDup (dict_keys (dict_at σ d));
  wf_cached : ∀ t c, (t, c) ∈ _containers σ →
                     _resolutions c < next_id σ ∧ c_token c = t
}.

Definition tokens (classes : list Class) : list string :=
  (λ c : Class, __token__ c) <$> classes.

(** The declared classes of a container, in the order they are resolved. *)
Definition declared (self : ContainerObj) : list Class :=
  _providers self ++ _exports self.

(** The role a class gets when it is built, and when it is found in the
    cache. *)
Definition built_role (self : ContainerObj) (cls : Class) : Role :=
  if bool_decide (cls ∈ _providers self) then provider else export.

Definition cached_role (self : ContainerObj) (cls : Class) : Role :=
  if bool_decide (cls ∈ _exports self) && _re_export self
  then export else provider.

(** The dictionary of [self] is not one the cache holds. *)
Definition unpublished (d : nat) (σ : State) : Prop :=
  ∀ t c, (t, c) ∈ _containers σ → _resolutions c ≠ d.

(** What a construction guarantees about a dictionary that the cache does
    not hold: the cache still does not hold it, and the container returned
    holds another one. *)
Definition unpublished_post (d : nat) (out : Result ContainerObj * State)
    : Prop :=
  unpublished d out.2 ∧ ∀ c, out.1 = Ok c → _resolutions c ≠ d.

(** [K()] up to the call of [_make_resolution]: the new object with its
    empty dictionary, and the imports resolved into it. *)
Definition imports_resolved (K : ContainerClass) (cfg : _Config) (σ : State)
    : Result unit * State :=
  _Container._resolve_imports _Container.__init__
    (_Container.new_self K cfg σ) (cfg_imports cfg)
    (_Container.init_state σ).

(** Every token the cache has in [σ] it still has in [σ'], with the same
    dictionary behind it. *)
Definition cache_stable (σ σ' : State) : Prop :=
  ∀ t c, _Cache.get_by_token t σ = Some c →
         ∃ c', _Cache.get_by_token t σ' = Some c'
               ∧ _resolutions c' = _resolutions c.

(** The fold over the exported entries, for any list of entries. *)
Definition merge_items (self container : ContainerObj)
    (items : list (string * nat)) (σ : State) : State :=
  foldl (λ σ item, _Container.merge_export self container item σ) σ items.


(** What a construction guarantees about the cache: nothing is lost, and
    a container that was built is filed under its token with the
    dictionary it holds. *)
Definition cache_post (K : ContainerClass) (σ : State)
    (out : Result ContainerObj * State) : Prop :=
  cache_stable σ out.2
  ∧ ∀ c, out.1 = Ok c →
         c_token c = k_token K ∧ c_name c = k_name K
         ∧ ∃ c', _Cache.get_by_token (k_token K) out.2 = Some c'
                 ∧ _resolutions c' = _resolutions c.


(** What a construction guarantees about a well-formed store: it stays
    well formed, the container returned holds a dictionary that exists,
    the dictionaries that existed are as they were, and the records that
    existed keep their token and instance. *)
Definition store_post (σ : State) (out : Result ContainerObj * State)
    : Prop :=
  wf out.2
  ∧ next_id σ ≤ next_id out.2
  ∧ (∀ c, out.1 = Ok c → _resolutions c < next_id out.2)
  ∧ (∀ d, d < next_id σ → dict_at out.2 d = dict_at σ d)
  ∧ (∀ l, l < next_id σ →
          token (res_at out.2 l) = token (res_at σ l)
          ∧ instance (res_at out.2 l) = instance (res_at σ l)).




(** ** Further containers over the classes of the test suite *)

Module Scenario.
Import Calculator.

(** A container that keeps the substractor service to itself. *)
Definition PrivateSubstractorContainer : ContainerClass :=
  Container "PrivateSubstractorContainer"
    [SubstractorAdapter; SubstractorService] [] [] false.


(** Importers of the substractor container. *)
Definition ImporterContainer : ContainerClass :=
  Container "ImporterContainer" [] [] [SubstractorContainer] false.

Definition ReExporterContainer : ContainerClass :=
  Container "ReExporterContainer" [] [] [SubstractorContainer] true.


(** A service that depends on a service of the same container. *)
Definition SubstractorReport : Class :=
  Service 60 "SubstractorReport"
    [("service", SubstractorService : Requested)].

Definition ReportContainer : ContainerClass :=
  Container "ReportContainer"
    [SubstractorAdapter; SubstractorService] [SubstractorReport] [] false.

(** An importer whose own service cannot be built: nothing provides the
    adder, multiplier and divider ports. *)
Definition BrokenCalculatorContainer : ContainerClass :=
  Container "BrokenCalculatorContainer" [] [CalculatorService]
    [SubstractorContainer] false.

(** Two siblings that provide the same adapter. *)
Definition FirstSiblingContainer : ContainerClass :=
  Container "FirstSiblingContainer" [SubstractorAdapter] [] [] false.

Definition SecondSiblingContainer : ContainerClass :=
  Container "SecondSiblingContainer" [SubstractorAdapter] [] [] false.

(** A second adapter of the substractor port, and a container that
    provides the first and exports the second. *)
Definition OtherSubstractorAdapter : Class :=
  Adapter SubstractorPort 15 "OtherSubstractorAdapter".

Definition TwoAdaptersContainer : ContainerClass :=
  Container "TwoAdaptersContainer"
    [SubstractorAdapter] [OtherSubstractorAdapter] [] false.

(** A sibling that lists the adapter as provider and as export, and
    re-exports. *)
Definition BothListsContainer : ContainerClass :=
  Container "BothListsContainer"
    [SubstractorAdapter] [SubstractorAdapter] [] true.

(** Siblings that import other containers, and the second of which
    provides another adapter first. *)
Definition ImportingSiblingContainer : ContainerClass :=
  Container "ImportingSiblingContainer"
    [SubstractorAdapter] [] [AdderContainer] false.

Definition LateSiblingContainer : ContainerClass :=
  Container "LateSiblingContainer"
    [DividerAdapter; SubstractorAdapter] [] [MultiplierContainer] false.

(** An empty container that goes by the name of the second sibling, and
    a sibling that imports it. *)
Definition NamesakeContainer : ContainerClass :=
  Container "SecondSiblingContainer" [] [] [] false.

Definition NamesakeImporterContainer : ContainerClass :=
  Container "NamesakeImporterContainer"
    [SubstractorAdapter] [] [NamesakeContainer] false.

(** An importer of the first sibling, and a container that provides the
    adapter and goes by the name of [BothListsContainer]. *)
Definition FirstSiblingImporterContainer : ContainerClass :=
  Container "FirstSiblingImporterContainer" [] []
    [FirstSiblingContainer] false.

Definition BothListsNamesakeContainer : ContainerClass :=
  Container "BothListsContainer" [SubstractorAdapter] [] [] false.

End Scenario.

(** ** The public accessor [_Container.get] *)

(** The class [_Element], from which every decorated class descends; it
    has no [__token__] of its own. *)
Definition Element : Requested := Untokened Calculator.element_id "_Element".

(** A class as a caller hands it to [get]: a decorated class, with its
    token, or a class that has no [__token__], of which the identity, the
    name and the ancestors are read. *)
Inductive Queried :=
| Decorated (c : Class)
| Undecorated (id : nat) (name : string) (ancestors : list nat).

Coercion Decorated : Class >-> Queried.

Definition queried_id (q : Queried) : nat :=
  match q with Decorated c => ty_id c | Undecorated id _ _ => id end.
Definition queried_name (q : Queried) : string :=
  match q with Decorated c => __name__ c | Undecorated _ name _ => name end.
Definition queried_ancestors (q : Queried) : list nat :=
  match q with
  | Decorated c => cls_ancestors c
  | Undecorated _ _ ancestors => ancestors
  end.
Definition queried_token (q : Queried) : option string :=
  match q with Decorated c => Some (__token__ c) | Undecorated _ _ _ => None end.

(** [issubclass(element, _Element)] *)
Definition is_element (q : Queried) : bool :=
  bool_decide (queried_id q = req_id Element
               ∨ req_id Element ∈ queried_ancestors q).

Module _Container_api.

(** The [AttributeError] of a class without [__token__] is not what
    the [except KeyError] clause catches; its message stands for the
    interpreter's own. *)
Definition get (self : ContainerObj) (element : Queried) : M Instance :=
  λ σ,
  if negb (is_element element) then
    (Raise (TypeError "The element must be a subclass of 'Element'."), σ)
  else
    match queried_token element with
    | None =>
        (Raise (AttributeError
                  ("type object '" +:+ queried_name element
                     +:+ "' has no attribute '__token__'")), σ)
    | Some tok =>
        match dict_get tok (resolutions self σ) with
        | Some resolution => (Ok (instance (res_at σ resolution)), σ)
        | None =>
            (Raise (KeyError
                      ("Provider with " +:+ queried_name element
                         +:+ " not found")),
             σ)
        end
    end.

End _Container_api.

(** ** The calls a process makes, and the states it reaches *)

Inductive Call :=
| Construct (K : ContainerClass)       (* K() *)
| Clear.                               (* _Cache().clear() *)

Definition call (σ : State) (c : Call) : State :=
  match c with
  | Construct K => (_Container.__init__ K σ).2
  | Clear => _Cache.clear σ
  end.

Definition run (calls : list Call) (σ : State) : State := foldl call σ calls.

(** The records filed in the dictionary at [d] were created at identity
    [n] or later. *)
Definition entries_since (n d : nat) (σ : State) : Prop :=
  ∀ k l, (k, l) ∈ dict_at σ d → n ≤ l.

(** Every dictionary the cache holds, and every record filed in one of
    them, was created at identity [n] or later. *)
Definition built_since (n : nat) (σ : State) : Prop :=
  ∀ t c, (t, c) ∈ _containers σ →
         n ≤ _resolutions c ∧ entries_since n (_resolutions c) σ.

(** What a construction guarantees about it. *)
Definition built_post (n : nat) (out : Result ContainerObj * State) : Prop :=
  built_since n out.2
  ∧ ∀ c, out.1 = Ok c →
         n ≤ _resolutions c ∧ entries_since n (_resolutions c) out.2.

(** The description of a dependency that [_resolve] appends to [deps]. *)
Definition describe (param : string) (dependency : Instance) : string :=
  "<" +:+ param +:+ ", " +:+ __name__ (obj_class dependency) +:+ ">".



(** ** The check of the [Adapter] decorator *)

(** A class as [_check_adapter] reads it: [__name__], the class's own
    [__dict__], where each name carries
    [getattr(attr, "__isabstractmethod__", False)], and [__bases__]. *)
Inductive ClassDef :=
| MkClassDef (name : string) (dict : PyDict bool) (bases : list ClassDef).

Definition def_name (c : ClassDef) : string :=
  match c with MkClassDef n _ _ => n end.
Definition __dict__ (c : ClassDef) : PyDict bool :=
  match c with MkClassDef _ d _ => d end.
Definition __bases__ (c : ClassDef) : list ClassDef :=
  match c with MkClassDef _ _ b => b end.

(** The outcome of the check: it returns, or raises [NotImplementedError]. *)
Inductive Checked :=
| Passed
| NotImplementedError (message : string).

Module Adapter.

(** The keys of [implemented_methods]. *)
Definition implemented_methods (adapter : ClassDef) : list string :=
  (filter (λ item : string * bool, item.2 = false) (__dict__ adapter)).*1.

(** [for name, attr in base_class.__dict__.items()] *)
Fixpoint check_items (base_name : string) (implemented : list string)
    (items : PyDict bool) : Checked :=
  match items with
  | [] => Passed
  | (name, attr) :: rest =>
      if attr && negb (bool_decide (name ∈ implemented)) then
        NotImplementedError
          ("Method '" +:+ base_name +:+ "." +:+ name
                      +:+ "' is not implemented.")
      else check_items base_name implemented rest
  end.

(** [for base_class in adapter.__bases__ + (port,)] *)
Fixpoint check_bases (implemented : list string) (classes : list ClassDef)
    : Checked :=
  match classes with
  | [] => Passed
  | base_class :: rest =>
      match check_items (def_name base_class) implemented
              (__dict__ base_class) with
      | Passed => check_bases implemented rest
      | NotImplementedError message => NotImplementedError message
      end
  end.

Definition _check_adapter (adapter port : ClassDef) : Checked :=
  check_bases (implemented_methods adapter) (__bases__ adapter ++ [port]).

End Adapter.

(** ** The [Container] decorator *)

Module Container.

(** The decorator object: [self.config] and [self.meta]. *)
Record t := { config : _Config; meta : _Meta }.

(** [for imp in imports]: every import must be a container class. *)
Fixpoint check_imports (imports : list PyClass)
    : Result (list ContainerClass) :=
  match imports with
  | [] => Ok []
  | ElementClass _ :: _ =>
      Raise (TypeError "The element must be a subclass of 'Container'.")
  | ContainerType K :: rest =>
      match check_imports rest with
      | Ok containers => Ok (K :: containers)
      | Raise e => Raise e
      end
  end.

Definition __init__ (name description version : string)
    (authors : list string) (providers exports : list Class)
    (imports : list PyClass) (re_export : bool) : Result t :=
  match check_imports imports with
  | Raise e => Raise e
  | Ok containers =>
      Ok {| config := Mk_Config providers exports containers re_export;
            meta := {| meta_name := name; meta_description := description;
                       meta_version := version; meta_authors := authors |} |}
  end.

(** The class the decorator returns for a class named [cls_name]: it
    takes the name of the class, and the name is its token. *)
Definition __call__ (self : t) (cls_name : string) : ContainerClass :=
  MkContainerClass cls_name cls_name (Some (meta self)) (Some (config self)).

End Container.

(** ** [Singleton] of [hexon/core/singleton.py] *)

Module Singleton.
Section Singleton.
Context {Args T World : Type}.

(** The call of [cls] with the arguments given: the constructor may
    change the world and may raise. *)
Variable cls : Args → World → Result T * World.

(** [get_instance]; [instances] is the dictionary of the closure,
    which only ever has the key [cls]. *)
Definition get_instance (args : Args) (instances : option T) (w : World)
    : Result T * (option T * World) :=
  match instances with
  | Some inst => (Ok inst, (instances, w))
  | None =>
      match cls args w with
      | (Ok inst, w') => (Ok inst, (Some inst, w'))
      | (Raise e, w') => (Raise e, (None, w'))
      end
  end.

(** A sequence of calls, with the results in order. *)
Fixpoint calls (argss : list Args) (instances : option T) (w : World)
    : list (Result T) * (option T * World) :=
  match argss with
  | [] => ([], (instances, w))
  | args :: rest =>
      let '(r, (instances', w')) := get_instance args instances w in
      let '(rs, final) := calls rest instances' w' in
      (r :: rs, final)
  end.
End Singleton.
End Singleton.

(** ** Further inputs over the classes of the test suite *)

Module Inputs.
Import Calculator.

(** A container that lists a service before the adapter it depends on. *)
Definition MisorderedContainer : ContainerClass :=
  Container "MisorderedContainer"
    [SubstractorService; SubstractorAdapter] [] [] false.

(** [class NotElement: pass] and [class EmptyElement(Element): pass] as
    a caller hands them to [get]. *)
Definition NotElementClass : Queried := Undecorated 3 "NotElement" [].

Definition EmptyElementClass : Queried :=
  Undecorated 2 "EmptyElement" [element_id].

(** A second adapter of the substractor port, whose constructor asks
    for the adder port, listed after the first. *)
Definition AdderBackedAdapter : Class :=
  {| cls_type := {| ty_id := 18; __name__ := "AdderBackedAdapter";
                    __token__ := "SubstractorPort" |};
     cls_ancestors := [17; element_id]; cls_abstract := false;
     cls_hints := [("adder", AdderPort : Requested); ("return", NoneType)];
     cls_required := ["adder"]; cls_init_raises := None |}.

Definition AdderBackedContainer : ContainerClass :=
  Container "AdderBackedContainer"
    [SubstractorAdapter; AdderBackedAdapter] [] [] false.

(** The container object of the substractor container in a new process,
    and the store once its adapter is resolved. *)
Definition substractor : ContainerObj :=
  _Container.new_self SubstractorContainer
    (Mk_Config [SubstractorAdapter] [SubstractorService] [] false)
    empty_state.

Definition adapter_resolved : State :=
  (_Container.resolve_providers substractor [SubstractorAdapter]
     (_Container.init_state empty_state)).2.

(** The substractor classes as they are written, before decoration, with
    the methods of their bodies. *)
Definition ABCDef : ClassDef := MkClassDef "ABC" [] [].

Definition ElementDef : ClassDef :=
  MkClassDef "_Element" [("__init__", false); ("__repr__", false)] [ABCDef].

Definition SubstractorPortDef : ClassDef :=
  MkClassDef "SubstractorPort" [("substract", true)] [ElementDef].

Definition SubstractorAdapterDef : ClassDef :=
  MkClassDef "SubstractorAdapter" [("substract", false)] [ElementDef].

(** An adapter class with an empty body. *)
Definition EmptyAdapterDef : ClassDef :=
  MkClassDef "EmptyAdapter" [] [ElementDef].

(** A class whose constructor keeps its argument and counts its calls. *)
Definition Recorder (value : nat) (made : nat) : Result nat * nat :=
  (Ok value, S made).

End Inputs.

Import _Container.

(** * Properties *)

(** ** Dictionaries *)

Section dict_facts.
Context {V : Type}.
Implicit Types (d : PyDict V) (k : string) (v : V).

Lemma dict_get_set_eq k v d : dict_get k (dict_set k v d) = Some v.
Proof.
  induction d as [|[k' v'] d IH]; simpl.
  - by rewrite decide_True.
  - destruct (decide (k = k')) as [->|Hne]; simpl.
    + by rewrite decide_True.
    + by rewrite decide_False.
Qed.

Lemma dict_get_set_ne k k' v d :
  k ≠ k' → dict_get k' (dict_set k v d) = dict_get k' d.
Proof.
  intros Hne. induction d as [|[k0 v0] d IH]; simpl.
  - by rewrite decide_False.
  - destruct (decide (k = k0)) as [->|Hne0]; simpl.
    + by rewrite !decide_False.
    + by rewrite IH.
Qed.

Lemma dict_get_Some_elem k v d : dict_get k d = Some v → (k, v) ∈ d.
Proof.
  induction d as [|[k' v'] d IH]; simpl; [done|].
  destruct (decide (k = k')) as [->|Hne].
  - intros [= ->]. left.
  - intros H. right. auto.
Qed.

Lemma dict_get_None k d : dict_get k d = None ↔ k ∉ dict_keys d.
Proof.
  unfold dict_keys. induction d as [|[k' v'] d IH]; simpl.
  - split; [intros _; apply not_elem_of_nil | done].
  - rewrite not_elem_of_cons. destruct (decide (k = k')) as [->|Hne].
    + split; [done | intros [? _]; done].
    + rewrite IH. tauto.
Qed.

Lemma dict_get_is_Some k d : is_Some (dict_get k d) ↔ k ∈ dict_keys d.
Proof.
  rewrite <-not_eq_None_Some, dict_get_None.
  split; [apply dec_stable | auto].
Qed.

Lemma dict_set_new k v d : k ∉ dict_keys d → dict_set k v d = d ++ [(k, v)].
Proof.
  unfold dict_keys. induction d as [|[k' v'] d IH]; simpl; [done|].
  rewrite not_elem_of_cons. intros [Hne Hnin].
  rewrite decide_False by done. by rewrite IH.
Qed.

Lemma dict_set_elem k v d x : x ∈ dict_set k v d → x = (k, v) ∨ x ∈ d.
Proof.
  induction d as [|[k' v'] d IH]; simpl.
  - intros ->%list_elem_of_singleton. by left.
  - destruct (decide (k = k')) as [->|Hne].
    + intros [->|Hin]%elem_of_cons; [by left|]. right. by right.
    + intros [->|Hin]%elem_of_cons; [right; left|].
      destruct (IH Hin) as [->|?]; [by left|]. right. by right.
Qed.

Lemma dict_get_app_l k d1 d2 :
  k ∈ dict_keys d1 → dict_get k (d1 ++ d2) = dict_get k d1.
Proof.
  unfold dict_keys. induction d1 as [|[k' v'] d1 IH]; simpl.
  - by intros ?%elem_of_nil.
  - destruct (decide (k = k')); [done|].
    intros [?|?]%elem_of_cons; [done | auto].
Qed.

Lemma dict_get_app_r k d1 d2 :
  k ∉ dict_keys d1 → dict_get k (d1 ++ d2) = dict_get k d2.
Proof.
  unfold dict_keys. induction d1 as [|[k' v'] d1 IH]; simpl; [done|].
  rewrite not_elem_of_cons. intros [? ?]. by rewrite decide_False, IH.
Qed.

(** A lookup in a filtered dictionary only looks at the entries under
    the key. *)
Lemma dict_get_filter_ext (P Q : string * V → Prop)
    `{∀ x, Decision (P x)} `{∀ x, Decision (Q x)} k d :
  (∀ v, (k, v) ∈ d → P (k, v) ↔ Q (k, v)) →
  dict_get k (filter P d) = dict_get k (filter Q d).
Proof.
  induction d as [|[k' v'] d IH]; intros Hext; [done|].
  assert (dict_get k (filter P d) = dict_get k (filter Q d)) as IH'.
  { apply IH. intros v Hv. apply Hext. by right. }
  rewrite !filter_cons.
  destruct (decide (k = k')) as [->|Hne].
  - assert (P (k', v') ↔ Q (k', v')) as HPQ by (apply Hext; left).
    destruct (decide (P (k', v'))), (decide (Q (k', v')));
      simpl; rewrite ?decide_True by done; tauto || done.
  - destruct (decide (P (k', v'))), (decide (Q (k', v')));
      simpl; rewrite ?decide_False by done; done.
Qed.

Lemma dict_get_filter_Some (P : string * V → Prop)
    `{∀ x, Decision (P x)} k v d :
  dict_get k (filter P d) = Some v → (k, v) ∈ d ∧ P (k, v).
Proof.
  intros Hget%dict_get_Some_elem. by apply list_elem_of_filter in Hget as [? ?].
Qed.

End dict_facts.

(** ** The element contract and the introspection helper *)

Lemma hasattr_true o name : hasattr o name = true ↔ name ∈ py_attrs o.
Proof. unfold hasattr. by rewrite bool_decide_eq_true. Qed.

Lemma hasattr_false o name : hasattr o name = false ↔ name ∉ py_attrs o.
Proof. unfold hasattr. by rewrite bool_decide_eq_false. Qed.

Ltac reflect_hasattr :=
  repeat match goal with
         | H : hasattr _ _ = true |- _ => apply hasattr_true in H
         | H : hasattr _ _ = false |- _ => apply hasattr_false in H
         end.

(** C7: [_Element.__init__] raises [ContainerError] with code
    [INVALID_ELEMENT] exactly when one of [__element__], [__token__],
    [__meta__] is missing; with all three present it returns, and in both
    cases the store is left as it was. *)
Theorem element_init_validates (self : PyObj) (σ : State) :
  (has_element_attrs self → _Element.__init__ self σ = (Ok tt, σ))
  ∧ (¬ has_element_attrs self →
     ∃ message,
       _Element.__init__ self σ
       = (Raise (ContainerError message INVALID_ELEMENT), σ)).
Proof.
  unfold has_element_attrs, _Element.__init__.
  destruct (hasattr self "__element__") eqn:He;
    destruct (hasattr self "__token__") eqn:Ht;
    destruct (hasattr self "__meta__") eqn:Hm; simpl;
    reflect_hasattr;
    (split; [intros (? & ? & ?) | intros Hnot]);
    first [ done | by eexists | exfalso; tauto ].
Qed.

(** C7 at an object with all three attributes, and at one without
    metadata. *)
Lemma element_init_validates_witness :
  _Element.__init__
    {| py_isclass := false;
       py_attrs := ["__element__"; "__token__"; "__meta__"] |} empty_state
  = (Ok tt, empty_state)
  ∧ ∃ message,
      _Element.__init__
        {| py_isclass := false; py_attrs := ["__element__"; "__token__"] |}
        empty_state
      = (Raise (ContainerError message INVALID_ELEMENT), empty_state).
Proof.
  split.
  - apply (proj1 (element_init_validates _ empty_state)).
    unfold has_element_attrs; simpl. compute_done.
  - apply (proj2 (element_init_validates _ empty_state)).
    unfold has_element_attrs; simpl. compute_done.
Defined.

(** C9, as the code has it: [is_element_or_raise] raises [AttributeError]
    for everything that is not a class, lacks [__meta__] or lacks
    [__token__], so the metadata is checked here, and it returns for a
    class that carries kind, token and metadata. *)
Theorem is_element_or_raise_checks (x : PyObj) :
  (lacks_class_tags x →
   ∃ message,
     ContainerTools.is_element_or_raise x = Raise (AttributeError message))
  ∧ (py_isclass x = true → has_element_attrs x →
     ContainerTools.is_element_or_raise x = Ok tt).
Proof.
  unfold lacks_class_tags, has_element_attrs,
    ContainerTools.is_element_or_raise.
  destruct (py_isclass x);
    destruct (hasattr x "__meta__") eqn:Hm;
    destruct (hasattr x "__token__") eqn:Ht; simpl;
    reflect_hasattr;
    (split; [intros [?|[?|?]] | intros ? (? & ? & ?)]);
    first [ done | by eexists | exfalso; tauto ].
Qed.

(** C9 at a class without metadata, and at a fully tagged class. *)
Lemma is_element_or_raise_checks_witness :
  (∃ message,
     ContainerTools.is_element_or_raise
       {| py_isclass := true; py_attrs := ["__element__"; "__token__"] |}
     = Raise (AttributeError message))
  ∧ ContainerTools.is_element_or_raise
      {| py_isclass := true;
         py_attrs := ["__element__"; "__token__"; "__meta__"] |}
    = Ok tt.
Proof.
  split.
  - apply (proj1 (is_element_or_raise_checks _)).
    unfold lacks_class_tags; simpl. right. left. compute_done.
  - apply (proj2 (is_element_or_raise_checks _)); [reflexivity|].
    unfold has_element_attrs; simpl. compute_done.
Defined.

(** C9 as stated fails: a class that carries [__element__] and
    [__token__] but no [__meta__] is refused. *)
Lemma is_element_or_raise_counterexample :
  let x := {| py_isclass := true;
              py_attrs := ["__element__"; "__token__"] |} in
  py_isclass x = true
  ∧ hasattr x "__element__" = true
  ∧ hasattr x "__token__" = true
  ∧ hasattr x "__meta__" = false
  ∧ ContainerTools.is_element_or_raise x
    = Raise (AttributeError "The element must have a '__meta__' property.").
Proof. by split_and!. Qed.

(** ** Instantiation and dependency lookup *)

Lemma instantiate_Ok cls kwargs σ inst σ' :
  instantiate cls kwargs σ = (Ok inst, σ') →
  cls_abstract cls = false
  ∧ cls_required cls ⊆ dict_keys kwargs
  ∧ cls_init_raises cls = None
  ∧ inst = {| obj_id := next_id σ; obj_class := cls;
              obj_kwargs := (λ kv, (kv.1, obj_id kv.2)) <$> kwargs |}
  ∧ σ' = bump σ.
Proof.
  unfold instantiate. destruct (cls_abstract cls); [done|].
  destruct (filter _ (cls_required cls)) as [|p rest] eqn:Hf; [|done].
  destruct (cls_init_raises cls); [done|].
  unfold bind, fresh, ret. intros [= <- <-]. repeat split.
  intros p Hp. destruct (decide (p ∈ dict_keys kwargs)) as [|Hnin]; [done|].
  assert (p ∈ filter (λ p, p ∉ dict_keys kwargs) (cls_required cls)) as Hin
    by by apply list_elem_of_filter.
  rewrite Hf in Hin. by apply elem_of_nil in Hin.
Qed.

Lemma instantiate_Raise cls kwargs σ e σ' :
  instantiate cls kwargs σ = (Raise e, σ') → σ' = σ.
Proof.
  unfold instantiate. destruct (cls_abstract cls); [by intros [= _ <-]|].
  destruct (filter _ (cls_required cls)); [|by intros [= _ <-]].
  destruct (cls_init_raises cls); [by intros [= _ <-]|done].
Qed.

Lemma instantiate_missing_argument cls σ :
  cls_required cls ≠ [] →
  ∃ message, instantiate cls [] σ = (Raise (TypeError message), σ).
Proof.
  intros Hreq. unfold instantiate. destruct (cls_abstract cls); [by eexists|].
  destruct (cls_required cls) as [|p rest]; [done|].
  rewrite filter_cons_True by apply not_elem_of_nil. by eexists.
Qed.

Lemma find_first_match cls classes p :
  first_match cls classes p →
  find (λ q, issubclass q cls) classes = Some p.
Proof.
  intros (before & after & -> & Hp & Hbefore).
  induction Hbefore as [|q before Hq _ IH]; simpl.
  - by rewrite Hp.
  - by rewrite Hq.
Qed.

Lemma find_no_match cls classes :
  no_match cls classes → find (λ q, issubclass q cls) classes = None.
Proof.
  induction 1 as [|q classes Hq _ IH]; simpl; [done|]. by rewrite Hq.
Qed.

Lemma first_match_app_l cls classes more p :
  first_match cls classes p → first_match cls (classes ++ more) p.
Proof.
  intros (before & after & -> & Hp & Hbefore).
  exists before, (after ++ more). by rewrite <-app_assoc.
Qed.

Lemma instantiate_no_argument cls σ :
  cls_abstract cls = false → cls_required cls = [] →
  cls_init_raises cls = None →
  instantiate cls [] σ
  = (Ok {| obj_id := next_id σ; obj_class := cls; obj_kwargs := [] |}, bump σ).
Proof.
  intros Habs Hreq Hraise. unfold instantiate.
  by rewrite Habs, Hreq, Hraise.
Qed.

Lemma instantiate_progress cls kwargs σ :
  cls_abstract cls = false → cls_init_raises cls = None →
  cls_required cls ⊆ dict_keys kwargs →
  instantiate cls kwargs σ
  = (Ok {| obj_id := next_id σ; obj_class := cls;
           obj_kwargs := (λ kv, (kv.1, obj_id kv.2)) <$> kwargs |}, bump σ).
Proof.
  intros Habs Hraise Hreq. unfold instantiate. rewrite Habs, Hraise.
  assert (filter (λ p, p ∉ dict_keys kwargs) (cls_required cls) = []) as ->.
  { induction (cls_required cls) as [|q rest IH]; [done|].
    rewrite filter_cons_False.
    - apply IH. intros x Hx. apply Hreq. by right.
    - intros Hnin. apply Hnin, Hreq. by left. }
  done.
Qed.

Lemma get_state self cls σ r σ' :
  _get self cls σ = (r, σ') → σ' = σ ∨ σ' = bump σ.
Proof.
  unfold _get. destruct (find _ _) as [p|].
  - destruct r as [inst|e]; intros H.
    + apply instantiate_Ok in H as (_ & _ & _ & _ & ->). by right.
    + apply instantiate_Raise in H as ->. by left.
  - destruct (req_token cls) as [tok|]; [|intros [= _ <-]; by left].
    destruct (dict_get _ _); intros [= _ <-]; by left.
Qed.

Lemma get_direct self cls p σ :
  first_match cls (_providers self ++ _exports self) p →
  _get self cls σ = instantiate p [] σ.
Proof. intros Hp. unfold _get. by rewrite (find_first_match _ _ _ Hp). Qed.

Lemma get_stored self cls tok l σ :
  no_match cls (_providers self ++ _exports self) →
  req_token cls = Some tok →
  dict_get tok (resolutions self σ) = Some l →
  _get self cls σ = (Ok (instance (res_at σ l)), σ).
Proof.
  intros Hno Htok Hl. unfold _get.
  by rewrite (find_no_match _ _ Hno), Htok, Hl.
Qed.

(** C8, as the code has it: for every requested type, [_get] scans
    [providers] then [exports] for the first class that is a subclass of
    the type and instantiates it on the spot, with no argument: a class
    that can be called so gives a new object at each lookup, whatever the
    resolutions hold. With no such class, and a requested type that has a
    token, it returns the instance stored under that token, and with no
    such entry it raises [KeyError] naming the requested type. *)
Theorem get_lookup_order (self : ContainerObj) (cls : Requested) (σ : State) :
  (∀ p, first_match cls (_providers self) p →
        _get self cls σ = instantiate p [] σ)
  ∧ (∀ p, first_match cls (_providers self ++ _exports self) p →
          _get self cls σ = instantiate p [] σ
          ∧ (cls_abstract p = false → cls_required p = [] →
             cls_init_raises p = None →
             _get self cls σ
             = (Ok {| obj_id := next_id σ; obj_class := p; obj_kwargs := [] |},
                bump σ)
             ∧ _get self cls (bump σ)
               = (Ok {| obj_id := S (next_id σ); obj_class := p;
                        obj_kwargs := [] |}, bump (bump σ)))
          ∧ ∀ inst σ', _get self cls σ = (Ok inst, σ') →
              obj_id inst = next_id σ ∧ obj_class inst = p
              ∧ ∃ again, _get self cls σ' = (Ok again, bump σ')
                         ∧ obj_id again ≠ obj_id inst)
  ∧ (no_match cls (_providers self ++ _exports self) →
     ∀ tok resolution,
       req_token cls = Some tok →
       dict_get tok (resolutions self σ) = Some resolution →
       _get self cls σ = (Ok (instance (res_at σ resolution)), σ))
  ∧ (no_match cls (_providers self ++ _exports self) →
     ∀ tok,
       req_token cls = Some tok →
       dict_get tok (resolutions self σ) = None →
       _get self cls σ
       = (Raise (KeyError ("Provider with " +:+ req_name cls +:+ " not found")),
          σ)).
Proof.
  split_and!.
  - intros p Hp. apply get_direct. by apply first_match_app_l.
  - intros p Hp. split; [by apply get_direct|]. split.
    + intros Habs Hreq Hraise. rewrite !(get_direct _ _ _ _ Hp).
      by rewrite !instantiate_no_argument.
    + intros inst σ' Hget. rewrite (get_direct _ _ _ _ Hp) in Hget.
      apply instantiate_Ok in Hget as (Habs & Hreq & Hraise & -> & ->).
      split_and!; [done..|]. rewrite (get_direct _ _ _ _ Hp).
      assert (cls_required p = []) as Hnone.
      { destruct (cls_required p) as [|q rest]; [done|].
        specialize (Hreq q (list_elem_of_here _ _)).
        by apply elem_of_nil in Hreq. }
      rewrite instantiate_no_argument by done.
      eexists. split; [done|]. simpl. lia.
  - intros Hno tok l Htok Hl. by apply (get_stored _ _ tok).
  - intros Hno tok Htok Hl. unfold _get.
    by rewrite (find_no_match _ _ Hno), Htok, Hl.
Qed.

(** The loop of [_resolve] records one description and one argument for
    every hinted parameter. *)
Lemma resolve_params_spec self hints init_args deps σ args descr σ' :
  resolve_params self hints init_args deps σ = (Ok (args, descr), σ') →
  length descr
  = length deps
    + length (filter (λ h : string * Requested, h.1 ≠ "return") hints)
  ∧ (∀ name, name ∈ dict_keys init_args
             ∨ name ∈ (filter (λ h : string * Requested, h.1 ≠ "return")
                         hints).*1 →
             name ∈ dict_keys args).
Proof.
  revert init_args deps σ.
  induction hints as [|[param param_type] hints IH]; intros init_args deps σ; simpl.
  - unfold ret. intros [= <- <- <-]. split; [lia|].
    intros name [?|Hin]; [done|]. by apply elem_of_nil in Hin.
  - destruct (decide (param = "return")) as [->|Hne].
    + rewrite filter_cons_False by (simpl; auto). apply IH.
    + rewrite filter_cons_True by done. unfold bind at 1.
      destruct (_get self param_type σ) as [[dependency|e] σ1]; [|done].
      intros Hrec. apply IH in Hrec as [Hlen Hkeys]. split.
      * rewrite Hlen, length_app. simpl. lia.
      * intros name Hname. apply Hkeys.
        destruct (decide (name = param)) as [->|Hnp].
        { left. apply dict_get_is_Some. rewrite dict_get_set_eq. eauto. }
        destruct Hname as [Hin|Hin].
        { left. apply dict_get_is_Some. rewrite dict_get_set_ne by done.
          by apply dict_get_is_Some. }
        rewrite fmap_cons, elem_of_cons in Hin. destruct Hin as [?|?]; [done|].
        by right.
Qed.

Lemma resolve_Ok self cls σ inst descr σ' :
  _resolve self cls σ = (Ok (inst, descr), σ') →
  length descr = length (resolved_params cls)
  ∧ (resolved_params cls).*1 ⊆ (obj_kwargs inst).*1.
Proof.
  unfold _resolve, bind at 1.
  destruct (resolve_params self (cls_hints cls) [] [] σ)
    as [[[args descr']|e] σ1] eqn:Hparams; [|done].
  unfold bind. simpl.
  destruct (instantiate cls args σ1) as [[inst'|e] σ2] eqn:Hinst; [|done].
  unfold ret. intros [= <- <- <-].
  apply resolve_params_spec in Hparams as [Hlen Hkeys].
  apply instantiate_Ok in Hinst as (_ & _ & _ & -> & _). split; [done|].
  intros name Hname. simpl. rewrite <-list_fmap_compose.
  specialize (Hkeys name (or_intror Hname)).
  unfold dict_keys in Hkeys.
  by replace ((fst ∘ (λ kv : string * Instance, (kv.1, obj_id kv.2))) <$> args)
    with (args.*1) by by apply list_fmap_ext.
Qed.

(** The arguments and descriptions of the loop, in full: with hint names
    that are pairwise distinct, as the keys of a dictionary are, each
    hinted parameter adds one argument and one description at the end. *)
Lemma resolve_params_exact self hints init_args deps σ args descr σ' :
  resolve_params self hints init_args deps σ = (Ok (args, descr), σ') →
  NoDup hints.*1 →
  (∀ h, h ∈ hints → h.1 ∉ dict_keys init_args) →
  ∃ dependencies,
    length dependencies
    = length (filter (λ h : string * Requested, h.1 ≠ "return") hints)
    ∧ args = init_args
             ++ zip (filter (λ h : string * Requested, h.1 ≠ "return")
                       hints).*1
                    dependencies
    ∧ descr = deps
              ++ zip_with describe
                   (filter (λ h : string * Requested, h.1 ≠ "return")
                      hints).*1
                   dependencies.
Proof.
  revert init_args deps σ.
  induction hints as [|[p ty] rest IH]; intros init_args deps σ Hres Hnd Hnew.
  { simpl in Hres. injection Hres as <- <- _. exists [].
    by rewrite !app_nil_r. }
  rewrite fmap_cons in Hnd. apply NoDup_cons in Hnd as [Hp Hnd].
  rewrite filter_cons. simpl in *.
  destruct (decide (p = "return")) as [->|Hret].
  - rewrite decide_False by (by intros ?).
    apply (IH _ _ _ Hres Hnd). intros h Hh. apply Hnew. by right.
  - rewrite decide_True by done. unfold bind in Hres.
    destruct (_get self ty σ) as [[dependency|e] σ1]; [|done].
    assert (p ∉ dict_keys init_args) as Hfresh by (apply (Hnew (p, ty)); left).
    rewrite (dict_set_new _ _ _ Hfresh) in Hres.
    destruct (IH _ _ _ Hres Hnd) as (ds & Hlen & -> & ->).
    { intros h Hh. unfold dict_keys. rewrite fmap_app, elem_of_app.
      intros [Hin|Hin%list_elem_of_singleton].
      - apply (Hnew h); [by right|done].
      - simpl in Hin. apply Hp. rewrite <-Hin. apply list_elem_of_fmap.
        by exists h. }
    exists (dependency :: ds). simpl. rewrite Hlen.
    split; [done|]. by rewrite <-!app_assoc.
Qed.

Lemma fmap_zip_ids (names : list string) (dependencies : list Instance) :
  (λ kv : string * Instance, (kv.1, obj_id kv.2)) <$> zip names dependencies
  = zip names (obj_id <$> dependencies).
Proof.
  revert dependencies. induction names as [|n names IH]; intros [|d ds];
    simpl; try done. by rewrite <-IH.
Qed.

(** The loop goes through when every hinted parameter is found in the
    resolutions, and leaves the store as it is. *)
Lemma resolve_params_progress self hints init_args deps σ :
  Forall (λ h : string * Requested,
            no_match h.2 (_providers self ++ _exports self)
            ∧ ∃ tok, req_token h.2 = Some tok
                     ∧ is_Some (dict_get tok (resolutions self σ)))
         (filter (λ h : string * Requested, h.1 ≠ "return") hints) →
  ∃ args descr,
    resolve_params self hints init_args deps σ = (Ok (args, descr), σ).
Proof.
  revert init_args deps.
  induction hints as [|[p ty] rest IH]; intros init_args deps Hall; simpl.
  { by eexists _, _. }
  rewrite filter_cons in Hall. simpl in Hall.
  destruct (decide (p = "return")) as [->|Hp].
  - rewrite decide_False in Hall by (by intros ?). by apply IH.
  - rewrite decide_True in Hall by done.
    apply Forall_cons in Hall as [(Hno & tok & Htok & l & Hl) Hall].
    simpl in *. unfold bind.
    rewrite (get_stored _ _ tok l _ Hno Htok Hl). by apply IH.
Qed.

Lemma resolve_progress self cls σ :
  cls_abstract cls = false → cls_init_raises cls = None →
  NoDup (cls_hints cls).*1 →
  cls_required cls ⊆ (resolved_params cls).*1 →
  Forall (λ h : string * Requested,
            no_match h.2 (_providers self ++ _exports self)
            ∧ ∃ tok, req_token h.2 = Some tok
                     ∧ is_Some (dict_get tok (resolutions self σ)))
         (resolved_params cls) →
  ∃ inst descr,
    _resolve self cls σ = (Ok (inst, descr), bump σ)
    ∧ obj_id inst = next_id σ ∧ obj_class inst = cls
    ∧ (obj_kwargs inst).*1 = (resolved_params cls).*1
    ∧ length descr = length (resolved_params cls).
Proof.
  intros Habs Hraise Hnd Hreq Hall.
  destruct (resolve_params_progress self (cls_hints cls) [] [] σ Hall)
    as (args & descr & Hargs).
  destruct (resolve_params_exact _ _ _ _ _ _ _ _ Hargs Hnd)
    as (dependencies & Hlen & Hargs_eq & Hdescr).
  { intros h _. apply not_elem_of_nil. }
  simpl in Hargs_eq, Hdescr. subst args descr.
  eexists _, _. unfold _resolve, bind. rewrite Hargs. simpl.
  rewrite instantiate_progress; [|done|done|].
  - split; [done|]. simpl. split; [done|]. split; [done|].
    rewrite fmap_zip_ids. unfold resolved_params. split.
    + apply fst_zip. rewrite !length_fmap. lia.
    + rewrite length_zip_with, !length_fmap. lia.
  - unfold dict_keys. rewrite fst_zip; [done|].
    rewrite length_fmap. lia.
Qed.

(** C10: when [_get] finds a declared class by ancestry it calls it with
    no argument at all. A class that can be called so is built, from no
    dependency; a class whose constructor has a parameter without default
    makes the lookup raise [TypeError], so that a lookup that returns has
    met a class without such parameters. [_resolve], in contrast, looks up
    one argument for each hinted parameter and builds the same class from
    them. *)
Theorem get_direct_instantiation_passes_no_argument
    (self : ContainerObj) (cls : Requested) (p : Class) (σ : State) :
  first_match cls (_providers self ++ _exports self) p →
  (cls_abstract p = false → cls_required p = [] → cls_init_raises p = None →
   _get self cls σ
   = (Ok {| obj_id := next_id σ; obj_class := p; obj_kwargs := [] |}, bump σ))
  ∧ (cls_required p ≠ [] →
     ∃ message, _get self cls σ = (Raise (TypeError message), σ))
  ∧ (∀ inst σ', _get self cls σ = (Ok inst, σ') →
       cls_required p = [] ∧ obj_class inst = p ∧ obj_kwargs inst = [])
  ∧ (cls_abstract p = false → cls_init_raises p = None →
     NoDup (cls_hints p).*1 →
     cls_required p ⊆ (resolved_params p).*1 →
     Forall (λ h : string * Requested,
               no_match h.2 (_providers self ++ _exports self)
               ∧ ∃ tok, req_token h.2 = Some tok
                        ∧ is_Some (dict_get tok (resolutions self σ)))
            (resolved_params p) →
     ∃ inst descr,
       _resolve self p σ = (Ok (inst, descr), bump σ)
       ∧ obj_id inst = next_id σ ∧ obj_class inst = p
       ∧ (obj_kwargs inst).*1 = (resolved_params p).*1
       ∧ length descr = length (resolved_params p))
  ∧ (∀ inst descr σ', _resolve self p σ = (Ok (inst, descr), σ') →
       length descr = length (resolved_params p)
       ∧ (resolved_params p).*1 ⊆ (obj_kwargs inst).*1).
Proof.
  intros Hp. rewrite (get_direct _ _ _ _ Hp). split_and!.
  - apply instantiate_no_argument.
  - apply instantiate_missing_argument.
  - intros inst σ' Hinst.
    apply instantiate_Ok in Hinst as (_ & Hreq & _ & -> & _). split_and!; [|done..].
    destruct (cls_required p) as [|q rest]; [done|].
    specialize (Hreq q (list_elem_of_here _ _)). by apply elem_of_nil in Hreq.
  - apply resolve_progress.
  - intros inst descr σ'. apply resolve_Ok.
Qed.

(** ** Reading and writing the store *)

Lemma res_at_update_eq l f σ : res_at (update_res l f σ) l = f (res_at σ l).
Proof. unfold res_at, update_res; simpl. by rewrite lookup_total_insert_eq. Qed.

Lemma res_at_update_ne l l' f σ :
  l ≠ l' → res_at (update_res l f σ) l' = res_at σ l'.
Proof.
  intros. unfold res_at, update_res; simpl. by rewrite lookup_total_insert_ne.
Qed.

Lemma res_at_update l l' f σ :
  res_at (update_res l f σ) l'
  = if decide (l = l') then f (res_at σ l') else res_at σ l'.
Proof.
  case_decide as Hl; [subst; apply res_at_update_eq | by apply res_at_update_ne].
Qed.

Lemma dict_at_store_eq d k l σ :
  dict_at (dict_store d k l σ) d = dict_set k l (dict_at σ d).
Proof. unfold dict_at, dict_store; simpl. by rewrite lookup_total_insert_eq. Qed.

Lemma dict_at_store_ne d d' k l σ :
  d ≠ d' → dict_at (dict_store d k l σ) d' = dict_at σ d'.
Proof.
  intros. unfold dict_at, dict_store; simpl. by rewrite lookup_total_insert_ne.
Qed.

Lemma token_update l l' f σ :
  (∀ r, token (f r) = token r) →
  token (res_at (update_res l f σ) l') = token (res_at σ l').
Proof. intros Hf. rewrite res_at_update. by case_decide. Qed.

Lemma instance_update l l' f σ :
  (∀ r, instance (f r) = instance r) →
  instance (res_at (update_res l f σ) l') = instance (res_at σ l').
Proof. intros Hf. rewrite res_at_update. by case_decide. Qed.

(** ** Dictionaries keep one entry per key *)

Lemma dict_set_keys_NoDup {V} k (v : V) d :
  NoDup (dict_keys d) → NoDup (dict_keys (dict_set k v d)).
Proof.
  unfold dict_keys. induction d as [|[k' v'] d IH]; simpl.
  - intros _. apply NoDup_singleton.
  - rewrite NoDup_cons. intros [Hnin Hnd].
    destruct (decide (k = k')) as [->|Hne]; simpl.
    + by apply NoDup_cons.
    + apply NoDup_cons. split; [|by apply IH].
      intros [[k0 v0] [Heq Hin]]%list_elem_of_fmap. simpl in Heq. subst k0.
      apply dict_set_elem in Hin as [[= <- <-]|Hin]; [done|].
      apply Hnin. by apply (list_elem_of_fmap_2' fst _ (k', v0)).
Qed.

Lemma dict_get_elem_NoDup {V} k (v : V) d :
  NoDup (dict_keys d) → (k, v) ∈ d → dict_get k d = Some v.
Proof.
  unfold dict_keys. induction d as [|[k' v'] d IH]; simpl.
  - by intros _ ?%elem_of_nil.
  - rewrite NoDup_cons. intros [Hnin Hnd] [[= <- <-]|Hin]%elem_of_cons.
    + by rewrite decide_True.
    + rewrite decide_False; [by apply IH|].
      intros <-. apply Hnin. by apply (list_elem_of_fmap_2' fst _ (k, v)).
Qed.

Lemma dict_get_filter_NoDup {V} (P : string * V → Prop)
    `{∀ x, Decision (P x)} k v d :
  NoDup (dict_keys d) →
  dict_get k (filter P d) = Some v → dict_get k d = Some v.
Proof.
  intros Hnd [Hin _]%dict_get_filter_Some. by apply dict_get_elem_NoDup.
Qed.

Lemma dict_get_filter_NoDup_Some {V} (P : string * V → Prop)
    `{∀ x, Decision (P x)} k v d :
  dict_get k d = Some v → P (k, v) → is_Some (dict_get k (filter P d)).
Proof.
  intros Hget HP. apply dict_get_is_Some. unfold dict_keys.
  apply (list_elem_of_fmap_2' fst _ (k, v)); [|done].
  apply list_elem_of_filter. split; [done|]. by apply dict_get_Some_elem.
Qed.

(** ** The empty store is well formed *)

Lemma wf_empty : wf empty_state.
Proof.
  split.
  - intros d k l. unfold dict_at; simpl. rewrite lookup_total_empty.
    by intros ?%elem_of_nil.
  - intros d. unfold dict_at; simpl. rewrite lookup_total_empty. apply NoDup_nil_2.
  - intros t c. simpl. by intros ?%elem_of_nil.
Qed.

Lemma wf_clear σ : wf σ → wf (_Cache.clear σ).
Proof.
  intros [He Hk Hc]. split; [done..|]. intros t c. simpl. by intros ?%elem_of_nil.
Qed.

Lemma wf_bump σ : wf σ → wf (bump σ).
Proof.
  intros [He Hk Hc]. split; simpl.
  - intros d k l Hin. destruct (He d k l Hin). split; [lia|done].
  - done.
  - intros t c Hin. destruct (Hc t c Hin). split; [lia|done].
Qed.

Lemma wf_update_res l f σ :
  (∀ r, token (f r) = token r) → wf σ → wf (update_res l f σ).
Proof.
  intros Hf [He Hk Hc]. split; [|done..].
  intros d k l' Hin. destruct (He d k l' Hin) as [? ?].
  split; [done|]. by rewrite token_update.
Qed.

Lemma wf_dict_store d k l σ :
  l < next_id σ → token (res_at σ l) = k → wf σ → wf (dict_store d k l σ).
Proof.
  intros Hl Htok [He Hk Hc]. split; [| |done].
  - intros d' k' l'. destruct (decide (d = d')) as [<-|Hne].
    + rewrite dict_at_store_eq. intros [[= -> ->]|Hin]%dict_set_elem; [done|].
      by apply (He d).
    + rewrite dict_at_store_ne by done. apply He.
  - intros d'. destruct (decide (d = d')) as [<-|Hne].
    + rewrite dict_at_store_eq. by apply dict_set_keys_NoDup.
    + by rewrite dict_at_store_ne.
Qed.

Lemma wf_add c σ :
  _resolutions c < next_id σ → wf σ → wf (_Cache.add c σ).
Proof.
  intros Hc' [He Hk Hc]. split; [done..|].
  intros t c0. simpl. intros [[= -> ->]|Hin]%dict_set_elem; [done|]. by apply Hc.
Qed.

Lemma wf_init_state σ : wf σ → wf (init_state σ).
Proof.
  intros Hwf. apply wf_bump, wf_bump in Hwf. destruct Hwf as [He Hk Hc].
  unfold init_state. split; [| |done].
  - intros d k l. unfold dict_at; simpl.
    destruct (decide (S (next_id σ) = d)) as [<-|Hne].
    + rewrite lookup_total_insert_eq. by intros ?%elem_of_nil.
    + rewrite lookup_total_insert_ne by done. apply He.
  - intros d. unfold dict_at; simpl.
    destruct (decide (S (next_id σ) = d)) as [<-|Hne].
    + rewrite lookup_total_insert_eq. apply NoDup_nil_2.
    + rewrite lookup_total_insert_ne by done. apply Hk.
Qed.

Lemma init_state_dict σ : dict_at (init_state σ) (S (next_id σ)) = [].
Proof. unfold dict_at, init_state; simpl. by rewrite lookup_total_insert_eq. Qed.

Lemma init_state_unpublished σ :
  wf σ → unpublished (S (next_id σ)) (init_state σ).
Proof.
  intros [_ _ Hc] t c Hin. simpl in Hin. destruct (Hc t c Hin). lia.
Qed.

(** ** Looking up dependencies only hands out identities *)

Lemma wf_next σ σ' :
  heap_res σ' = heap_res σ → heap_dict σ' = heap_dict σ →
  _containers σ' = _containers σ → next_id σ ≤ next_id σ' →
  wf σ → wf σ'.
Proof.
  intros Hr Hd Hc Hn [He Hk Hca]. split.
  - intros d k l. unfold dict_at, res_at. rewrite Hr, Hd. intros Hin.
    destruct (He d k l Hin). split; [lia|done].
  - intros d. unfold dict_at. rewrite Hd. apply Hk.
  - intros t c. rewrite Hc. intros Hin. destruct (Hca t c Hin). split; [lia|done].
Qed.

Lemma get_store self cls σ r σ' :
  _get self cls σ = (r, σ') →
  heap_res σ' = heap_res σ ∧ heap_dict σ' = heap_dict σ
  ∧ _containers σ' = _containers σ ∧ next_id σ ≤ next_id σ'.
Proof.
  intros [->| ->]%get_state; simpl; split_and!; done || lia.
Qed.

Lemma resolve_params_store self hints init_args deps σ r σ' :
  resolve_params self hints init_args deps σ = (r, σ') →
  heap_res σ' = heap_res σ ∧ heap_dict σ' = heap_dict σ
  ∧ _containers σ' = _containers σ ∧ next_id σ ≤ next_id σ'.
Proof.
  revert init_args deps σ.
  induction hints as [|[param param_type] hints IH]; intros init_args deps σ; simpl.
  - by intros [= _ <-].
  - destruct (decide (param = "return")); [apply IH|].
    unfold bind at 1.
    destruct (_get self param_type σ) as [[dependency|e] σ1] eqn:Hget.
    + apply get_store in Hget as (Hr & Hd & Hc & Hn).
      intros (Hr' & Hd' & Hc' & Hn')%IH.
      rewrite Hr', Hd', Hc'. split_and!; done || lia.
    + intros [= _ <-]. by apply get_store in Hget.
Qed.

Lemma resolve_store self cls σ r σ' :
  _resolve self cls σ = (r, σ') →
  heap_res σ' = heap_res σ ∧ heap_dict σ' = heap_dict σ
  ∧ _containers σ' = _containers σ ∧ next_id σ ≤ next_id σ'.
Proof.
  unfold _resolve, bind at 1.
  destruct (resolve_params self (cls_hints cls) [] [] σ)
    as [[args|e] σ1] eqn:Hparams;
    apply resolve_params_store in Hparams as (Hr & Hd & Hc & Hn);
    [|by intros [= _ <-]].
  unfold bind.
  destruct (instantiate cls args.1 σ1) as [[inst|e] σ2] eqn:Hinst.
  - apply instantiate_Ok in Hinst as (_ & _ & _ & _ & ->).
    unfold ret. intros [= _ <-]. simpl. split_and!; done || lia.
  - apply instantiate_Raise in Hinst as ->. by intros [= _ <-].
Qed.

(** ** The provider lookup of the cache *)

Lemma get_provider_in_Some tok σ values l :
  _Cache.get_provider_in tok σ values = Some l →
  ∃ c, c ∈ values
       ∧ is_Some (dict_get tok (providers c σ))
       ∧ dict_get tok (resolutions c σ) = Some l.
Proof.
  induction values as [|c values IH]; simpl; [done|].
  destruct (dict_get tok (providers c σ)) eqn:Hview.
  - intros Hl. exists c. split_and!; [left | by rewrite Hview | done].
  - intros (c' & ? & ? & ?)%IH. exists c'. split_and!; [by right|done..].
Qed.

Lemma get_provider_in_ext tok σ σ' values :
  (∀ c, c ∈ values →
        dict_at σ' (_resolutions c) = dict_at σ (_resolutions c)) →
  (∀ c l, c ∈ values → (tok, l) ∈ dict_at σ (_resolutions c) →
          type (res_at σ' l) = type (res_at σ l)) →
  _Cache.get_provider_in tok σ' values = _Cache.get_provider_in tok σ values.
Proof.
  induction values as [|c values IH]; intros Hdict Hrole; simpl; [done|].
  assert (resolutions c σ' = resolutions c σ) as Hres
    by (apply Hdict; left).
  assert (dict_get tok (providers c σ') = dict_get tok (providers c σ)) as ->.
  { unfold providers. rewrite Hres. apply dict_get_filter_ext.
    intros l Hin. unfold has_role; simpl.
    by rewrite (Hrole c l (list_elem_of_here _ _) Hin). }
  rewrite Hres, IH; [done| |].
  - intros c' Hc'. apply Hdict. by right.
  - intros c' l Hc'. apply Hrole. by right.
Qed.

Lemma get_provider_in_app_Some tok σ values more l :
  _Cache.get_provider_in tok σ values = Some l →
  _Cache.get_provider_in tok σ (values ++ more) = Some l.
Proof.
  induction values as [|c values IH]; simpl; [done|].
  by destruct (dict_get tok (providers c σ)).
Qed.

Lemma get_provider_in_None tok σ values :
  _Cache.get_provider_in tok σ values = None →
  ∀ c, c ∈ values → dict_get tok (providers c σ) = None.
Proof.
  induction values as [|c values IH]; simpl.
  - by intros _ c ?%elem_of_nil.
  - destruct (dict_get tok (providers c σ)) as [l|] eqn:Hview.
    + intros Hnone. apply dict_get_filter_Some in Hview as [Hin _].
      apply dict_get_None in Hnone. destruct Hnone.
      unfold dict_keys. by apply (list_elem_of_fmap_2' fst _ (tok, l)).
    + intros Hrest c' [->|Hc']%elem_of_cons; [done | by apply IH].
Qed.

Lemma get_provider_in_app_None tok σ values more :
  _Cache.get_provider_in tok σ values = None →
  _Cache.get_provider_in tok σ (values ++ more)
  = _Cache.get_provider_in tok σ more.
Proof.
  intros Hnone. pose proof (get_provider_in_None _ _ _ Hnone) as Hall.
  clear Hnone. induction values as [|c values IH]; simpl; [done|].
  rewrite (Hall c) by left. apply IH. intros c' Hc'. apply Hall. by right.
Qed.

Lemma get_provider_Some cls σ l :
  wf σ → _Cache.get_provider cls σ = Some l →
  l < next_id σ ∧ token (res_at σ l) = __token__ cls
  ∧ type (res_at σ l) = provider.
Proof.
  intros [He Hk _] (c & _ & [l' Hview] & Hl)%get_provider_in_Some.
  pose proof (dict_get_Some_elem _ _ _ Hl) as Hin.
  destruct (He _ _ _ Hin) as [? ?]. split_and!; [done..|].
  pose proof Hview as Hview'.
  apply dict_get_filter_NoDup in Hview'; [|apply Hk].
  unfold resolutions in Hl. unfold resolutions in Hview'.
  rewrite Hl in Hview'. injection Hview' as <-.
  by apply dict_get_filter_Some in Hview as [_ Hrole].
Qed.

(** ** One step of the resolution loop *)

Lemma wf_alloc_res r σ :
  wf σ → wf (with_res (λ h, <[next_id σ := r]> h) (bump σ)).
Proof.
  intros Hwf. pose proof Hwf as [He _ _].
  apply wf_bump in Hwf as [He' Hk' Hc']. split; [|done..].
  intros d k l Hin. destruct (He d k l Hin) as [Hl Htok].
  split; [simpl; lia|].
  unfold res_at; simpl. rewrite lookup_total_insert_ne by lia. done.
Qed.

Lemma resolve_provider_Ok self cls σ σ' :
  resolve_provider self cls σ = (Ok tt, σ') →
  ∃ l,
    dict_at σ' (_resolutions self)
    = dict_set (__token__ cls) l (dict_at σ (_resolutions self))
    ∧ (∀ d, d ≠ _resolutions self → dict_at σ' d = dict_at σ d)
    ∧ _containers σ' = _containers σ
    ∧ next_id σ ≤ next_id σ'
    ∧ (∀ l', l' ≠ l → res_at σ' l' = res_at σ l')
    ∧ ((_Cache.get_provider cls σ = Some l
        ∧ res_at σ' l
          = set_type (cached_role self cls)
              (set_from_cache true (res_at σ l)))
       ∨ (_Cache.get_provider cls σ = None
          ∧ next_id σ ≤ l < next_id σ'
          ∧ token (res_at σ' l) = __token__ cls
          ∧ type (res_at σ' l) = built_role self cls)).
Proof.
  unfold resolve_provider.
  destruct (_Cache.get_provider cls σ) as [l|] eqn:Hhit.
  - intros [= <-]. exists l. split_and!.
    + apply dict_at_store_eq.
    + intros d Hd. unfold dict_at; simpl. by rewrite lookup_total_insert_ne.
    + done.
    + done.
    + intros l' Hl'. by rewrite !res_at_update_ne.
    + left. split; [done|]. by rewrite !res_at_update_eq.
  - destruct (_resolve self cls σ) as [[[inst descr]|e] σ1] eqn:Hres; [|done].
    apply resolve_store in Hres as (Hr & Hd & Hc & Hn).
    intros [= <-]. exists (next_id σ1). split_and!.
    + rewrite dict_at_store_eq. unfold dict_at; simpl. by rewrite Hd.
    + intros d Hne. rewrite dict_at_store_ne by done.
      unfold dict_at; simpl. by rewrite Hd.
    + done.
    + simpl. lia.
    + intros l' Hl'. unfold res_at; simpl.
      rewrite lookup_total_insert_ne by done. by rewrite Hr.
    + right. unfold res_at; simpl. rewrite lookup_total_insert_eq.
      split_and!; done || lia.
Qed.

Lemma resolve_provider_Raise self cls σ e σ' :
  resolve_provider self cls σ = (Raise e, σ') →
  heap_res σ' = heap_res σ ∧ heap_dict σ' = heap_dict σ
  ∧ _containers σ' = _containers σ ∧ next_id σ ≤ next_id σ'.
Proof.
  unfold resolve_provider.
  destruct (_Cache.get_provider cls σ) as [l|]; [done|].
  destruct (_resolve self cls σ) as [[[inst descr]|e'] σ1] eqn:Hres; [done|].
  intros [= _ <-]. by apply resolve_store in Hres.
Qed.

Lemma resolve_provider_wf self cls σ r σ' :
  wf σ → resolve_provider self cls σ = (r, σ') → wf σ'.
Proof.
  intros Hwf. unfold resolve_provider.
  destruct (_Cache.get_provider cls σ) as [l|] eqn:Hhit.
  - intros [= _ <-].
    apply get_provider_Some in Hhit as (Hl & Htok & _); [|done].
    by apply wf_update_res, wf_update_res, wf_dict_store.
  - destruct (_resolve self cls σ) as [[[inst descr]|e] σ1] eqn:Hres;
      apply resolve_store in Hres as (Hr & Hd & Hc & Hn);
      pose proof (wf_next _ _ Hr Hd Hc Hn Hwf) as Hwf1;
      intros [= _ <-]; [|done].
    apply wf_dict_store; [simpl; lia| |by apply wf_alloc_res].
    unfold res_at; simpl. by rewrite lookup_total_insert_eq.
Qed.

(** What one step leaves alone: the cache, every other dictionary, the
    other keys of [self]'s dictionary, and the records of other tokens. *)
Lemma resolve_provider_frame self cls σ r σ' :
  wf σ → resolve_provider self cls σ = (r, σ') →
  _containers σ' = _containers σ
  ∧ next_id σ ≤ next_id σ'
  ∧ (∀ d, d ≠ _resolutions self → dict_at σ' d = dict_at σ d)
  ∧ (∀ k, k ≠ __token__ cls →
          dict_get k (dict_at σ' (_resolutions self))
          = dict_get k (dict_at σ (_resolutions self)))
  ∧ (∀ l, l < next_id σ → token (res_at σ l) ≠ __token__ cls →
          res_at σ' l = res_at σ l)
  ∧ (∀ l, l < next_id σ →
          token (res_at σ' l) = token (res_at σ l)
          ∧ instance (res_at σ' l) = instance (res_at σ l)).
Proof.
  intros Hwf Hstep. destruct r as [[]|e].
  - apply resolve_provider_Ok in Hstep
      as (l & HD & Hd & Hc & Hn & Hother & Hcase).
    split_and!; [done..| | |].
    + intros k Hk. rewrite HD. by apply dict_get_set_ne.
    + intros l' Hl' Htok. apply Hother. intros ->.
      destruct Hcase as [[Hhit _]|(_ & ? & _)]; [|lia].
      apply get_provider_Some in Hhit as (_ & ? & _); done.
    + intros l' Hl'. destruct (decide (l' = l)) as [->|Hne];
        [|by rewrite Hother].
      destruct Hcase as [[_ ->]|(_ & ? & _)]; [done|lia].
  - apply resolve_provider_Raise in Hstep as (Hr & Hd & Hc & Hn).
    unfold dict_at, res_at. rewrite Hr, Hd. by split_and!.
Qed.

Lemma resolve_provider_lookup_frame self cls σ r σ' (other : Class) :
  wf σ → unpublished (_resolutions self) σ →
  resolve_provider self cls σ = (r, σ') →
  __token__ other ≠ __token__ cls →
  _Cache.get_provider other σ' = _Cache.get_provider other σ.
Proof.
  intros Hwf Hun Hstep Hne.
  pose proof (resolve_provider_frame _ _ _ _ _ Hwf Hstep)
    as (Hc & _ & Hd & _ & Hres & _).
  unfold _Cache.get_provider. rewrite Hc.
  apply get_provider_in_ext.
  - intros c [[t c'] [-> Hin]]%list_elem_of_fmap. apply Hd. by eapply Hun.
  - intros c l [[t c'] [-> Hin]]%list_elem_of_fmap Hl.
    destruct (wf_entry _ Hwf _ _ _ Hl) as [? Htok].
    rewrite Hres; [done..|]. by rewrite Htok.
Qed.

(** ** The resolution loop *)

Lemma resolve_providers_cons self cls rest σ :
  resolve_providers self (cls :: rest) σ
  = match resolve_provider self cls σ with
    | (Ok _, σ1) => resolve_providers self rest σ1
    | (Raise e, σ1) => (Raise e, σ1)
    end.
Proof. reflexivity. Qed.

(** The loop never touches the cache, whether it completes or raises. *)
Lemma resolve_providers_cache self classes σ r σ' :
  resolve_providers self classes σ = (r, σ') →
  _containers σ' = _containers σ.
Proof.
  revert σ. induction classes as [|cls rest IH]; intros σ.
  - by intros [= _ <-].
  - rewrite resolve_providers_cons.
    destruct (resolve_provider self cls σ) as [[[]|e] σ1] eqn:Hstep.
    + apply resolve_provider_Ok in Hstep as (_ & _ & _ & Hc & _).
      intros ->%IH. done.
    + apply resolve_provider_Raise in Hstep as (_ & _ & Hc & _).
      by intros [= _ <-].
Qed.

Lemma resolve_providers_frame self classes σ r σ' :
  wf σ → resolve_providers self classes σ = (r, σ') →
  wf σ'
  ∧ next_id σ ≤ next_id σ'
  ∧ (∀ d, d ≠ _resolutions self → dict_at σ' d = dict_at σ d)
  ∧ (∀ k, k ∉ tokens classes →
          dict_get k (dict_at σ' (_resolutions self))
          = dict_get k (dict_at σ (_resolutions self)))
  ∧ (∀ l, l < next_id σ → token (res_at σ l) ∉ tokens classes →
          res_at σ' l = res_at σ l)
  ∧ (∀ l, l < next_id σ →
          token (res_at σ' l) = token (res_at σ l)
          ∧ instance (res_at σ' l) = instance (res_at σ l)).
Proof.
  revert σ. induction classes as [|cls rest IH]; intros σ Hwf.
  - intros [= _ <-]. by split_and!.
  - rewrite resolve_providers_cons.
    destruct (resolve_provider self cls σ) as [[[]|e] σ1] eqn:Hstep;
      pose proof (resolve_provider_wf _ _ _ _ _ Hwf Hstep) as Hwf1;
      pose proof (resolve_provider_frame _ _ _ _ _ Hwf Hstep)
        as (_ & Hn & Hd & Hk & Hres & Hstatic).
    + intros (Hwf' & Hn' & Hd' & Hk' & Hres' & Hstatic')%IH; [|done].
      split_and!; [done|lia|..].
      * intros d Hne. by rewrite Hd', Hd.
      * intros k [Hk1 Hk2]%not_elem_of_cons. by rewrite Hk', Hk.
      * intros l Hl [Ht1 Ht2]%not_elem_of_cons.
        rewrite Hres'; [by apply Hres|lia|]. by rewrite Hres.
      * intros l Hl. destruct (Hstatic l Hl) as [<- <-]. apply Hstatic'. lia.
    + intros [= _ <-]. split_and!; [done..| | |done].
      * intros k [Hk1 _]%not_elem_of_cons. by apply Hk.
      * intros l Hl [Ht1 _]%not_elem_of_cons. by apply Hres.
Qed.

Lemma unpublished_same_cache d σ σ' :
  _containers σ' = _containers σ → unpublished d σ → unpublished d σ'.
Proof. unfold unpublished. by intros ->. Qed.

Lemma resolve_providers_lookup_frame self classes σ r σ' (other : Class) :
  wf σ → unpublished (_resolutions self) σ →
  resolve_providers self classes σ = (r, σ') →
  __token__ other ∉ tokens classes →
  _Cache.get_provider other σ' = _Cache.get_provider other σ.
Proof.
  revert σ. induction classes as [|cls rest IH]; intros σ Hwf Hun.
  - by intros [= _ <-].
  - rewrite resolve_providers_cons. intros Hloop [Hne Hnin]%not_elem_of_cons.
    destruct (resolve_provider self cls σ) as [[[]|e] σ1] eqn:Hstep;
      pose proof (resolve_provider_wf _ _ _ _ _ Hwf Hstep) as Hwf1;
      pose proof (resolve_provider_lookup_frame _ _ _ _ _ other Hwf Hun Hstep Hne)
        as Hlookup;
      pose proof (resolve_provider_frame _ _ _ _ _ Hwf Hstep) as (Hc & _).
    + rewrite <-Hlookup. apply IH; [done| |done..].
      by apply (unpublished_same_cache _ σ).
    + by injection Hloop as _ <-.
Qed.

(** After a loop that completes, the dictionary of [self] has gained one
    entry per class, in order, each with the role the class is built with,
    provided a class found in the cache is given that same role. *)
Lemma resolve_providers_entries self classes σ σ' :
  wf σ → unpublished (_resolutions self) σ →
  resolve_providers self classes σ = (Ok tt, σ') →
  NoDup (dict_keys (dict_at σ (_resolutions self)) ++ tokens classes) →
  (∀ cls, cls ∈ classes → is_Some (_Cache.get_provider cls σ) →
          cached_role self cls = built_role self cls) →
  ∃ new,
    dict_at σ' (_resolutions self) = dict_at σ (_resolutions self) ++ new
    ∧ Forall2 (λ (cls : Class) (entry : string * nat),
                 entry.1 = __token__ cls
                 ∧ type (res_at σ' entry.2) = built_role self cls)
        classes new.
Proof.
  revert σ. induction classes as [|cls rest IH]; intros σ Hwf Hun.
  - intros [= <-] _ _. exists []. by rewrite app_nil_r.
  - rewrite resolve_providers_cons. intros Hloop Hnd Hrole.
    destruct (resolve_provider self cls σ) as [[[]|e] σ1] eqn:Hstep; [|done].
    pose proof (resolve_provider_wf _ _ _ _ _ Hwf Hstep) as Hwf1.
    pose proof (resolve_provider_frame _ _ _ _ _ Hwf Hstep) as (Hc & _).
    pose proof (unpublished_same_cache _ _ _ Hc Hun) as Hun1.
    pose proof (resolve_providers_frame _ _ _ _ _ Hwf1 Hloop)
      as (_ & _ & _ & _ & Hres & _).
    simpl in Hnd. apply NoDup_app in Hnd as (Hnd1 & Hdisj & Hnd2).
    apply NoDup_cons in Hnd2 as [Hfresh Hnd2].
    assert (__token__ cls ∉ dict_keys (dict_at σ (_resolutions self))) as Hnew.
    { intros Hin. apply (Hdisj _ Hin). left. }
    pose proof Hstep as Hstep'.
    apply resolve_provider_Ok in Hstep'
      as (l & HD & _ & _ & Hn & _ & Hcase).
    rewrite dict_set_new in HD by done.
    destruct (IH σ1 Hwf1 Hun1 Hloop) as (new & HD' & Hall).
    { rewrite HD. unfold dict_keys. rewrite fmap_app. simpl.
      rewrite <-app_assoc. simpl. apply NoDup_app. split_and!; [done| |].
      - intros k Hk [->|Hk']%elem_of_cons; [done|].
        apply (Hdisj k Hk). by right.
      - by apply NoDup_cons. }
    { intros cls' Hcls'. 
      rewrite (resolve_provider_lookup_frame _ _ _ _ _ cls' Hwf Hun Hstep).
      - apply Hrole. by right.
      - intros Heq. apply Hfresh. rewrite <-Heq.
        by apply (list_elem_of_fmap_2 (λ c : Class, __token__ c)). }
    exists ((__token__ cls, l) :: new). split.
    { rewrite HD', HD. by rewrite <-app_assoc. }
    apply Forall2_cons. split; [|done]. split; [done|]. simpl.
    assert (l < next_id σ1 ∧ token (res_at σ1 l) = __token__ cls
            ∧ type (res_at σ1 l) = built_role self cls) as (Hl & Htok & Hty).
    { destruct Hcase as [[Hhit Hr]|(_ & ? & ? & ?)]; [|split_and!; done || lia].
      rewrite Hr. simpl.
      pose proof (get_provider_Some _ _ _ Hwf Hhit) as (? & ? & _).
      split_and!; [lia|done|]. apply Hrole; [left|by rewrite Hhit]. }
    rewrite Hres; [done..|]. by rewrite Htok.
Qed.

(** ** [_make_resolution] *)

Lemma make_resolution_cached self container σ :
  _Cache.get_by_token (c_token self) σ = Some container →
  _make_resolution self σ = (Ok (adopt self container), σ).
Proof. intros H. unfold _make_resolution. by rewrite H. Qed.

Lemma make_resolution_fresh self σ :
  _Cache.get_by_token (c_token self) σ = None →
  _make_resolution self σ
  = match resolve_providers self (declared self) σ with
    | (Ok _, σ') => (Ok self, _Cache.add self σ')
    | (Raise e, σ') => (Raise e, σ')
    end.
Proof. intros H. unfold _make_resolution. by rewrite H. Qed.

Lemma make_resolution_Raise self σ e σ' :
  _make_resolution self σ = (Raise e, σ') →
  _Cache.get_by_token (c_token self) σ = None
  ∧ resolve_providers self (declared self) σ = (Raise e, σ').
Proof.
  unfold _make_resolution.
  destruct (_Cache.get_by_token (c_token self) σ); [done|].
  fold (declared self).
  destruct (resolve_providers self (declared self) σ) as [[[]|e'] σ1]; [done|].
  by intros [= <- <-].
Qed.

Lemma init_unfold K σ :
  __init__ K σ
  = match k_config K, k_meta K with
    | None, _ =>
        (Raise (AttributeError
                  "The container must have a '__config__' property."), σ)
    | Some _, None =>
        (Raise (AttributeError
                  "The container must have a '__meta__' property."), σ)
    | Some cfg, Some _ =>
        let self := new_self K cfg σ in
        match _resolve_imports __init__ self (cfg_imports cfg)
                (init_state σ) with
        | (Ok _, σ') => _make_resolution self σ'
        | (Raise e, σ') => (Raise e, σ')
        end
    end.
Proof. by destruct K. Qed.

(** ** Merging the exports of an imported container *)

Lemma merge_export_store self container item σ :
  let σ' := merge_export self container item σ in
  _containers σ' = _containers σ
  ∧ next_id σ' = next_id σ
  ∧ dict_at σ' (_resolutions self)
    = dict_set item.1 item.2 (dict_at σ (_resolutions self))
  ∧ (∀ d, d ≠ _resolutions self → dict_at σ' d = dict_at σ d)
  ∧ (∀ l, l ≠ item.2 → res_at σ' l = res_at σ l)
  ∧ res_at σ' item.2
    = set_type provider
        (set_from_cache true
           (set_origin (Some (c_name container)) (res_at σ item.2))).
Proof.
  destruct item as [symbol l]. simpl. split_and!; [done..| | | |].
  - unfold dict_at; simpl. by rewrite lookup_total_insert_eq.
  - intros d Hd. unfold dict_at; simpl. by rewrite lookup_total_insert_ne.
  - intros l' Hl'. rewrite !res_at_update_ne by done. unfold res_at; simpl.
    by rewrite lookup_total_insert_ne.
  - rewrite !res_at_update_eq. unfold res_at; simpl.
    by rewrite lookup_total_insert_eq.
Qed.

Lemma merge_export_static self container item σ l :
  token (res_at (merge_export self container item σ) l) = token (res_at σ l)
  ∧ instance (res_at (merge_export self container item σ) l)
    = instance (res_at σ l).
Proof.
  pose proof (merge_export_store self container item σ)
    as (_ & _ & _ & _ & Hother & Hitem).
  destruct (decide (l = item.2)) as [->|Hne]; [by rewrite Hitem|].
  by rewrite Hother.
Qed.

Lemma merge_export_wf self container item σ :
  wf σ → item.2 < next_id σ → token (res_at σ item.2) = item.1 →
  wf (merge_export self container item σ).
Proof.
  destruct item as [symbol l]. simpl. intros Hwf Hl Htok.
  unfold merge_export.
  apply wf_update_res, wf_update_res; [done..|].
  apply wf_dict_store; [done| |by apply wf_update_res].
  by rewrite token_update.
Qed.

Lemma merge_items_store self container items σ :
  let σ' := merge_items self container items σ in
  _containers σ' = _containers σ
  ∧ next_id σ' = next_id σ
  ∧ (∀ d, d ≠ _resolutions self → dict_at σ' d = dict_at σ d)
  ∧ (∀ l, l ∉ items.*2 → res_at σ' l = res_at σ l)
  ∧ (∀ l, token (res_at σ' l) = token (res_at σ l)
          ∧ instance (res_at σ' l) = instance (res_at σ l))
  ∧ (∀ k, k ∉ items.*1 →
          dict_get k (dict_at σ' (_resolutions self))
          = dict_get k (dict_at σ (_resolutions self))).
Proof.
  revert σ. induction items as [|item items IH]; intros σ; simpl.
  - by split_and!.
  - pose proof (merge_export_store self container item σ)
      as (Hc & Hn & HD & Hd & Hother & _).
    destruct (IH (merge_export self container item σ))
      as (Hc' & Hn' & Hd' & Hother' & Hstatic' & Hk').
    fold (merge_items self container items
            (merge_export self container item σ)) in *.
    split_and!.
    + by rewrite Hc'.
    + by rewrite Hn'.
    + intros d Hne. by rewrite Hd', Hd.
    + intros l [Hl1 Hl2]%not_elem_of_cons. by rewrite Hother', Hother.
    + intros l. destruct (Hstatic' l) as [-> ->]. apply merge_export_static.
    + intros k [Hk1 Hk2]%not_elem_of_cons. rewrite Hk', HD by done.
      by apply dict_get_set_ne.
Qed.

Lemma merge_items_wf self container items σ :
  wf σ →
  Forall (λ item, item.2 < next_id σ ∧ token (res_at σ item.2) = item.1) items →
  wf (merge_items self container items σ).
Proof.
  revert σ. induction items as [|item items IH]; intros σ Hwf Hall; [done|].
  apply Forall_cons in Hall as [[Hl Htok] Hall]. simpl. apply IH.
  - by apply merge_export_wf.
  - pose proof (merge_export_store self container item σ)
      as (_ & Hn & _).
    eapply Forall_impl; [done|]. intros it [? ?]. split; [lia|].
    by destruct (merge_export_static self container item σ it.2) as [-> _].
Qed.

Lemma exports_entries container σ :
  wf σ →
  Forall (λ item, item.2 < next_id σ ∧ token (res_at σ item.2) = item.1)
    (exports container σ).
Proof.
  intros Hwf. apply Forall_forall. intros [k l] [_ Hin]%list_elem_of_filter.
  by apply (wf_entry _ Hwf (_resolutions container)).
Qed.

Lemma merge_exports_items self container σ :
  merge_exports self container σ
  = merge_items self container (exports container σ) σ.
Proof. reflexivity. Qed.

Lemma merge_exports_wf self container σ :
  wf σ → wf (merge_exports self container σ).
Proof.
  intros Hwf. rewrite merge_exports_items.
  apply merge_items_wf; [done|]. by apply exports_entries.
Qed.

(** Every merged record ends as a provider that came from the cache of
    the imported container, and [self] holds it under its key. *)
Lemma merge_items_result self container items σ k l :
  (k, l) ∈ items →
  let σ' := merge_items self container items σ in
  type (res_at σ' l) = provider
  ∧ origin (res_at σ' l) = Some (c_name container)
  ∧ from_cache (res_at σ' l) = true
  ∧ ∃ l', (k, l') ∈ items
          ∧ dict_get k (dict_at σ' (_resolutions self)) = Some l'.
Proof.
  revert σ. induction items as [|item items IH] using rev_ind; intros σ.
  - by intros ?%elem_of_nil.
  - intros Hin. unfold merge_items. rewrite foldl_app. simpl.
    fold (merge_items self container items σ).
    pose proof (merge_export_store self container item
                  (merge_items self container items σ))
      as (_ & _ & HD & _ & Hother & Hitem).
    assert (type (res_at (merge_export self container item
                            (merge_items self container items σ)) l) = provider
            ∧ origin (res_at (merge_export self container item
                            (merge_items self container items σ)) l)
              = Some (c_name container)
            ∧ from_cache (res_at (merge_export self container item
                            (merge_items self container items σ)) l) = true)
      as (? & ? & ?).
    { destruct (decide (l = item.2)) as [->|Hne]; [by rewrite Hitem|].
      rewrite Hother by done.
      apply elem_of_app in Hin as [Hin|Hin%list_elem_of_singleton].
      - by destruct (IH σ Hin) as (? & ? & ? & _).
      - by subst item. }
    split_and!; [done..|]. rewrite HD.
    destruct (decide (k = item.1)) as [->|Hne].
    + exists item.2. rewrite dict_get_set_eq. split; [|done].
      apply elem_of_app. right. apply list_elem_of_singleton. by destruct item.
    + rewrite dict_get_set_ne by done.
      apply elem_of_app in Hin as [Hin|Hin%list_elem_of_singleton].
      * destruct (IH σ Hin) as (_ & _ & _ & l' & Hl' & Hget).
        exists l'. split; [|done]. apply elem_of_app. by left.
      * by subst item.
Qed.

(** ** Induction over the import tree *)

Lemma ContainerClass_tree_ind (P : ContainerClass → Prop) :
  (∀ K, (∀ cfg, k_config K = Some cfg → Forall P (cfg_imports cfg)) → P K) →
  ∀ K, P K.
Proof.
  intros Hstep. fix IH 1. intros K. apply Hstep.
  destruct K as [name tok meta [[ps es imports re]|]]; simpl; [|done].
  intros cfg [= <-]. simpl. clear -IH. revert imports.
  fix IHl 1. intros [|B imports]; constructor; [apply IH | apply IHl].
Qed.

Lemma resolve_imports_cons (construct : ContainerClass → M ContainerObj)
    self B rest σ :
  _resolve_imports construct self (B :: rest) σ
  = match import_container construct B σ with
    | (Ok container, σ1) =>
        _resolve_imports construct self rest (merge_exports self container σ1)
    | (Raise e, σ1) => (Raise e, σ1)
    end.
Proof.
  simpl. unfold bind at 1.
  by destruct (import_container construct B σ) as [[container|e] σ1].
Qed.

(** ** The cache across a construction *)

Lemma cache_stable_refl σ : cache_stable σ σ.
Proof. intros t c Hc. by exists c. Qed.

Lemma cache_stable_trans σ1 σ2 σ3 :
  cache_stable σ1 σ2 → cache_stable σ2 σ3 → cache_stable σ1 σ3.
Proof.
  intros H12 H23 t c Hc. destruct (H12 t c Hc) as (c2 & Hc2 & <-).
  by apply H23.
Qed.

Lemma cache_stable_same σ σ' :
  _containers σ' = _containers σ → cache_stable σ σ'.
Proof. intros Heq t c Hc. exists c. unfold _Cache.get_by_token in *. by rewrite Heq. Qed.

Lemma cache_stable_add c σ :
  (∀ c0, _Cache.get_by_token (c_token c) σ = Some c0 →
         _resolutions c0 = _resolutions c) →
  cache_stable σ (_Cache.add c σ).
Proof.
  intros Hsame t c0 Hc0. unfold _Cache.get_by_token, _Cache.add; simpl.
  destruct (decide (c_token c = t)) as [<-|Hne].
  - exists c. rewrite dict_get_set_eq. split; [done|]. symmetry. by apply Hsame.
  - exists c0. by rewrite dict_get_set_ne.
Qed.

Lemma get_by_token_add c σ :
  _Cache.get_by_token (c_token c) (_Cache.add c σ) = Some c.
Proof. unfold _Cache.get_by_token, _Cache.add; simpl. apply dict_get_set_eq. Qed.

(** The cache answers [get] for a container class by its token. *)
Lemma import_container_unfold (construct : ContainerClass → M ContainerObj)
    B σ :
  import_container construct B σ
  = match _Cache.get_by_token (k_token B) σ with
    | Some container => (Ok container, σ)
    | None =>
        match construct B σ with
        | (Ok container, σ') => (Ok container, _Cache.add container σ')
        | (Raise e, σ') => (Raise e, σ')
        end
    end.
Proof. reflexivity. Qed.

Lemma import_container_cache B σ :
  (∀ σ, cache_post B σ (__init__ B σ)) →
  cache_stable σ (import_container __init__ B σ).2.
Proof.
  intros HB. rewrite import_container_unfold.
  destruct (_Cache.get_by_token (k_token B) σ) as [container|] eqn:Hget.
  - apply cache_stable_refl.
  - destruct (HB σ) as [Hstable Hok].
    destruct (__init__ B σ) as [[container|e] σ1]; simpl in *; [|done].
    destruct (Hok container eq_refl) as (Htok & _ & c' & Hc' & Hdict).
    eapply cache_stable_trans; [done|]. apply cache_stable_add.
    rewrite Htok, Hc'. by intros c0 [= <-].
Qed.

Lemma merge_exports_store self container σ :
  let σ' := merge_exports self container σ in
  _containers σ' = _containers σ ∧ next_id σ' = next_id σ.
Proof.
  pose proof (merge_items_store self container (exports container σ) σ)
    as (? & ? & _). done.
Qed.

Lemma resolve_imports_cache self imports σ :
  Forall (λ B, ∀ σ, cache_post B σ (__init__ B σ)) imports →
  cache_stable σ (_resolve_imports __init__ self imports σ).2.
Proof.
  intros Hall. revert σ.
  induction Hall as [|B rest HB _ IH]; intros σ; [apply cache_stable_refl|].
  rewrite resolve_imports_cons.
  pose proof (import_container_cache B σ HB) as Hstable.
  destruct (import_container __init__ B σ) as [[container|e] σ1];
    simpl in *; [|done].
  eapply cache_stable_trans; [done|].
  eapply cache_stable_trans; [|apply IH].
  apply cache_stable_same, merge_exports_store.
Qed.

Lemma make_resolution_cache self σ :
  let out := _make_resolution self σ in
  cache_stable σ out.2
  ∧ ∀ c, out.1 = Ok c →
         c_token c = c_token self ∧ c_name c = c_name self
         ∧ ∃ c', _Cache.get_by_token (c_token self) out.2 = Some c'
                 ∧ _resolutions c' = _resolutions c.
Proof.
  simpl. unfold _make_resolution.
  destruct (_Cache.get_by_token (c_token self) σ) as [container|] eqn:Hget.
  - simpl. split; [apply cache_stable_refl|].
    intros c [= <-]. split_and!; [done..|]. by exists container.
  - destruct (resolve_providers self (_providers self ++ _exports self) σ)
      as [[[]|e] σ1] eqn:Hloop;
      pose proof (resolve_providers_cache _ _ _ _ _ Hloop) as Hc; simpl.
    + split.
      * eapply cache_stable_trans; [by apply cache_stable_same|].
        apply cache_stable_add. unfold _Cache.get_by_token in *.
        rewrite Hc, Hget. done.
      * intros c [= <-]. split_and!; [done..|]. exists self.
        by rewrite get_by_token_add.
    + split; [by apply cache_stable_same | done].
Qed.

Lemma init_cache K σ : cache_post K σ (__init__ K σ).
Proof.
  revert σ. induction K as [K IH] using ContainerClass_tree_ind. intros σ.
  rewrite init_unfold.
  destruct (k_config K) as [cfg|] eqn:Hcfg;
    [|split; [apply cache_stable_refl | done]].
  destruct (k_meta K) as [m|]; [|split; [apply cache_stable_refl | done]].
  simpl.
  pose proof (resolve_imports_cache (new_self K cfg σ) (cfg_imports cfg)
                (init_state σ) (IH cfg eq_refl)) as Himports.
  destruct (_resolve_imports __init__ (new_self K cfg σ) (cfg_imports cfg)
              (init_state σ)) as [[[]|e] σ1]; simpl in Himports.
  - destruct (make_resolution_cache (new_self K cfg σ) σ1) as [Hstable Hok].
    split.
    + eapply cache_stable_trans; [|done].
      eapply cache_stable_trans; [|done]. by apply cache_stable_same.
    + done.
  - split; [|done]. simpl.
    eapply cache_stable_trans; [|done]. by apply cache_stable_same.
Qed.

(** ** Well-formedness across a construction *)

Lemma get_by_token_elem t c σ :
  _Cache.get_by_token t σ = Some c → (t, c) ∈ _containers σ.
Proof. apply dict_get_Some_elem. Qed.

Lemma import_container_store B σ :
  (∀ σ, wf σ → store_post σ (__init__ B σ)) →
  wf σ →
  let out := import_container __init__ B σ in
  wf out.2
  ∧ next_id σ ≤ next_id out.2
  ∧ (∀ d, d < next_id σ → dict_at out.2 d = dict_at σ d)
  ∧ (∀ l, l < next_id σ →
          token (res_at out.2 l) = token (res_at σ l)
          ∧ instance (res_at out.2 l) = instance (res_at σ l)).
Proof.
  intros HB Hwf. cbv zeta. rewrite import_container_unfold.
  destruct (_Cache.get_by_token (k_token B) σ) as [container|] eqn:Hget.
  - simpl. by split_and!.
  - destruct (HB σ Hwf) as (Hwf1 & Hn & Hc & Hd & Hstatic).
    destruct (__init__ B σ) as [[container|e] σ1]; simpl in *; [|done].
    split_and!; [|done..]. apply wf_add; [by apply Hc | done].
Qed.

Lemma resolve_imports_store self imports σ :
  Forall (λ B, ∀ σ, wf σ → store_post σ (__init__ B σ)) imports →
  wf σ →
  let out := _resolve_imports __init__ self imports σ in
  wf out.2
  ∧ next_id σ ≤ next_id out.2
  ∧ (∀ d, d ≠ _resolutions self → d < next_id σ →
          dict_at out.2 d = dict_at σ d)
  ∧ (∀ l, l < next_id σ →
          token (res_at out.2 l) = token (res_at σ l)
          ∧ instance (res_at out.2 l) = instance (res_at σ l)).
Proof.
  intros Hall. revert σ.
  induction Hall as [|B rest HB _ IH]; intros σ Hwf; cbv zeta.
  - simpl. by split_and!.
  - rewrite resolve_imports_cons.
    pose proof (import_container_store B σ HB Hwf)
      as (Hwf1 & Hn1 & Hd1 & Hs1).
    destruct (import_container __init__ B σ) as [[container|e] σ1];
      simpl in *; [|by split_and!; [..|intros; apply Hd1|]].
    pose proof (merge_exports_wf self container σ1 Hwf1) as Hwf2.
    pose proof (merge_items_store self container (exports container σ1) σ1)
      as (_ & Hn2 & Hd2 & _ & Hs2 & _).
    rewrite <-merge_exports_items in Hn2, Hd2, Hs2.
    destruct (IH (merge_exports self container σ1) Hwf2)
      as (Hwf3 & Hn3 & Hd3 & Hs3).
    split_and!; [done|lia|..].
    + intros d Hne Hd. rewrite Hd3, Hd2, Hd1; done || lia.
    + intros l Hl. destruct (Hs1 l Hl) as [<- <-].
      destruct (Hs2 l) as [<- <-]. apply Hs3. lia.
Qed.

Lemma make_resolution_store self σ :
  wf σ → _resolutions self < next_id σ →
  let out := _make_resolution self σ in
  wf out.2
  ∧ next_id σ ≤ next_id out.2
  ∧ (∀ c, out.1 = Ok c → _resolutions c < next_id out.2)
  ∧ (∀ d, d ≠ _resolutions self → dict_at out.2 d = dict_at σ d)
  ∧ (∀ l, l < next_id σ →
          token (res_at out.2 l) = token (res_at σ l)
          ∧ instance (res_at out.2 l) = instance (res_at σ l)).
Proof.
  intros Hwf Hself. simpl. unfold _make_resolution.
  destruct (_Cache.get_by_token (c_token self) σ) as [container|] eqn:Hget.
  - simpl. split_and!; [done..| |done|done].
    intros c [= <-]. simpl.
    by destruct (wf_cached _ Hwf _ _ (get_by_token_elem _ _ _ Hget)).
  - destruct (resolve_providers self (_providers self ++ _exports self) σ)
      as [[[]|e] σ1] eqn:Hloop;
      pose proof (resolve_providers_frame _ _ _ _ _ Hwf Hloop)
        as (Hwf1 & Hn & Hd & _ & _ & Hstatic); simpl.
    + split_and!; [|done| |done..].
      * apply wf_add; [lia|done].
      * intros c [= <-]. lia.
    + by split_and!.
Qed.

Lemma init_store K σ : wf σ → store_post σ (__init__ K σ).
Proof.
  revert σ. induction K as [K IH] using ContainerClass_tree_ind.
  intros σ Hwf. rewrite init_unfold.
  destruct (k_config K) as [cfg|] eqn:Hcfg; [|by split_and!].
  destruct (k_meta K) as [m|]; [|by split_and!].
  simpl.
  assert (∀ d, d < next_id σ → dict_at (init_state σ) d = dict_at σ d) as Hd0.
  { intros d Hd. unfold dict_at, init_state; simpl.
    rewrite lookup_total_insert_ne; [done|lia]. }
  pose proof (resolve_imports_store (new_self K cfg σ) (cfg_imports cfg)
                (init_state σ) (IH cfg eq_refl) (wf_init_state _ Hwf))
    as (Hwf1 & Hn1 & Hd1 & Hs1).
  simpl in Hn1.
  destruct (_resolve_imports __init__ (new_self K cfg σ) (cfg_imports cfg)
              (init_state σ)) as [[[]|e] σ1]; simpl in *.
  - pose proof (make_resolution_store (new_self K cfg σ) σ1 Hwf1)
      as (Hwf2 & Hn2 & Hc2 & Hd2 & Hs2); [simpl; lia|].
    split_and!; [done|lia|done|..].
    + intros d Hd. rewrite Hd2, Hd1, Hd0; done || simpl; lia.
    + intros l Hl. destruct (Hs1 l) as [Ht1 Hi1]; [lia|].
      destruct (Hs2 l) as [Ht2 Hi2]; [lia|].
      split; [by rewrite Ht2, Ht1 | by rewrite Hi2, Hi1].
  - unfold store_post. simpl. split_and!; [done|lia|done|..].
    + intros d Hd. rewrite Hd1, Hd0; done || simpl; lia.
    + intros l Hl. apply Hs1. lia.
Qed.

(** Every store reached from the empty one by constructing containers and
    clearing the cache is well formed. *)
Lemma wf_init K σ : wf σ → wf (__init__ K σ).2.
Proof. intros Hwf. by destruct (init_store K σ Hwf). Qed.

Lemma wf_after classes σ : wf σ → wf (Calculator.after classes σ).
Proof.
  revert σ. induction classes as [|K classes IH]; intros σ Hwf; [done|].
  simpl. by apply IH, wf_init.
Qed.

(** C2: constructing a container whose token the cache already holds
    returns, whenever its imports can be merged, a container that holds the
    cached dictionary itself, whatever it declares; nothing is resolved
    after the import step, which leaves the store as the construction
    returns it, and in a well-formed store the dictionary has the entries
    it had before. *)
Theorem second_construction_adopts_cached_map
    (K : ContainerClass) (cfg : _Config) (m : _Meta)
    (first : ContainerObj) (σ σ_imports : State) :
  k_config K = Some cfg → k_meta K = Some m →
  _Cache.get_by_token (k_token K) σ = Some first →
  _resolve_imports __init__ (new_self K cfg σ) (cfg_imports cfg)
    (init_state σ) = (Ok tt, σ_imports) →
  ∃ second,
    __init__ K σ = (Ok second, σ_imports)
    ∧ _resolutions second = _resolutions first
    ∧ (∀ τ, resolutions second τ = resolutions first τ)
    ∧ (wf σ → resolutions second σ_imports = resolutions first σ)
    ∧ _providers second = cfg_providers cfg
    ∧ _exports second = cfg_exports cfg.
Proof.
  intros Hcfg Hmeta Hfirst Himports.
  pose proof (resolve_imports_cache (new_self K cfg σ) (cfg_imports cfg)
                (init_state σ)) as Hstable.
  rewrite Himports in Hstable. simpl in Hstable.
  destruct (Hstable (Forall_true _ _ (λ B τ, init_cache B τ))
              (k_token K) first) as (cached & Hcached & Hdict).
  { unfold _Cache.get_by_token in *. done. }
  assert (__init__ K σ = (Ok (adopt (new_self K cfg σ) cached), σ_imports))
    as Hinit.
  { rewrite init_unfold, Hcfg, Hmeta. simpl. rewrite Himports.
    by apply make_resolution_cached. }
  exists (adopt (new_self K cfg σ) cached). split_and!; [done..| | |done|done].
  - intros τ. unfold resolutions. simpl. by rewrite Hdict.
  - intros Hwf. destruct (init_store K σ Hwf) as (_ & _ & _ & Hold & _).
    rewrite Hinit in Hold. unfold resolutions. simpl in *. rewrite Hdict.
    apply Hold.
    by destruct (wf_cached _ Hwf _ _ (get_by_token_elem _ _ _ Hfirst)).
Qed.

(** ** A container without imports *)

Lemma get_provider_init_state cls σ :
  wf σ → _Cache.get_provider cls (init_state σ) = _Cache.get_provider cls σ.
Proof.
  intros Hwf. unfold _Cache.get_provider.
  change (_containers (init_state σ)) with (_containers σ).
  apply get_provider_in_ext; [|done].
  intros c [[t c'] [-> Hin]]%list_elem_of_fmap. simpl.
  destruct (wf_cached _ Hwf _ _ Hin) as [Hlt _].
  unfold dict_at, init_state; simpl. rewrite lookup_total_insert_ne; [done|lia].
Qed.

Lemma init_no_imports K cfg m σ :
  k_config K = Some cfg → k_meta K = Some m → cfg_imports cfg = [] →
  __init__ K σ = _make_resolution (new_self K cfg σ) (init_state σ).
Proof. intros Hcfg Hmeta Himp. by rewrite init_unfold, Hcfg, Hmeta, Himp. Qed.

Lemma tokens_disjoint (ps es : list Class) cls :
  NoDup (tokens (ps ++ es)) → cls ∈ ps → cls ∉ es.
Proof.
  unfold tokens. rewrite fmap_app. intros (_ & Hdisj & _)%NoDup_app Hp He.
  apply (Hdisj (__token__ cls));
    by apply (list_elem_of_fmap_2 (λ c : Class, __token__ c)).
Qed.

Lemma length_filter_all {A} (P : A → Prop) `{∀ x, Decision (P x)} l :
  Forall P l → length (filter P l) = length l.
Proof.
  induction 1 as [|x l Hx _ IH]; [done|].
  rewrite filter_cons_True by done. simpl. by rewrite IH.
Qed.

Lemma length_filter_none {A} (P : A → Prop) `{∀ x, Decision (P x)} l :
  Forall (λ x, ¬ P x) l → length (filter P l) = 0.
Proof.
  induction 1 as [|x l Hx _ IH]; [done|]. by rewrite filter_cons_False.
Qed.

Lemma role_count self σ (t : Role) classes entries :
  Forall2 (λ (cls : Class) (entry : string * nat),
             entry.1 = __token__ cls
             ∧ type (res_at σ entry.2) = built_role self cls)
    classes entries →
  length (filter (has_role σ t) entries)
  = length (filter (λ cls, built_role self cls = t) classes).
Proof.
  induction 1 as [|cls entry classes entries [_ Hrole] _ IH]; [done|].
  destruct (decide (built_role self cls = t)) as [Hb|Hb].
  - rewrite filter_cons_True by (unfold has_role; by rewrite Hrole).
    rewrite (filter_cons_True (λ cls, built_role self cls = t)) by done.
    simpl. by rewrite IH.
  - rewrite filter_cons_False by (unfold has_role; by rewrite Hrole).
    by rewrite (filter_cons_False (λ cls, built_role self cls = t)).
Qed.

Lemma built_role_counts self :
  NoDup (tokens (declared self)) →
  length (filter (λ cls, built_role self cls = provider) (declared self))
  = length (_providers self)
  ∧ length (filter (λ cls, built_role self cls = export) (declared self))
    = length (_exports self).
Proof.
  intros Hnd. unfold declared. rewrite !filter_app, !length_app.
  assert (Forall (λ cls, built_role self cls = provider) (_providers self))
    as Hps.
  { apply Forall_forall. intros cls Hcls. unfold built_role.
    by rewrite bool_decide_eq_true_2. }
  assert (Forall (λ cls, built_role self cls = export) (_exports self)) as Hes.
  { apply Forall_forall. intros cls Hcls. unfold built_role.
    rewrite bool_decide_eq_false_2; [done|].
    intros Hp. by apply (tokens_disjoint _ _ _ Hnd Hp). }
  rewrite (length_filter_all _ _ Hps), (length_filter_all _ _ Hes).
  rewrite (length_filter_none (λ cls, built_role self cls = provider)
             (_exports self)),
          (length_filter_none (λ cls, built_role self cls = export)
             (_providers self)); [lia| |].
  - eapply Forall_impl; [exact Hps|]. intros cls ->. done.
  - eapply Forall_impl; [exact Hes|]. intros cls ->. done.
Qed.

(** C3, as the code has it: a container without imports that is built
    afresh (its token is not in the cache) from [P] provider classes and
    [X] export classes of pairwise distinct tokens has [P+X] resolutions,
    [P] of them providers and [X] exports, when it re-exports or when no
    export class is found among the providers of the cached containers. *)
Theorem declared_counts
    (K : ContainerClass) (cfg : _Config) (m : _Meta)
    (σ σ' : State) (c : ContainerObj) :
  wf σ →
  k_config K = Some cfg → k_meta K = Some m → cfg_imports cfg = [] →
  NoDup (tokens (cfg_providers cfg ++ cfg_exports cfg)) →
  _Cache.get_by_token (k_token K) σ = None →
  (cfg_re_export cfg = true
   ∨ ∀ cls, cls ∈ cfg_exports cfg → _Cache.get_provider cls σ = None) →
  __init__ K σ = (Ok c, σ') →
  length (resolutions c σ')
  = length (cfg_providers cfg) + length (cfg_exports cfg)
  ∧ length (providers c σ') = length (cfg_providers cfg)
  ∧ length (exports c σ') = length (cfg_exports cfg).
Proof.
  intros Hwf Hcfg Hmeta Himp Hnd Hnew Hrole.
  rewrite (init_no_imports K cfg m σ Hcfg Hmeta Himp).
  set (self := new_self K cfg σ).
  rewrite make_resolution_fresh by done.
  destruct (resolve_providers self (declared self) (init_state σ))
    as [[[]|e] σ1] eqn:Hloop; [|done].
  intros [= <- <-].
  destruct (resolve_providers_entries self (declared self) (init_state σ) σ1)
    as (entries & Hdict & Hall).
  - by apply wf_init_state.
  - by apply init_state_unpublished.
  - done.
  - change (_resolutions self) with (S (next_id σ)).
    by rewrite init_state_dict.
  - intros cls Hcls Hhit. rewrite get_provider_init_state in Hhit by done.
    unfold cached_role, built_role.
    apply elem_of_app in Hcls as [Hp|He].
    + rewrite (bool_decide_eq_true_2 _ Hp).
      rewrite bool_decide_eq_false_2; [done|].
      by apply (tokens_disjoint _ _ _ Hnd Hp).
    + rewrite (bool_decide_eq_true_2 _ He).
      rewrite bool_decide_eq_false_2
        by (intros Hp; by apply (tokens_disjoint _ _ _ Hnd Hp)).
      destruct Hrole as [Hre|Hmiss].
      * change (_re_export self) with (cfg_re_export cfg). by rewrite Hre.
      * rewrite (Hmiss cls He) in Hhit. by destruct Hhit.
  - change (_resolutions self) with (S (next_id σ)) in Hdict.
    rewrite init_state_dict in Hdict. simpl in Hdict.
    unfold providers, exports, resolutions.
    change (dict_at (_Cache.add self σ1) (_resolutions self))
      with (dict_at σ1 (S (next_id σ))).
    rewrite Hdict.
    change (has_role (_Cache.add self σ1)) with (has_role σ1).
    pose proof (role_count self σ1 provider _ _ Hall) as Hp.
    pose proof (role_count self σ1 export _ _ Hall) as He.
    destruct (built_role_counts self Hnd) as [Hbp Hbe].
    rewrite Hbp in Hp. rewrite Hbe in He.
    apply Forall2_length in Hall.
    split_and!; [|exact Hp|exact He].
    rewrite <-Hall. unfold declared. by rewrite length_app.
Qed.

(** ** A sequence of calls *)

Lemma wf_call σ c : wf σ → wf (call σ c).
Proof. destruct c; simpl; [apply wf_init | apply wf_clear]. Qed.

Lemma wf_run calls σ : wf σ → wf (run calls σ).
Proof.
  revert σ. induction calls as [|c calls IH]; intros σ Hwf; [done|].
  simpl. by apply IH, wf_call.
Qed.

(** Calls hand out new identities and leave the instance of every record
    that exists as it is. *)
Lemma run_static calls σ :
  wf σ →
  next_id σ ≤ next_id (run calls σ)
  ∧ ∀ l, l < next_id σ →
         instance (res_at (run calls σ) l) = instance (res_at σ l).
Proof.
  revert σ. induction calls as [|c calls IH]; intros σ Hwf; [done|].
  simpl. destruct (IH (call σ c) (wf_call _ _ Hwf)) as [Hn Hstatic].
  assert (next_id σ ≤ next_id (call σ c)
          ∧ ∀ l, l < next_id σ →
                 instance (res_at (call σ c) l) = instance (res_at σ l))
    as [Hn1 Hstatic1].
  { destruct c as [K|]; simpl; [|done].
    destruct (init_store K σ Hwf) as (_ & Hle & _ & _ & Hs).
    split; [done|]. intros l Hl. by destruct (Hs l Hl). }
  split; [lia|]. intros l Hl. rewrite Hstatic by lia. by apply Hstatic1.
Qed.

(** ** A dictionary that the cache does not hold *)

Lemma unpublished_add d c σ :
  unpublished d σ → _resolutions c ≠ d → unpublished d (_Cache.add c σ).
Proof.
  intros Hun Hc t c0 Hin. unfold _Cache.add in Hin. simpl in Hin.
  apply dict_set_elem in Hin as [[= -> ->]|Hin]; [done|].
  by apply (Hun t c0).
Qed.

Lemma import_container_unpublished d B σ :
  (∀ σ, wf σ → d < next_id σ → unpublished d σ →
        unpublished_post d (__init__ B σ)) →
  wf σ → d < next_id σ → unpublished d σ →
  unpublished d (import_container __init__ B σ).2.
Proof.
  intros IH Hwf Hd Hun. rewrite import_container_unfold.
  destruct (_Cache.get_by_token (k_token B) σ) as [container|]; [done|].
  destruct (IH σ Hwf Hd Hun) as [Hun1 Hc].
  destruct (__init__ B σ) as [[container|e] σ1]; simpl in *; [|done].
  apply unpublished_add; [done|]. by apply Hc.
Qed.

Lemma resolve_imports_unpublished d self imports σ :
  Forall (λ B, ∀ σ, wf σ → d < next_id σ → unpublished d σ →
                    unpublished_post d (__init__ B σ)) imports →
  wf σ → d < next_id σ → unpublished d σ →
  unpublished d (_resolve_imports __init__ self imports σ).2.
Proof.
  intros Hall. revert σ.
  induction Hall as [|B rest HB _ IH]; intros σ Hwf Hd Hun; [done|].
  rewrite resolve_imports_cons.
  destruct (import_container_store B σ (init_store B) Hwf)
    as (Hwf1 & Hn1 & _).
  pose proof (import_container_unpublished d B σ HB Hwf Hd Hun) as Hun1.
  destruct (import_container __init__ B σ) as [[b|e] σ1]; simpl in *; [|done].
  destruct (merge_exports_store self b σ1) as [Hc2 Hn2].
  apply IH; [by apply merge_exports_wf|lia|].
  by apply (unpublished_same_cache _ σ1).
Qed.

Lemma make_resolution_unpublished d self σ :
  _resolutions self ≠ d → unpublished d σ →
  unpublished_post d (_make_resolution self σ).
Proof.
  intros Hself Hun. unfold _make_resolution.
  destruct (_Cache.get_by_token (c_token self) σ) as [container|] eqn:Hcached.
  - split; [done|]. intros c [= <-]. simpl.
    by apply (Hun (c_token self)), get_by_token_elem.
  - destruct (resolve_providers self (_providers self ++ _exports self) σ)
      as [[[]|e] σ1] eqn:Hloop;
      pose proof (resolve_providers_cache _ _ _ _ _ Hloop) as Hc;
      pose proof (unpublished_same_cache _ _ _ Hc Hun) as Hun1; simpl.
    + split; [by apply unpublished_add|]. by intros c [= <-].
    + by split.
Qed.

(** A construction caches no dictionary that existed before it without
    being cached. *)
Lemma init_unpublished d K :
  ∀ σ, wf σ → d < next_id σ → unpublished d σ →
       unpublished_post d (__init__ K σ).
Proof.
  induction K as [K IH] using ContainerClass_tree_ind.
  intros σ Hwf Hd Hun. rewrite init_unfold.
  destruct (k_config K) as [cfg|] eqn:Hcfg; [|by split].
  destruct (k_meta K) as [m|]; [|by split]. cbv zeta.
  pose proof (resolve_imports_unpublished d (new_self K cfg σ)
                (cfg_imports cfg) (init_state σ) (IH cfg eq_refl)
                (wf_init_state _ Hwf)) as Hun1.
  destruct (_resolve_imports __init__ (new_self K cfg σ) (cfg_imports cfg)
              (init_state σ)) as [[[]|e] σ1]; simpl in *.
  - apply make_resolution_unpublished; [simpl; lia|]. by apply Hun1; [lia|].
  - split; [|done]. by apply Hun1; [lia|].
Qed.

(** When [_make_resolution] starts, the store is well formed and the new
    dictionary of [self] is not one the cache holds. *)
Lemma imports_resolved_ready K cfg σ r σ' :
  wf σ → imports_resolved K cfg σ = (r, σ') →
  wf σ' ∧ next_id σ + 2 ≤ next_id σ'
  ∧ unpublished (_resolutions (new_self K cfg σ)) σ'.
Proof.
  intros Hwf Himports. unfold imports_resolved in Himports.
  pose proof (resolve_imports_store (new_self K cfg σ) (cfg_imports cfg)
                (init_state σ)) as Hstore.
  destruct Hstore as (Hwf1 & Hn1 & _).
  { apply Forall_forall. intros B _. apply init_store. }
  { by apply wf_init_state. }
  pose proof (resolve_imports_unpublished (S (next_id σ)) (new_self K cfg σ)
                (cfg_imports cfg) (init_state σ)) as Hun.
  rewrite Himports in Hwf1, Hn1, Hun. simpl in *.
  split_and!; [done|lia|]. apply Hun.
  - apply Forall_forall. intros B _. apply init_unpublished.
  - by apply wf_init_state.
  - simpl. lia.
  - by apply init_state_unpublished.
Qed.

Lemma init_afresh K cfg σ σ0 c σ' :
  k_config K = Some cfg →
  imports_resolved K cfg σ = (Ok tt, σ0) →
  _Cache.get_by_token (k_token K) σ0 = None →
  __init__ K σ = (Ok c, σ') →
  ∃ σ1,
    resolve_providers (new_self K cfg σ)
      (cfg_providers cfg ++ cfg_exports cfg) σ0 = (Ok tt, σ1)
    ∧ c = new_self K cfg σ ∧ σ' = _Cache.add (new_self K cfg σ) σ1.
Proof.
  intros Hcfg Himports Hnew. rewrite init_unfold, Hcfg.
  destruct (k_meta K) as [m|]; [|done]. cbv zeta.
  unfold imports_resolved in Himports. rewrite Himports.
  rewrite make_resolution_fresh by done.
  change (declared (new_self K cfg σ))
    with (cfg_providers cfg ++ cfg_exports cfg).
  destruct (resolve_providers (new_self K cfg σ)
              (cfg_providers cfg ++ cfg_exports cfg) σ0)
    as [[[]|e] σ1]; [|done].
  intros [= <- <-]. by exists σ1.
Qed.

(** ** Sharing a provider between containers *)

Lemma resolve_providers_app self before after σ :
  resolve_providers self (before ++ after) σ
  = match resolve_providers self before σ with
    | (Ok _, σ1) => resolve_providers self after σ1
    | (Raise e, σ1) => (Raise e, σ1)
    end.
Proof.
  revert σ. induction before as [|cls before IH]; intros σ; [done|].
  simpl app. rewrite !resolve_providers_cons.
  destruct (resolve_provider self cls σ) as [[[]|e] σ1]; [apply IH | done].
Qed.

Lemma tokens_split (before after : list Class) (cls : Class) :
  NoDup (tokens (before ++ (cls :: after))) →
  (__token__ cls ∉ tokens before) ∧ (__token__ cls ∉ tokens after).
Proof.
  unfold tokens. rewrite fmap_app, fmap_cons.
  intros (_ & Hdisj & [Hnin _]%NoDup_cons)%NoDup_app. split; [|done].
  intros Hin. apply (Hdisj _ Hin). left.
Qed.

Lemma get_provider_token (c cls : Class) σ :
  __token__ c = __token__ cls →
  _Cache.get_provider c σ = _Cache.get_provider cls σ.
Proof. unfold _Cache.get_provider. by intros ->. Qed.

Lemma last_token_split (classes : list Class) (t : string) :
  t ∈ tokens classes →
  ∃ before c after,
    classes = before ++ c :: after
    ∧ __token__ c = t ∧ (t ∉ tokens after).
Proof.
  induction classes as [|x rest IH]; [by intros ?%elem_of_nil|].
  intros Hin. destruct (decide (t ∈ tokens rest)) as [Hrest|Hrest].
  - destruct (IH Hrest) as (before & c & after & -> & Hc & Hafter).
    by exists (x :: before), c, after.
  - exists [], x, rest. split_and!; [done| |done].
    unfold tokens in Hin. rewrite fmap_cons in Hin.
    by apply elem_of_cons in Hin as [->|?].
Qed.

(** The entry that a loop leaves under a token, when it is a provider
    record, is what the cache lookup answers with once the container is
    cached: either an earlier container already answers with that record,
    or nobody answers and the container will be the first. *)
Lemma resolve_providers_publishes self classes σ σ' (cls : Class) l :
  wf σ → unpublished (_resolutions self) σ →
  resolve_providers self classes σ = (Ok tt, σ') →
  cls ∈ classes →
  dict_get (__token__ cls) (dict_at σ' (_resolutions self)) = Some l →
  type (res_at σ' l) = provider →
  _Cache.get_provider cls σ' = Some l ∨ _Cache.get_provider cls σ' = None.
Proof.
  intros Hwf Hun Hloop Hcls Hentry Hprovider.
  destruct (last_token_split classes (__token__ cls))
    as (before & c & after & -> & Hc & Hafter).
  { by apply (list_elem_of_fmap_2 (λ c : Class, __token__ c)). }
  rewrite resolve_providers_app in Hloop.
  destruct (resolve_providers self before σ) as [[[]|e] σ1] eqn:Hloop1; [|done].
  rewrite resolve_providers_cons in Hloop.
  destruct (resolve_provider self c σ1) as [[[]|e] σ2] eqn:Hstep; [|done].
  pose proof (resolve_providers_frame _ _ _ _ _ Hwf Hloop1) as (Hwf1 & _).
  pose proof (resolve_providers_cache _ _ _ _ _ Hloop1) as Hc1.
  pose proof (unpublished_same_cache _ _ _ Hc1 Hun) as Hun1.
  pose proof (resolve_provider_wf _ _ _ _ _ Hwf1 Hstep) as Hwf2.
  pose proof (resolve_provider_frame _ _ _ _ _ Hwf1 Hstep)
    as (Hc2 & _ & Hd2 & _).
  pose proof (unpublished_same_cache _ _ _ Hc2 Hun1) as Hun2.
  pose proof (resolve_providers_frame _ _ _ _ _ Hwf2 Hloop)
    as (_ & _ & _ & Hk3 & Hres3 & _).
  pose proof (resolve_providers_lookup_frame _ _ _ _ _ cls Hwf2 Hun2 Hloop Hafter)
    as Hlookup3.
  apply resolve_provider_Ok in Hstep as (l' & HD & _ & _ & Hn & Hother & Hcase).
  rewrite Hk3, HD, <-Hc, dict_get_set_eq in Hentry by done.
  injection Hentry as ->.
  rewrite (get_provider_token c cls) in Hcase by done.
  assert (l < next_id σ2 ∧ token (res_at σ2 l) = __token__ cls) as [Hl Htok].
  { destruct Hcase as [[Hhit Hr]|(_ & ? & ? & _)]; [|split; [lia|congruence]].
    pose proof (get_provider_Some _ _ _ Hwf1 Hhit) as (? & ? & _).
    rewrite Hr. simpl. split; [lia|done]. }
  rewrite Hres3 in Hprovider by (done || by rewrite Htok).
  rewrite Hlookup3.
  destruct Hcase as [[Hhit Hr]|(Hmiss & Hfresh & _)].
  - pose proof (get_provider_Some _ _ _ Hwf1 Hhit) as (_ & _ & Hty).
    left. rewrite <-Hhit. unfold _Cache.get_provider. rewrite Hc2.
    apply get_provider_in_ext.
    + intros c0 [[t c'] [-> Hin]]%list_elem_of_fmap. apply Hd2. by eapply Hun1.
    + intros c0 l' _ _. destruct (decide (l' = l)) as [->|Hne].
      * by rewrite Hprovider, Hty.
      * by rewrite Hother.
  - right. rewrite <-Hmiss. unfold _Cache.get_provider. rewrite Hc2.
    apply get_provider_in_ext.
    + intros c0 [[t c'] [-> Hin]]%list_elem_of_fmap. apply Hd2. by eapply Hun1.
    + intros c0 l' _ Hin.
      destruct (wf_entry _ Hwf1 _ _ _ Hin) as [? _].
      rewrite Hother; [done|lia].
Qed.

Lemma add_new_container self σ :
  _Cache.get_by_token (c_token self) σ = None →
  _containers (_Cache.add self σ) = _containers σ ++ [(c_token self, self)].
Proof.
  intros Hnone%dict_get_None. simpl. by apply dict_set_new.
Qed.

(** A container that is cached anew with a provider entry for a token
    that one of its classes carries answers the cache lookup with that
    entry, unless an earlier container already does. *)
Lemma add_publishes self classes σ σ' (cls : Class) :
  wf σ → unpublished (_resolutions self) σ →
  _resolutions self < next_id σ →
  _Cache.get_by_token (c_token self) σ = None →
  resolve_providers self classes σ = (Ok tt, σ') →
  cls ∈ classes →
  is_Some (dict_get (__token__ cls) (providers self (_Cache.add self σ'))) →
  ∃ l,
    wf (_Cache.add self σ') ∧ l < next_id σ'
    ∧ dict_get (__token__ cls) (resolutions self (_Cache.add self σ')) = Some l
    ∧ _Cache.get_provider cls (_Cache.add self σ') = Some l.
Proof.
  intros Hwf Hun Hself Hnew Hloop Hcls [l Hview].
  pose proof (resolve_providers_frame _ _ _ _ _ Hwf Hloop) as (Hwf1 & Hn & _).
  pose proof (resolve_providers_cache _ _ _ _ _ Hloop) as Hc.
  assert (wf (_Cache.add self σ')) as Hwf2 by (apply wf_add; [lia|done]).
  pose proof Hview as Hget.
  apply dict_get_filter_NoDup in Hget; [|apply Hwf2].
  apply dict_get_filter_Some in Hview as [Hin Hrole].
  change (resolutions self (_Cache.add self σ'))
    with (dict_at σ' (_resolutions self)) in *.
  change (type (res_at σ' l) = provider) in Hrole.
  destruct (wf_entry _ Hwf1 _ _ _ Hin) as [Hl _].
  exists l. split_and!; [done..|].
  destruct (resolve_providers_publishes self classes σ σ' cls l)
    as [Hsome|Hnone]; [done..| |].
  - unfold _Cache.get_provider.
    rewrite add_new_container
      by (unfold _Cache.get_by_token in *; by rewrite Hc).
    rewrite fmap_app.
    rewrite (get_provider_in_ext _ σ' (_Cache.add self σ')) by done.
    by apply get_provider_in_app_Some.
  - unfold _Cache.get_provider.
    rewrite add_new_container
      by (unfold _Cache.get_by_token in *; by rewrite Hc).
    rewrite fmap_app.
    rewrite (get_provider_in_ext _ σ' (_Cache.add self σ')) by done.
    rewrite get_provider_in_app_None by done. simpl.
    destruct (dict_get_filter_NoDup_Some (has_role σ' provider)
                (__token__ cls) l (resolutions self σ') Hget Hrole)
      as [l' Hview'].
    unfold providers. by rewrite Hview'.
Qed.

(** While the loop gives the classes of a token the provider role, a
    record that the cache lookup answers with for that token keeps being
    the answer, and it is what the loop files under the token. *)
Lemma resolve_providers_reuses self classes σ σ' (cls : Class) l :
  wf σ → unpublished (_resolutions self) σ →
  resolve_providers self classes σ = (Ok tt, σ') →
  (∀ c : Class, c ∈ classes → __token__ c = __token__ cls →
                cached_role self c = provider) →
  _Cache.get_provider cls σ = Some l →
  _Cache.get_provider cls σ' = Some l
  ∧ (__token__ cls ∈ tokens classes →
     dict_get (__token__ cls) (dict_at σ' (_resolutions self)) = Some l).
Proof.
  revert σ. induction classes as [|c rest IH]; intros σ Hwf Hun Hloop Hrole Hhit.
  { injection Hloop as <-. split; [done|]. by intros ?%elem_of_nil. }
  rewrite resolve_providers_cons in Hloop.
  destruct (resolve_provider self c σ) as [[[]|e] σ1] eqn:Hstep; [|done].
  pose proof (resolve_provider_wf _ _ _ _ _ Hwf Hstep) as Hwf1.
  pose proof (resolve_provider_frame _ _ _ _ _ Hwf Hstep)
    as (Hc1 & _ & Hd1 & _).
  pose proof (unpublished_same_cache _ _ _ Hc1 Hun) as Hun1.
  assert (_Cache.get_provider cls σ1 = Some l
          ∧ (__token__ c = __token__ cls →
             dict_get (__token__ cls) (dict_at σ1 (_resolutions self))
             = Some l)) as [Hhit1 Hentry1].
  { destruct (decide (__token__ c = __token__ cls)) as [Heq|Hne].
    - apply resolve_provider_Ok in Hstep
        as (l' & HD & _ & _ & _ & Hother & Hcase).
      rewrite (get_provider_token c cls) in Hcase by done.
      destruct Hcase as [[Hhit' Hr]|[Hmiss _]]; [|congruence].
      assert (l' = l) as -> by congruence.
      split; [|intros _; by rewrite HD, Heq, dict_get_set_eq].
      pose proof (get_provider_Some _ _ _ Hwf Hhit) as (_ & _ & Hty).
      rewrite <-Hhit. unfold _Cache.get_provider. rewrite Hc1.
      apply get_provider_in_ext.
      + intros c0 [[t c'] [-> Hin]]%list_elem_of_fmap. apply Hd1.
        by eapply Hun.
      + intros c0 l' _ _. destruct (decide (l' = l)) as [->|Hne].
        * rewrite Hr, Hty. simpl. apply Hrole; [left|done].
        * by rewrite Hother.
    - split; [|done]. rewrite <-Hhit.
      by apply (resolve_provider_lookup_frame _ _ _ _ _ cls Hwf Hun Hstep). }
  destruct (IH σ1 Hwf1 Hun1 Hloop) as [Hhit' Hentry'];
    [intros c0 Hc0; apply Hrole; by right|done|].
  split; [done|]. intros Hin.
  destruct (decide (__token__ cls ∈ tokens rest)) as [Hrest|Hrest];
    [by apply Hentry'|].
  pose proof (resolve_providers_frame _ _ _ _ _ Hwf1 Hloop)
    as (_ & _ & _ & Hk & _).
  rewrite Hk by done. apply Hentry1.
  unfold tokens in Hin. rewrite fmap_cons in Hin.
  by apply elem_of_cons in Hin as [->|?].
Qed.

(** C4, as the code has it. Two containers that both list a class as a
    provider, each built afresh (its token is not in the cache when,
    after its imports, it resolves its own classes), the second after the
    first and after any other calls; each may import containers. When
    the first ends with a provider entry for the class's token, the
    second does not re-export a class of that token, and the cache lookup
    for the token answers, when the second starts resolving its own
    classes, as it did right after the first was built, both file the
    very same record under the token; the instance in it is the one the
    first container stored. *)
Theorem siblings_share_provider
    (A B : ContainerClass) (cfgA cfgB : _Config) (cls : Class)
    (calls : list Call) (σ σA σ1 σB σ2 : State) (a b : ContainerObj) :
  wf σ →
  k_config A = Some cfgA → k_config B = Some cfgB →
  cls ∈ cfg_providers cfgA → cls ∈ cfg_providers cfgB →
  imports_resolved A cfgA σ = (Ok tt, σA) →
  _Cache.get_by_token (k_token A) σA = None →
  __init__ A σ = (Ok a, σ1) →
  is_Some (dict_get (__token__ cls) (providers a σ1)) →
  imports_resolved B cfgB (run calls σ1) = (Ok tt, σB) →
  _Cache.get_by_token (k_token B) σB = None →
  _Cache.get_provider cls σB = _Cache.get_provider cls σ1 →
  cfg_re_export cfgB = false ∨ (__token__ cls ∉ tokens (cfg_exports cfgB)) →
  __init__ B (run calls σ1) = (Ok b, σ2) →
  ∃ resolution,
    dict_get (__token__ cls) (resolutions a σ1) = Some resolution
    ∧ _Cache.get_provider cls σ1 = Some resolution
    ∧ dict_get (__token__ cls) (resolutions b σ2) = Some resolution
    ∧ instance (res_at σ2 resolution) = instance (res_at σ1 resolution).
Proof.
  intros Hwf HcfgA HcfgB HclsA HclsB HimpA HnewA HA Hview HimpB HnewB
    Hsame Hrole HB.
  destruct (imports_resolved_ready _ _ _ _ _ Hwf HimpA) as (HwfA & HnA & HunA).
  destruct (init_afresh _ _ _ _ _ _ HcfgA HimpA HnewA HA)
    as (σA' & HloopA & -> & ->).
  destruct (add_publishes (new_self A cfgA σ)
              (cfg_providers cfgA ++ cfg_exports cfgA) σA σA' cls HwfA HunA)
    as (l & Hwf1 & Hl & Hget & Hlookup); [simpl; lia|done|done| |done|].
  { apply elem_of_app. by left. }
  set (σ1 := _Cache.add (new_self A cfgA σ) σA') in *.
  exists l. split; [done|]. split; [done|].
  pose proof (wf_run calls σ1 Hwf1) as Hwf1'.
  destruct (run_static calls σ1 Hwf1) as [Hn1 Hstatic1].
  destruct (imports_resolved_ready _ _ _ _ _ Hwf1' HimpB)
    as (HwfB & HnB & HunB).
  destruct (init_afresh _ _ _ _ _ _ HcfgB HimpB HnewB HB)
    as (σB' & HloopB & -> & ->).
  rewrite Hlookup in Hsame.
  destruct (resolve_providers_reuses (new_self B cfgB (run calls σ1))
              (cfg_providers cfgB ++ cfg_exports cfgB) σB σB'
              cls l HwfB HunB HloopB) as [_ Hentry]; [|done|].
  { intros c Hc Htok. unfold cached_role. simpl.
    destruct Hrole as [->|Hnin]; [by rewrite andb_false_r|].
    rewrite bool_decide_eq_false_2; [done|].
    intros Hin. apply Hnin. rewrite <-Htok.
    by apply (list_elem_of_fmap_2 (λ c : Class, __token__ c)). }
  split.
  - apply Hentry. apply (list_elem_of_fmap_2 (λ c : Class, __token__ c)).
    apply elem_of_app. by left.
  - destruct (init_store B (run calls σ1) Hwf1') as (_ & _ & _ & _ & Hs).
    rewrite HB in Hs. simpl in Hs.
    destruct (Hs l) as [_ ->]; [simpl in *; lia|].
    apply Hstatic1. simpl in *. lia.
Qed.

(** ** Importing a container *)



(** *** Records that later imports leave alone *)













(** Whatever a container exported, it no longer exports once another
    container has merged it: every record of its [exports] view has been
    turned into a provider. *)
Lemma merge_exports_empties_view self b σ :
  _resolutions self ≠ _resolutions b →
  exports b (merge_exports self b σ) = [].
Proof.
  intros Hne. rewrite merge_exports_items.
  pose proof (merge_items_store self b (exports b σ) σ)
    as (_ & _ & Hd & Hother & _).
  apply nil_length_inv, length_filter_none, Forall_forall.
  intros [k l] Hin. unfold resolutions in Hin. rewrite Hd in Hin by done.
  unfold has_role. simpl.
  destruct (decide (l ∈ (exports b σ).*2)) as [Hl|Hl].
  - apply list_elem_of_fmap in Hl as ([k' l'] & -> & Hitem).
    destruct (merge_items_result self b (exports b σ) σ k' l' Hitem)
      as (Hty & _).
    simpl. by rewrite Hty.
  - rewrite Hother by done. intros Hexport. apply Hl.
    apply (list_elem_of_fmap_2' snd _ (k, l)); [|done].
    by apply list_elem_of_filter.
Qed.

(** ** A construction that fails *)

Lemma import_container_cached B σ b σ' :
  import_container __init__ B σ = (Ok b, σ') →
  is_Some (_Cache.get_by_token (k_token B) σ').
Proof.
  rewrite import_container_unfold.
  destruct (_Cache.get_by_token (k_token B) σ) as [container|] eqn:Hget.
  - intros [= <- <-]. by rewrite Hget.
  - destruct (init_cache B σ) as [_ Hok].
    destruct (__init__ B σ) as [[container|e] σ1]; [|done].
    intros [= <- <-]. destruct (Hok container eq_refl) as (<- & _).
    by rewrite get_by_token_add.
Qed.

Lemma resolve_imports_cached self imports σ σ' :
  _resolve_imports __init__ self imports σ = (Ok tt, σ') →
  ∀ B, B ∈ imports → is_Some (_Cache.get_by_token (k_token B) σ').
Proof.
  revert σ. induction imports as [|B0 imports IH]; intros σ Himports B.
  - by intros ?%elem_of_nil.
  - rewrite resolve_imports_cons in Himports.
    destruct (import_container __init__ B0 σ) as [[b|e] σ1] eqn:Himport;
      [|done].
    intros [->|HB]%elem_of_cons; [|by eapply IH].
    apply import_container_cached in Himport as [c Hc].
    pose proof (merge_exports_store self b σ1) as [Hcache _].
    pose proof (resolve_imports_cache self imports (merge_exports self b σ1)
                  (Forall_true _ _ (λ K τ, init_cache K τ))) as Hstable.
    rewrite Himports in Hstable. simpl in Hstable.
    destruct (Hstable (k_token B0) c) as (c' & Hc' & _); [|by rewrite Hc'].
    unfold _Cache.get_by_token in *. by rewrite Hcache.
Qed.

(** C6: when the resolution loop of a container raises, after its imports
    were merged, the cache is exactly what the import step left: the
    container itself is not in it, every imported container is, and so is
    everything that was cached before the construction began. *)
Theorem failed_resolution_is_not_cached
    (K : ContainerClass) (cfg : _Config) (m : _Meta)
    (σ σ_imports σ' : State) (e : PyExn) :
  k_config K = Some cfg → k_meta K = Some m →
  _resolve_imports __init__ (new_self K cfg σ) (cfg_imports cfg)
    (init_state σ) = (Ok tt, σ_imports) →
  __init__ K σ = (Raise e, σ') →
  resolve_providers (new_self K cfg σ) (declared (new_self K cfg σ)) σ_imports
  = (Raise e, σ')
  ∧ _Cache.get_by_token (k_token K) σ' = None
  ∧ _containers σ' = _containers σ_imports
  ∧ (∀ B, B ∈ cfg_imports cfg →
          is_Some (_Cache.get_by_token (k_token B) σ'))
  ∧ cache_stable σ σ'.
Proof.
  intros Hcfg Hmeta Himports Hinit.
  pose proof (init_cache K σ) as [Hstable _]. rewrite Hinit in Hstable.
  revert Hinit. rewrite init_unfold, Hcfg, Hmeta. simpl.
  rewrite Himports. intros [Hnone Hloop]%make_resolution_Raise.
  pose proof (resolve_providers_cache _ _ _ _ _ Hloop) as Hc.
  split_and!; [done| |done| |done].
  - unfold _Cache.get_by_token in *. by rewrite Hc.
  - intros B HB. unfold _Cache.get_by_token. rewrite Hc.
    by apply (resolve_imports_cached _ _ _ _ Himports).
Qed.

(** ** The properties on the containers of the test suite *)

Section scenarios.
Import Calculator Scenario Inputs.

(** The three container tests of the suite, run in their order. *)
Example test_basic_container :
  ∃ substractor σ,
    __init__ SubstractorContainer empty_state = (Ok substractor, σ)
    ∧ length (resolutions substractor σ) = 2
    ∧ length (providers substractor σ) = 1
    ∧ length (exports substractor σ) = 1.
Proof. eexists _, _. split; [vm_compute; reflexivity|]. by vm_compute. Qed.

Example test_multiple_providers_container :
  ∃ calculator σ,
    __init__ CalculatorWithMultipleProvidersContainer
      (after [SubstractorContainer] empty_state) = (Ok calculator, σ)
    ∧ length (resolutions calculator σ) = 5
    ∧ length (providers calculator σ) = 4
    ∧ length (exports calculator σ) = 1.
Proof. eexists _, _. split; [vm_compute; reflexivity|]. by vm_compute. Qed.

Example test_composed_containers :
  ∃ calculator σ,
    __init__ CalculatorWithImportsContainer
      (after [SubstractorContainer; CalculatorWithMultipleProvidersContainer]
         empty_state) = (Ok calculator, σ)
    ∧ length (resolutions calculator σ) = 5
    ∧ length (providers calculator σ) = 4
    ∧ length (exports calculator σ) = 1
    ∧ length (_containers σ) = 6.
Proof. eexists _, _. split; [vm_compute; reflexivity|]. by vm_compute. Qed.

(** C8 at the substractor container once its adapter is resolved: the
    adapter class, asked for by its own type, is built anew at each
    lookup; the port, which no declared class descends from, is found
    in the resolutions; the adder port is not found. *)
Lemma get_lookup_order_witness :
  let σ := adapter_resolved in
  (_get substractor SubstractorAdapter σ
   = (Ok {| obj_id := next_id σ; obj_class := SubstractorAdapter;
            obj_kwargs := [] |}, bump σ)
   ∧ _get substractor SubstractorAdapter (bump σ)
     = (Ok {| obj_id := S (next_id σ); obj_class := SubstractorAdapter;
              obj_kwargs := [] |}, bump (bump σ)))
  ∧ (∃ resolution,
       dict_get "SubstractorPort" (resolutions substractor σ)
       = Some resolution
       ∧ _get substractor SubstractorPort σ
         = (Ok (instance (res_at σ resolution)), σ)
       ∧ obj_id (instance (res_at σ resolution)) < next_id σ)
  ∧ _get substractor AdderPort σ
    = (Raise (KeyError "Provider with AdderPort not found"), σ).
Proof.
  intros σ.
  destruct (get_lookup_order substractor SubstractorAdapter σ)
    as (_ & Hmatch & _).
  destruct (get_lookup_order substractor SubstractorPort σ)
    as (_ & _ & Hstored & _).
  destruct (get_lookup_order substractor AdderPort σ)
    as (_ & _ & _ & Hmissing).
  split; [|split].
  - apply (Hmatch SubstractorAdapter); [|reflexivity..].
    exists [], [SubstractorService].
    split_and!; [reflexivity|reflexivity|constructor].
  - eexists. split; [vm_compute; reflexivity|]. split.
    + apply (Hstored ltac:(repeat constructor) "SubstractorPort");
        [reflexivity|vm_compute; reflexivity].
    + vm_compute. lia.
  - apply (Hmissing ltac:(repeat constructor) "AdderPort");
      [reflexivity|vm_compute; reflexivity].
Defined.

(** C8 as stated fails for a requested type that has no token and that
    no declared class descends from: reading its token raises
    [AttributeError], so that the resolutions are not consulted and no
    [KeyError] names the type. *)
Lemma get_lookup_order_counterexample :
  let σ := adapter_resolved in
  no_match EmptyElement (_providers substractor ++ _exports substractor)
  ∧ req_token EmptyElement = None
  ∧ _get substractor EmptyElement σ
    = (Raise (AttributeError
                "type object 'EmptyElement' has no attribute '__token__'"),
       σ)
  ∧ ∀ message,
      _get substractor EmptyElement σ ≠ (Raise (KeyError message), σ).
Proof.
  split_and!; [repeat constructor|reflexivity|reflexivity|].
  intros message. by vm_compute.
Qed.

(** C10 at the substractor container once its adapter is resolved: the
    adapter, without constructor parameters, is built by the lookup;
    the service, which requires the port, makes the lookup raise, while
    [_resolve] builds it from the stored adapter. *)
Lemma get_direct_instantiation_witness :
  let σ := adapter_resolved in
  _get substractor SubstractorAdapter σ
  = (Ok {| obj_id := next_id σ; obj_class := SubstractorAdapter;
           obj_kwargs := [] |}, bump σ)
  ∧ (∃ message,
       _get substractor SubstractorService σ
       = (Raise (TypeError message), σ))
  ∧ ∃ inst descr,
      _resolve substractor SubstractorService σ
      = (Ok (inst, descr), bump σ)
      ∧ obj_id inst = next_id σ ∧ obj_class inst = SubstractorService
      ∧ (obj_kwargs inst).*1 = ["substractor"]
      ∧ length descr = 1.
Proof.
  intros σ.
  assert (first_match SubstractorAdapter
            (_providers substractor ++ _exports substractor)
            SubstractorAdapter) as Hadapter.
  { exists [], [SubstractorService].
    split_and!; [reflexivity|reflexivity|constructor]. }
  assert (first_match SubstractorService
            (_providers substractor ++ _exports substractor)
            SubstractorService) as Hservice.
  { exists [SubstractorAdapter], [].
    split_and!; [reflexivity|reflexivity|repeat constructor]. }
  destruct (get_direct_instantiation_passes_no_argument
              substractor SubstractorAdapter SubstractorAdapter σ Hadapter)
    as (Hbuilt & _).
  destruct (get_direct_instantiation_passes_no_argument
              substractor SubstractorService SubstractorService σ Hservice)
    as (_ & Hraises & _ & Hresolve & _).
  split_and!.
  - by apply Hbuilt.
  - by apply Hraises.
  - apply Hresolve; [reflexivity|reflexivity|compute_done|compute_done|].
    change (resolved_params SubstractorService)
      with [("substractor", SubstractorPort : Requested)].
    apply Forall_cons. split; [|constructor]. split.
    + repeat constructor.
    + exists "SubstractorPort". split; [reflexivity|].
      eexists. vm_compute. reflexivity.
Defined.



(** C2 at the second construction of the substractor container. *)
Lemma second_construction_witness :
  ∃ first σ',
    _Cache.get_by_token "SubstractorContainer"
      (after [SubstractorContainer] empty_state) = Some first
    ∧ ∃ second,
        __init__ SubstractorContainer
          (after [SubstractorContainer] empty_state) = (Ok second, σ')
        ∧ _resolutions second = _resolutions first
        ∧ (∀ τ, resolutions second τ = resolutions first τ)
        ∧ (wf (after [SubstractorContainer] empty_state) →
           resolutions second σ'
           = resolutions first (after [SubstractorContainer] empty_state))
        ∧ _providers second = [SubstractorAdapter]
        ∧ _exports second = [SubstractorService].
Proof.
  eexists _, _. split; [vm_compute; reflexivity|].
  eapply (second_construction_adopts_cached_map SubstractorContainer
            (Mk_Config [SubstractorAdapter] [SubstractorService] [] false)
            meta).
  - reflexivity.
  - reflexivity.
  - vm_compute; reflexivity.
  - reflexivity.
Defined.

(** C3 at the first test of the suite. *)
Lemma declared_counts_witness :
  ∃ c σ',
    __init__ SubstractorContainer empty_state = (Ok c, σ')
    ∧ length (resolutions c σ') = 2
    ∧ length (providers c σ') = 1
    ∧ length (exports c σ') = 1.
Proof.
  eexists _, _. split; [vm_compute; reflexivity|].
  apply (declared_counts SubstractorContainer
           (Mk_Config [SubstractorAdapter] [SubstractorService] [] false)
           meta empty_state _ _ wf_empty eq_refl eq_refl eq_refl).
  - compute_done.
  - reflexivity.
  - right. intros cls _. reflexivity.
  - vm_compute; reflexivity.
Defined.

(** C3 as stated fails when an export class is found among the providers
    of a cached container and the container does not re-export: the
    substractor container, with one provider and one export and no
    imports, then has two providers and no export. *)
Lemma declared_counts_counterexample :
  ∃ c σ',
    __init__ SubstractorContainer
      (after [PrivateSubstractorContainer] empty_state) = (Ok c, σ')
    ∧ _providers c = [SubstractorAdapter]
    ∧ _exports c = [SubstractorService]
    ∧ _imports c = []
    ∧ NoDup (tokens (_providers c ++ _exports c))
    ∧ length (resolutions c σ') = 2
    ∧ length (providers c σ') = 2
    ∧ length (exports c σ') = 0.
Proof.
  eexists _, _. split; [vm_compute; reflexivity|].
  split_and!; [reflexivity|reflexivity|reflexivity|compute_done|
               by vm_compute|by vm_compute|by vm_compute].
Qed.

(** C4 at two siblings that provide the substractor adapter and import
    other containers, with the divider container built in between. *)
Lemma siblings_share_provider_witness :
  ∃ a σ1 b σ2,
    __init__ ImportingSiblingContainer empty_state = (Ok a, σ1)
    ∧ __init__ LateSiblingContainer (run [Construct DividerContainer] σ1)
      = (Ok b, σ2)
    ∧ ∃ resolution,
        dict_get "SubstractorPort" (resolutions a σ1) = Some resolution
        ∧ _Cache.get_provider SubstractorAdapter σ1 = Some resolution
        ∧ dict_get "SubstractorPort" (resolutions b σ2) = Some resolution
        ∧ instance (res_at σ2 resolution) = instance (res_at σ1 resolution).
Proof.
  eexists _, _, _, _.
  split; [vm_compute; reflexivity|]. split; [vm_compute; reflexivity|].
  eapply (siblings_share_provider
            ImportingSiblingContainer LateSiblingContainer
            (Mk_Config [SubstractorAdapter] [] [AdderContainer] false)
            (Mk_Config [DividerAdapter; SubstractorAdapter] []
               [MultiplierContainer] false)
            SubstractorAdapter [Construct DividerContainer] empty_state
            _ _ _ _ _ _ wf_empty eq_refl eq_refl).
  - left.
  - right. left.
  - vm_compute; reflexivity.
  - vm_compute; reflexivity.
  - vm_compute; reflexivity.
  - eexists. vm_compute. reflexivity.
  - vm_compute; reflexivity.
  - vm_compute; reflexivity.
  - vm_compute; reflexivity.
  - by left.
  - vm_compute; reflexivity.
Defined.

(** C4 as stated fails when the first sibling also declares another
    class of the same token: its entry for the token ends as the export
    built last, the provider lookup of the second sibling scans
    [providers] views only and finds nothing, and a new adapter is
    built. *)
Lemma siblings_share_provider_counterexample :
  ∃ a σ1 b σ2 first second,
    __init__ TwoAdaptersContainer empty_state = (Ok a, σ1)
    ∧ __init__ SecondSiblingContainer σ1 = (Ok b, σ2)
    ∧ SubstractorAdapter ∈ _providers a
    ∧ SubstractorAdapter ∈ _providers b
    ∧ _imports a = [] ∧ _imports b = []
    ∧ dict_get (__token__ SubstractorAdapter) (resolutions a σ1) = Some first
    ∧ dict_get (__token__ SubstractorAdapter) (resolutions b σ2) = Some second
    ∧ obj_id (instance (res_at σ2 second))
      ≠ obj_id (instance (res_at σ1 first))
    ∧ next_id σ1 ≤ obj_id (instance (res_at σ2 second)).
Proof.
  eexists _, _, _, _, _, _.
  split; [vm_compute; reflexivity|]. split; [vm_compute; reflexivity|].
  split_and!; [left|left|reflexivity|reflexivity|
               vm_compute; reflexivity|vm_compute; reflexivity|
               by vm_compute|vm_compute; lia].
Qed.

(** A second sibling that lists the adapter among its providers and its
    exports, and re-exports, builds a new adapter as well: the first
    lookup turns the record it shares with the first sibling into an
    export, and the second lookup then finds no provider. *)
Example sibling_with_both_lists_builds_anew :
  ∃ a σ1 b σ2 first second,
    __init__ FirstSiblingContainer empty_state = (Ok a, σ1)
    ∧ __init__ BothListsContainer σ1 = (Ok b, σ2)
    ∧ dict_get (__token__ SubstractorAdapter) (resolutions a σ1) = Some first
    ∧ dict_get (__token__ SubstractorAdapter) (resolutions b σ2) = Some second
    ∧ obj_id (instance (res_at σ2 second))
      ≠ obj_id (instance (res_at σ1 first))
    ∧ type (res_at σ1 first) = provider
    ∧ type (res_at σ2 first) = export.
Proof.
  eexists _, _, _, _, _, _.
  split; [vm_compute; reflexivity|]. split; [vm_compute; reflexivity|].
  split_and!; [vm_compute; reflexivity|vm_compute; reflexivity|
               by vm_compute|by vm_compute|by vm_compute].
Qed.

(** A second sibling whose token is in the cache is not built afresh:
    here the first sibling has imported a container of that name, whose
    empty resolutions the second sibling adopts. *)
Example sibling_named_like_an_import_has_no_entry :
  ∃ a σ1 b σ2 first,
    __init__ NamesakeImporterContainer empty_state = (Ok a, σ1)
    ∧ __init__ SecondSiblingContainer σ1 = (Ok b, σ2)
    ∧ dict_get (__token__ SubstractorAdapter) (resolutions a σ1) = Some first
    ∧ _Cache.get_provider SubstractorAdapter σ1 = Some first
    ∧ is_Some (_Cache.get_by_token (k_token SecondSiblingContainer) σ1)
    ∧ resolutions b σ2 = [].
Proof.
  eexists _, _, _, _, _.
  split; [vm_compute; reflexivity|]. split; [vm_compute; reflexivity|].
  split_and!; [vm_compute; reflexivity|vm_compute; reflexivity| |
               vm_compute; reflexivity].
  eexists. vm_compute. reflexivity.
Qed.

(** A first sibling whose token is in the cache is not built afresh
    either, and what it adopts need not be what the cache lookup
    answers with: here the record of an earlier container has become a
    provider again through an import. *)
Example adopting_sibling_is_not_the_answer :
  let σ := after [FirstSiblingContainer; BothListsContainer;
                  FirstSiblingImporterContainer] empty_state in
  ∃ a σ1 b σ2 first second,
    __init__ BothListsNamesakeContainer σ = (Ok a, σ1)
    ∧ __init__ SecondSiblingContainer σ1 = (Ok b, σ2)
    ∧ is_Some (_Cache.get_by_token (k_token BothListsNamesakeContainer) σ)
    ∧ dict_get (__token__ SubstractorAdapter) (providers a σ1) = Some first
    ∧ dict_get (__token__ SubstractorAdapter) (resolutions b σ2)
      = Some second
    ∧ _Cache.get_provider SubstractorAdapter σ1 = Some second
    ∧ obj_id (instance (res_at σ2 second))
      ≠ obj_id (instance (res_at σ1 first)).
Proof.
  eexists _, _, _, _, _, _.
  split; [vm_compute; reflexivity|]. split; [vm_compute; reflexivity|].
  split_and!; [|vm_compute; reflexivity|vm_compute; reflexivity|
               vm_compute; reflexivity|by vm_compute].
  eexists. vm_compute. reflexivity.
Qed.

(** Between the two constructions the answer of the cache lookup can
    change: after [clear] nothing answers, and the second sibling builds
    a new adapter. *)
Example sibling_after_clear_builds_anew :
  ∃ a σ1 b σ2 first second,
    __init__ FirstSiblingContainer empty_state = (Ok a, σ1)
    ∧ __init__ SecondSiblingContainer (run [Clear] σ1) = (Ok b, σ2)
    ∧ _Cache.get_provider SubstractorAdapter σ1 = Some first
    ∧ _Cache.get_provider SubstractorAdapter (run [Clear] σ1) = None
    ∧ dict_get (__token__ SubstractorAdapter) (resolutions b σ2)
      = Some second
    ∧ obj_id (instance (res_at σ2 second))
      ≠ obj_id (instance (res_at σ1 first)).
Proof.
  eexists _, _, _, _, _, _.
  split; [vm_compute; reflexivity|]. split; [vm_compute; reflexivity|].
  split_and!; [vm_compute; reflexivity|vm_compute; reflexivity|
               vm_compute; reflexivity|by vm_compute].
Qed.

(** C5 fails on the code: importing a container rewrites the record of
    the container that exports it. After the importer is built, the
    entry of the substractor container for its service is a provider
    marked as cached with an origin, and its [exports] view is empty. *)
Theorem import_merge_rewrites_exported_record :
  let σ1 := after [SubstractorContainer] empty_state in
  let σ2 := after [ImporterContainer] σ1 in
  ∃ b exported,
    _Cache.get_by_token "SubstractorContainer" σ1 = Some b
    ∧ _Cache.get_by_token "SubstractorContainer" σ2 = Some b
    ∧ exports b σ1 = [("SubstractorService", exported)]
    ∧ type (res_at σ1 exported) = export
    ∧ origin (res_at σ1 exported) = None
    ∧ from_cache (res_at σ1 exported) = false
    ∧ resolutions b σ2 = resolutions b σ1
    ∧ type (res_at σ2 exported) = provider
    ∧ origin (res_at σ2 exported) = Some "SubstractorContainer"
    ∧ from_cache (res_at σ2 exported) = true
    ∧ exports b σ2 = [].
Proof.
  eexists _, _.
  split; [vm_compute; reflexivity|]. split; [vm_compute; reflexivity|].
  split; [vm_compute; reflexivity|]. by vm_compute.
Qed.

(** What the rewritten record costs the next importer: it finds nothing
    to merge. *)
Example second_importer_finds_no_export :
  ∃ a σ',
    __init__ ReExporterContainer
      (after [SubstractorContainer; ImporterContainer] empty_state)
    = (Ok a, σ')
    ∧ resolutions a σ' = [].
Proof. eexists _, _. split; [vm_compute; reflexivity|]. by vm_compute. Qed.

(** C6 at an importer whose own service cannot be built. *)
Lemma failed_resolution_witness :
  let σ' := (__init__ BrokenCalculatorContainer empty_state).2 in
  (__init__ BrokenCalculatorContainer empty_state).1
  = Raise (KeyError "Provider with AdderPort not found")
  ∧ _Cache.get_by_token "BrokenCalculatorContainer" σ' = None
  ∧ is_Some (_Cache.get_by_token "SubstractorContainer" σ')
  ∧ dict_keys (_containers σ') = ["SubstractorContainer"].
Proof.
  set (cfg := Mk_Config [] [CalculatorService] [SubstractorContainer] false).
  set (σ_imports :=
         (_resolve_imports __init__
            (new_self BrokenCalculatorContainer cfg empty_state)
            [SubstractorContainer] (init_state empty_state)).2).
  intros σ'.
  destruct (failed_resolution_is_not_cached BrokenCalculatorContainer cfg
              meta empty_state σ_imports σ'
              (KeyError "Provider with AdderPort not found")
              eq_refl eq_refl)
    as (_ & Hnone & Hcache & Himports & _).
  - vm_compute; reflexivity.
  - vm_compute; reflexivity.
  - split_and!; [vm_compute; reflexivity|exact Hnone| |].
    + apply (Himports SubstractorContainer). left.
    + rewrite Hcache. vm_compute; reflexivity.
Defined.

End scenarios.

(** * Further properties of the code *)

(** ** The process cache *)

Lemma dict_set_keys_present {V} k (v : V) d :
  is_Some (dict_get k d) → dict_keys (dict_set k v d) = dict_keys d.
Proof.
  induction d as [|[k' v'] d IH]; simpl; [by intros [? ?]|].
  destruct (decide (k = k')) as [->|]; [done|].
  intros Hsome. unfold dict_keys in *. rewrite !fmap_cons.
  f_equal. by apply IH.
Qed.

(** X1. A container that was added is what [get] and [try_get] return for
    a container class of its token, and lookups of every other token are
    as they were. *)
Theorem cache_add_then_get
    (container : ContainerObj) (K : ContainerClass) (σ : State) :
  (k_token K = c_token container →
   _Cache.get (ContainerType K) (_Cache.add container σ) = Ok (Some container)
   ∧ _Cache.try_get (ContainerType K) (_Cache.add container σ) = Ok container)
  ∧ (k_token K ≠ c_token container →
     _Cache.get (ContainerType K) (_Cache.add container σ)
     = _Cache.get (ContainerType K) σ
     ∧ _Cache.try_get (ContainerType K) (_Cache.add container σ)
       = _Cache.try_get (ContainerType K) σ).
Proof.
  unfold _Cache.get, _Cache.try_get, _Cache.get_by_token, _Cache.add; simpl.
  split.
  - intros ->. by rewrite dict_get_set_eq.
  - intros Hne. by rewrite dict_get_set_ne.
Qed.

(** X2. The cache has one entry per token: adding under a token that is
    cached replaces that entry where it stands, adding under a new token
    appends an entry, and the tokens stay pairwise distinct. *)
Theorem cache_add_one_entry_per_token
    (container : ContainerObj) (σ : State) :
  (NoDup (dict_keys (_containers σ)) →
   NoDup (dict_keys (_containers (_Cache.add container σ))))
  ∧ (is_Some (_Cache.get_by_token (c_token container) σ) →
     dict_keys (_containers (_Cache.add container σ))
     = dict_keys (_containers σ))
  ∧ (_Cache.get_by_token (c_token container) σ = None →
     _containers (_Cache.add container σ)
     = _containers σ ++ [(c_token container, container)]).
Proof.
  split_and!.
  - apply dict_set_keys_NoDup.
  - apply dict_set_keys_present.
  - apply add_new_container.
Qed.

(** X3. [try_get] and [get] agree: [try_get] returns the container [get]
    finds, raises [NOT_FOUND] exactly where [get] returns [None], and both
    raise the same [INVALID_ELEMENT] error for a class that is no
    container. *)
Theorem try_get_agrees_with_get (container : PyClass) (σ : State) :
  match _Cache.get container σ with
  | Ok (Some found) => _Cache.try_get container σ = Ok found
  | Ok None =>
      ∃ message,
        _Cache.try_get container σ = Raise (ContainerError message NOT_FOUND)
  | Raise e =>
      _Cache.try_get container σ = Raise e
      ∧ ∃ message, e = ContainerError message INVALID_ELEMENT
  end.
Proof.
  destruct container as [cls|K]; simpl; [by eauto|].
  destruct (_Cache.get_by_token (k_token K) σ); by eauto.
Qed.

(** X4. What [get_provider] returns, in a well-formed store: the record
    that a cached container files under the token of the class, and that
    record has the role provider and carries the token. An export is never
    returned. *)
Theorem get_provider_finds_provider_records
    (cls : Class) (σ : State) (resolution : nat) :
  wf σ →
  _Cache.get_provider cls σ = Some resolution →
  (∃ t container,
      (t, container) ∈ _containers σ
      ∧ dict_get (__token__ cls) (resolutions container σ) = Some resolution
      ∧ dict_get (__token__ cls) (providers container σ) = Some resolution
      ∧ dict_get (__token__ cls) (exports container σ) = None)
  ∧ token (res_at σ resolution) = __token__ cls
  ∧ type (res_at σ resolution) = provider.
Proof.
  intros Hwf Hget.
  destruct (get_provider_Some _ _ _ Hwf Hget) as (_ & Htok & Htype).
  split; [|done].
  apply get_provider_in_Some in Hget as (c & Hc & [l' Hprov] & Hres).
  apply list_elem_of_fmap in Hc as ([t c'] & -> & Hc). simpl in *.
  exists t, c'. split; [done|]. split; [done|].
  pose proof (wf_keys _ Hwf (_resolutions c')) as Hnd.
  assert (l' = resolution) as ->.
  { apply (dict_get_filter_NoDup _ _ _ _ Hnd) in Hprov.
    unfold resolutions in Hres. congruence. }
  split; [done|].
  destruct (dict_get (__token__ cls) (exports c' σ)) as [l2|] eqn:Hexp; [|done].
  pose proof Hexp as Hexp'.
  apply (dict_get_filter_NoDup _ _ _ _ Hnd) in Hexp'.
  unfold resolutions in Hres. assert (l2 = resolution) as -> by congruence.
  apply dict_get_Some_elem, list_elem_of_filter in Hexp as [Hrole _].
  unfold has_role in Hrole. simpl in Hrole. congruence.
Qed.

Lemma get_provider_in_None_iff tok σ values :
  _Cache.get_provider_in tok σ values = None
  ↔ ∀ c, c ∈ values →
         dict_get tok (providers c σ) = None
         ∨ dict_get tok (resolutions c σ) = None.
Proof.
  induction values as [|c values IH]; simpl.
  - split; [|done]. by intros _ c ?%elem_of_nil.
  - destruct (dict_get tok (providers c σ)) as [l|] eqn:Hp.
    + split.
      * intros Hnone c' [->|Hin]%elem_of_cons; [by right|].
        (* the first container answers: nothing is known of the rest *)
        exfalso.
        apply dict_get_Some_elem, list_elem_of_filter in Hp as [_ Hin'].
        apply dict_get_None in Hnone.
        apply Hnone. apply list_elem_of_fmap. by exists (tok, l).
      * intros Hall. destruct (Hall c) as [?|?]; [by left|congruence|done].
    + rewrite IH. split.
      * intros Hall c' [->|Hin]%elem_of_cons; [by left|by apply Hall].
      * intros Hall c' Hin. apply Hall. by right.
Qed.

(** X5. [get_provider] finds nothing exactly when no cached container has
    the token of the class in its [providers] view. *)
Theorem get_provider_none_iff (cls : Class) (σ : State) :
  _Cache.get_provider cls σ = None
  ↔ ∀ t container, (t, container) ∈ _containers σ →
       dict_get (__token__ cls) (providers container σ) = None.
Proof.
  unfold _Cache.get_provider. rewrite get_provider_in_None_iff. split.
  - intros Hall t c Hin.
    destruct (Hall c) as [?|Hnone]; [|done|].
    { apply list_elem_of_fmap. by exists (t, c). }
    destruct (dict_get (__token__ cls) (providers c σ)) as [l|] eqn:Hp; [|done].
    apply dict_get_Some_elem, list_elem_of_filter in Hp as [_ Hin'].
    apply dict_get_None in Hnone. exfalso. apply Hnone.
    apply list_elem_of_fmap. by exists (__token__ cls, l).
  - intros Hall c ([t c'] & -> & Hin)%list_elem_of_fmap. left. by eapply Hall.
Qed.

(** ** The read views *)

Lemma filter_roles_length σ (d : PyDict nat) :
  length (filter (has_role σ provider) d)
  + length (filter (has_role σ export) d) = length d.
Proof.
  induction d as [|entry d IH]; [done|].
  rewrite !filter_cons.
  destruct (decide (has_role σ provider entry)) as [Hp|Hp],
           (decide (has_role σ export entry)) as [He|He];
    simpl; unfold has_role in *; try lia.
  - congruence.
  - destruct (type (res_at σ entry.2)); congruence.
Qed.

(** X6. The [providers] and [exports] views split the resolutions: every
    entry is in exactly one of them, in the order of the map, and their
    sizes add up to the size of the map. *)
Theorem views_partition_resolutions (c : ContainerObj) (σ : State) :
  length (providers c σ) + length (exports c σ) = length (resolutions c σ)
  ∧ (∀ entry, entry ∈ resolutions c σ
              ↔ entry ∈ providers c σ ∨ entry ∈ exports c σ)
  ∧ (∀ entry, ¬ (entry ∈ providers c σ ∧ entry ∈ exports c σ))
  ∧ providers c σ `sublist_of` resolutions c σ
  ∧ exports c σ `sublist_of` resolutions c σ.
Proof.
  unfold providers, exports. split_and!.
  - apply filter_roles_length.
  - intros entry. rewrite !list_elem_of_filter. unfold has_role. split.
    + intros Hin. destruct (type (res_at σ entry.2)); by eauto.
    + by intros [[_ ?]|[_ ?]].
  - intros entry. rewrite !list_elem_of_filter. unfold has_role.
    intros [[H1 _] [H2 _]]. congruence.
  - apply sublist_filter.
  - apply sublist_filter.
Qed.

(** ** Construction *)

(** X7. Whatever containers a process constructs and however often it
    clears the cache, starting from nothing, the store stays well formed:
    every resolutions map files each record under the record's own token
    and has one entry per token, nothing refers to an object that does
    not exist yet, and every cached container is filed under its own
    token. This holds whether the constructions succeed or raise. *)
Theorem reachable_states_are_well_formed (calls : list Call) :
  wf (run calls empty_state).
Proof. apply wf_run, wf_empty. Qed.

(** X8. A construction, whether it succeeds or raises, removes no
    container from the cache and never puts another resolutions map
    behind a cached token: only [clear] empties the cache. *)
Theorem construction_never_evicts
    (K : ContainerClass) (σ : State) (t : string) (cached : ContainerObj) :
  _Cache.get_by_token t σ = Some cached →
  ∃ cached',
    _Cache.get_by_token t (__init__ K σ).2 = Some cached'
    ∧ _resolutions cached' = _resolutions cached
    ∧ (wf σ → resolutions cached' (__init__ K σ).2 = resolutions cached σ).
Proof.
  intros Hget.
  destruct (init_cache K σ) as [Hstable _].
  destruct (Hstable _ _ Hget) as (c' & Hget' & Hsame).
  exists c'. split; [done|]. split; [done|].
  intros Hwf. unfold resolutions. rewrite Hsame.
  destruct (init_store K σ Hwf) as (_ & _ & _ & Hd & _).
  apply Hd. apply get_by_token_elem in Hget.
  by destruct (wf_cached _ Hwf _ _ Hget).
Qed.

(** X9. A container that was constructed is in the cache: [get] and
    [try_get] of its class return a container with its resolutions map;
    its token and name are those of its class. *)
Theorem constructed_container_is_cached
    (K : ContainerClass) (σ σ' : State) (c : ContainerObj) :
  __init__ K σ = (Ok c, σ') →
  c_token c = k_token K ∧ c_name c = k_name K
  ∧ ∃ cached,
      _Cache.get (ContainerType K) σ' = Ok (Some cached)
      ∧ _Cache.try_get (ContainerType K) σ' = Ok cached
      ∧ _resolutions cached = _resolutions c
      ∧ ∀ τ, resolutions cached τ = resolutions c τ.
Proof.
  intros Hinit.
  destruct (init_cache K σ) as [_ Hpost]. rewrite Hinit in Hpost.
  destruct (Hpost c eq_refl) as (Htok & Hname & c' & Hget & Hsame).
  simpl in Hget. split; [done|]. split; [done|].
  exists c'. unfold _Cache.get, _Cache.try_get. rewrite Hget.
  split_and!; try done. intros τ. unfold resolutions. by rewrite Hsame.
Qed.

(** X10. In a well-formed store a construction leaves what exists as it
    is found: the resolutions map of every cached container has the same
    entries afterwards, and every record in it keeps its token and its
    instance. *)
Theorem construction_keeps_cached_maps_and_instances
    (K : ContainerClass) (σ : State) (t : string) (cached : ContainerObj) :
  wf σ →
  (t, cached) ∈ _containers σ →
  let σ' := (__init__ K σ).2 in
  next_id σ ≤ next_id σ'
  ∧ resolutions cached σ' = resolutions cached σ
  ∧ ∀ symbol resolution,
      (symbol, resolution) ∈ resolutions cached σ →
      token (res_at σ' resolution) = symbol
      ∧ instance (res_at σ' resolution) = instance (res_at σ resolution).
Proof.
  intros Hwf Hin. cbv zeta.
  destruct (init_store K σ Hwf) as (_ & Hnext & _ & Hd & Hl).
  destruct (wf_cached _ Hwf _ _ Hin) as [Hlt _].
  split; [done|]. split; [by apply Hd|].
  intros symbol resolution Hentry.
  destruct (wf_entry _ Hwf _ _ _ Hentry) as [Hlt' Htok].
  destruct (Hl _ Hlt') as [Htok' Hinst]. split; [|done]. congruence.
Qed.

(** X11. After a successful construction every container class that the
    container imports is in the cache. *)
Theorem successful_construction_caches_imports
    (K : ContainerClass) (cfg : _Config) (σ σ' : State) (c : ContainerObj)
    (B : ContainerClass) :
  k_config K = Some cfg →
  __init__ K σ = (Ok c, σ') →
  B ∈ cfg_imports cfg →
  ∃ b, _Cache.get (ContainerType B) σ' = Ok (Some b)
       ∧ _Cache.try_get (ContainerType B) σ' = Ok b.
Proof.
  intros Hcfg Hinit HB. rewrite init_unfold, Hcfg in Hinit.
  destruct (k_meta K) as [m|]; [|done]. cbv zeta in Hinit.
  destruct (_resolve_imports __init__ (new_self K cfg σ) (cfg_imports cfg)
              (init_state σ)) as [[[]|e] σ1] eqn:Himports; [|done].
  destruct (resolve_imports_cached _ _ _ _ Himports B HB) as [b Hb].
  destruct (make_resolution_cache (new_self K cfg σ) σ1) as [Hstable _].
  rewrite Hinit in Hstable. simpl in Hstable.
  destruct (Hstable _ _ Hb) as (b' & Hb' & _).
  exists b'. unfold _Cache.get, _Cache.try_get. by rewrite Hb'.
Qed.

Lemma resolve_providers_keys self classes σ σ' :
  resolve_providers self classes σ = (Ok tt, σ') →
  (∀ k, is_Some (dict_get k (dict_at σ (_resolutions self))) →
        is_Some (dict_get k (dict_at σ' (_resolutions self))))
  ∧ ∀ cls : Class, cls ∈ classes →
      is_Some (dict_get (__token__ cls) (dict_at σ' (_resolutions self))).
Proof.
  revert σ. induction classes as [|cls rest IH]; intros σ.
  - simpl. intros [= <-]. split; [done|]. by intros ? ?%elem_of_nil.
  - rewrite resolve_providers_cons.
    destruct (resolve_provider self cls σ) as [[[]|e] σ1] eqn:Hstep; [|done].
    intros Hrest. apply IH in Hrest as [Hkeep Hall].
    apply resolve_provider_Ok in Hstep as (l & HD & _).
    assert (∀ k, is_Some (dict_get k (dict_at σ (_resolutions self)))
                 ∨ k = __token__ cls →
                 is_Some (dict_get k (dict_at σ1 (_resolutions self)))) as H1.
    { intros k Hk. rewrite HD.
      destruct (decide (__token__ cls = k)) as [<-|Hne].
      - rewrite dict_get_set_eq. by eexists.
      - rewrite dict_get_set_ne by done. destruct Hk; [done|congruence]. }
    split.
    + intros k Hk. apply Hkeep, H1. by left.
    + intros c [->|Hin]%elem_of_cons; [|by apply Hall].
      apply Hkeep, H1. by right.
Qed.

(** X12. After a container was built afresh (its token was not in the
    cache when its own resolution started), [get] returns an instance for
    every element class that carries the token of a class the container
    declares as provider or export: the instance of the record filed under
    that token. The store is not changed by [get]. *)
Theorem declared_classes_are_retrievable
    (K : ContainerClass) (cfg : _Config) (m : _Meta)
    (σ σ_imports σ' : State) (c : ContainerObj) (element : Class) :
  k_config K = Some cfg → k_meta K = Some m →
  _resolve_imports __init__ (new_self K cfg σ) (cfg_imports cfg)
    (init_state σ) = (Ok tt, σ_imports) →
  _Cache.get_by_token (k_token K) σ_imports = None →
  __init__ K σ = (Ok c, σ') →
  issubclass element Element = true →
  __token__ element ∈ tokens (cfg_providers cfg ++ cfg_exports cfg) →
  ∃ resolution,
    dict_get (__token__ element) (resolutions c σ') = Some resolution
    ∧ _Container_api.get c element σ'
      = (Ok (instance (res_at σ' resolution)), σ').
Proof.
  intros Hcfg Hm Himports Hnew Hinit Helem Htok.
  rewrite init_unfold, Hcfg, Hm in Hinit. cbv zeta in Hinit.
  rewrite Himports in Hinit.
  rewrite make_resolution_fresh in Hinit by done.
  destruct (resolve_providers _ _ σ_imports) as [[[]|e] σ2] eqn:Hloop; [|done].
  injection Hinit as <- <-.
  apply resolve_providers_keys in Hloop as [_ Hall].
  apply list_elem_of_fmap in Htok as (cls & Heq & Hcls).
  destruct (Hall cls Hcls) as [l Hl]. rewrite <-Heq in Hl.
  exists l. unfold _Container_api.get, resolutions, dict_at in *.
  change (is_element element) with (issubclass element Element).
  rewrite Helem. simpl. unfold dict_at in Hl. simpl in Hl. by rewrite Hl.
Qed.

(** ** Dependency resolution *)

(** X13. Resolving a class writes nothing: no record, no resolutions map
    and no cache entry is changed by [_resolve], whether it returns or
    raises; it only creates objects. What it returns is a new instance of
    the class, created last. *)
Theorem resolve_only_creates_objects
    (self : ContainerObj) (cls : Class) (σ σ' : State)
    (r : Result (Instance * list string)) :
  _resolve self cls σ = (r, σ') →
  heap_res σ' = heap_res σ ∧ heap_dict σ' = heap_dict σ
  ∧ _containers σ' = _containers σ ∧ next_id σ ≤ next_id σ'
  ∧ ∀ inst descr, r = Ok (inst, descr) →
      obj_class inst = cls ∧ next_id σ ≤ obj_id inst
      ∧ next_id σ' = S (obj_id inst).
Proof.
  intros Hres.
  destruct (resolve_store _ _ _ _ _ Hres) as (Hr & Hd & Hc & Hn).
  split_and!; try done.
  intros inst descr ->. unfold _resolve, bind in Hres.
  destruct (resolve_params self (cls_hints cls) [] [] σ)
    as [[[args ds]|e] σ1] eqn:Hparams; [|done].
  apply resolve_params_store in Hparams as (_ & _ & _ & Hn1).
  simpl in Hres.
  destruct (instantiate cls args σ1) as [[i|e] σ2] eqn:Hinst; [|done].
  apply instantiate_Ok in Hinst as (_ & _ & _ & -> & ->).
  injection Hres as <- <- <-. simpl. split; [done|]. split; [lia|done].
Qed.

Lemma get_missing self (cls : Requested) σ :
  no_match cls (declared self) →
  (∀ tok, req_token cls = Some tok →
          dict_get tok (resolutions self σ) = None) →
  ∃ e, _get self cls σ = (Raise e, σ).
Proof.
  intros Hno Hnone. unfold _get. unfold declared in Hno.
  rewrite (find_no_match _ _ Hno).
  destruct (req_token cls) as [tok|]; [|by eexists].
  rewrite (Hnone tok eq_refl). by eexists.
Qed.

Lemma resolve_params_missing self hints init_args deps σ param
    (T : Requested) :
  (param, T) ∈ filter (λ h : string * Requested, h.1 ≠ "return") hints →
  no_match T (declared self) →
  (∀ tok, req_token T = Some tok →
          dict_get tok (resolutions self σ) = None) →
  ∃ e σ', resolve_params self hints init_args deps σ = (Raise e, σ').
Proof.
  intros Hin Hno. revert init_args deps σ Hin.
  induction hints as [|[p ty] rest IH]; intros init_args deps σ Hin Hnone.
  { by apply elem_of_nil in Hin. }
  rewrite filter_cons in Hin. simpl in *.
  destruct (decide (p = "return")) as [->|Hp].
  - rewrite decide_False in Hin by (simpl; by intros ?). by apply IH.
  - rewrite decide_True in Hin by done. unfold bind.
    apply elem_of_cons in Hin as [[= <- <-]|Hin].
    + destruct (get_missing _ _ _ Hno Hnone) as [e ->]. by eauto.
    + destruct (_get self ty σ) as [[dependency|e] σ1] eqn:Hget;
        [|by eauto].
      apply get_store in Hget as (_ & Hd & _).
      apply IH; [done|]. unfold resolutions, dict_at in *. by rewrite Hd.
Qed.

Lemma resolve_fails_on_missing_dependency_aux
    (self : ContainerObj) (cls : Class) (σ : State)
    (param : string) (T : Requested) :
  (param, T) ∈ resolved_params cls →
  no_match T (declared self) →
  (∀ tok, req_token T = Some tok →
          dict_get tok (resolutions self σ) = None) →
  ∃ e σ', _resolve self cls σ = (Raise e, σ').
Proof.
  intros Hin Hno Hnone.
  destruct (resolve_params_missing self (cls_hints cls) [] [] σ param T
              Hin Hno Hnone) as (e & σ' & Hparams).
  exists e, σ'. unfold _resolve, bind. by rewrite Hparams.
Qed.

(** X14. A class with a constructor parameter that nothing can supply is
    not built: if the type of a hinted parameter is matched by no declared
    class and the container has no entry under its token, [_resolve]
    raises and returns no instance. *)
Theorem resolve_fails_on_missing_dependency
    (self : ContainerObj) (cls : Class) (σ : State)
    (param : string) (T : PyType) :
  (param, T : Requested) ∈ resolved_params cls →
  no_match T (_providers self ++ _exports self) →
  dict_get (__token__ T) (resolutions self σ) = None →
  ∃ e σ', _resolve self cls σ = (Raise e, σ')
          ∧ heap_res σ' = heap_res σ ∧ heap_dict σ' = heap_dict σ
          ∧ _containers σ' = _containers σ.
Proof.
  intros Hin Hno Hnone.
  destruct (resolve_fails_on_missing_dependency_aux self cls σ param T
              Hin Hno) as (e & σ' & Hres); [by intros tok [= <-]|].
  exists e, σ'. split; [done|].
  by destruct (resolve_store _ _ _ _ _ Hres) as (? & ? & ? & _).
Qed.

Lemma resolve_provider_missing self cls σ e σ' :
  _Cache.get_provider cls σ = None →
  _resolve self cls σ = (Raise e, σ') →
  resolve_provider self cls σ = (Raise e, σ').
Proof. intros Hnone Hres. unfold resolve_provider. by rewrite Hnone, Hres. Qed.

(** A class that no cached container provides is still provided by
    none after the loop has run over any classes: what the loop builds
    goes into the dictionary of [self], which the cache does not hold. *)
Lemma resolve_provider_lookup_None self c σ r σ' (cls : Class) :
  wf σ → unpublished (_resolutions self) σ →
  resolve_provider self c σ = (r, σ') →
  _Cache.get_provider cls σ = None →
  _Cache.get_provider cls σ' = None.
Proof.
  intros Hwf Hun Hstep Hnone.
  destruct (decide (__token__ cls = __token__ c)) as [Heq|Hne];
    [|by rewrite (resolve_provider_lookup_frame _ _ _ _ _ cls Hwf Hun Hstep)].
  pose proof (resolve_provider_frame _ _ _ _ _ Hwf Hstep)
    as (Hc & _ & Hd & _).
  rewrite <-Hnone. unfold _Cache.get_provider. rewrite Hc.
  apply get_provider_in_ext.
  { intros c0 [[t c'] [-> Hin]]%list_elem_of_fmap. apply Hd. by eapply Hun. }
  intros c0 l _ Hl. destruct (wf_entry _ Hwf _ _ _ Hl) as [Hlt _].
  destruct r as [[]|e].
  - apply resolve_provider_Ok in Hstep as (l' & _ & _ & _ & _ & Hother & Hcase).
    unfold _Cache.get_provider in Hcase, Hnone. rewrite <-Heq, Hnone in Hcase.
    destruct Hcase as [[? _]|(_ & ? & _)]; [done|].
    rewrite Hother; [done|lia].
  - apply resolve_provider_Raise in Hstep as (Hr & _).
    unfold res_at. by rewrite Hr.
Qed.

Lemma resolve_providers_lookup_None self classes σ r σ' (cls : Class) :
  wf σ → unpublished (_resolutions self) σ →
  resolve_providers self classes σ = (r, σ') →
  _Cache.get_provider cls σ = None →
  _Cache.get_provider cls σ' = None.
Proof.
  revert σ. induction classes as [|c rest IH]; intros σ Hwf Hun.
  - by intros [= _ <-].
  - rewrite resolve_providers_cons. intros Hloop Hnone.
    destruct (resolve_provider self c σ) as [[[]|e] σ1] eqn:Hstep;
      pose proof (resolve_provider_wf _ _ _ _ _ Hwf Hstep) as Hwf1;
      pose proof (resolve_provider_lookup_None _ _ _ _ _ cls Hwf Hun Hstep
                    Hnone) as Hnone1;
      pose proof (resolve_provider_frame _ _ _ _ _ Hwf Hstep) as (Hc & _).
    + apply (IH σ1); [done| |done..]. by apply (unpublished_same_cache _ σ).
    + by injection Hloop as _ <-.
Qed.

(** X15. The order of declaration matters. Take a container without
    imports that is built afresh, and a declared class that no cached
    container provides. If one of its constructor parameters has a type
    that no declared class is a subclass of, and whose token none of the
    classes declared before it carries, then the construction raises, and
    the container is not in the cache afterwards. *)
Theorem construction_fails_on_unprovided_dependency
    (K : ContainerClass) (cfg : _Config) (m : _Meta) (σ : State)
    (before after : list Class) (cls : Class) (param : string) (T : PyType) :
  wf σ →
  k_config K = Some cfg → k_meta K = Some m → cfg_imports cfg = [] →
  _Cache.get_by_token (k_token K) σ = None →
  cfg_providers cfg ++ cfg_exports cfg = before ++ cls :: after →
  _Cache.get_provider cls σ = None →
  (param, T : Requested) ∈ resolved_params cls →
  no_match T (cfg_providers cfg ++ cfg_exports cfg) →
  __token__ T ∉ tokens before →
  ∃ e σ', __init__ K σ = (Raise e, σ')
          ∧ _Cache.get_by_token (k_token K) σ' = None.
Proof.
  intros Hwf Hcfg Hm Himp Hnew Hsplit Hlookup Hparam Hno HT.
  rewrite (init_no_imports K cfg m σ Hcfg Hm Himp).
  set (self := new_self K cfg σ).
  assert (declared self = before ++ cls :: after) as Hdecl by done.
  assert (∃ e σ', resolve_providers self (declared self) (init_state σ)
                  = (Raise e, σ')) as (e & σ' & Hloop).
  { rewrite Hdecl, resolve_providers_app.
    destruct (resolve_providers self before (init_state σ))
      as [[[]|e] σ1] eqn:Hbefore; [|by eauto].
    pose proof (wf_init_state _ Hwf) as Hwf0.
    pose proof (init_state_unpublished _ Hwf) as Hunp.
    pose proof (resolve_providers_frame _ _ _ _ _ Hwf0 Hbefore)
      as (_ & _ & _ & Hkeys & _).
    rewrite resolve_providers_cons.
    assert (_Cache.get_provider cls σ1 = None) as Hnone1.
    { apply (resolve_providers_lookup_None self before (init_state σ) _ _ cls
               Hwf0 Hunp Hbefore).
      by rewrite get_provider_init_state. }
    assert (∀ tok, req_token T = Some tok →
                   dict_get tok (resolutions self σ1) = None) as HT1.
    { intros tok [= <-]. unfold resolutions. rewrite Hkeys by done.
      change (_resolutions self) with (S (next_id σ)).
      by rewrite init_state_dict. }
    destruct (resolve_fails_on_missing_dependency_aux self cls σ1 param T
                Hparam Hno HT1) as (e & σ2 & Hres).
    rewrite (resolve_provider_missing _ _ _ _ _ Hnone1 Hres). by eauto. }
  exists e, σ'.
  assert (_Cache.get_by_token (c_token self) (init_state σ) = None) as Hnew0
    by done.
  rewrite make_resolution_fresh, Hloop by done. split; [done|].
  apply resolve_providers_cache in Hloop.
  unfold _Cache.get_by_token. by rewrite Hloop.
Qed.

(** ** What a construction shares with earlier ones *)

Lemma merge_items_entries self b items σ k l :
  (k, l) ∈ dict_at (merge_items self b items σ) (_resolutions self) →
  (k, l) ∈ dict_at σ (_resolutions self) ∨ (k, l) ∈ items.
Proof.
  revert σ. induction items as [|item items IH]; intros σ; [by left|].
  unfold merge_items in *. simpl. intros Hin.
  destruct (IH _ Hin) as [Hself|Hitems]; [|right; by right].
  destruct (merge_export_store self b item σ) as (_ & _ & HD & _).
  rewrite HD in Hself. apply dict_set_elem in Hself as [->|?]; [|by left].
  right. destruct item. left.
Qed.

Lemma built_since_merge n self b items σ :
  built_since n σ → entries_since n (_resolutions self) σ →
  (∀ k l, (k, l) ∈ items → n ≤ l) →
  built_since n (merge_items self b items σ)
  ∧ entries_since n (_resolutions self) (merge_items self b items σ).
Proof.
  intros Hbuilt Hself Hitems.
  assert (entries_since n (_resolutions self) (merge_items self b items σ))
    as Hself'.
  { intros k l [?|?]%merge_items_entries; [by eapply Hself|by eapply Hitems]. }
  split; [|done].
  destruct (merge_items_store self b items σ) as (Hc & _ & Hd & _).
  intros t c Hin. rewrite Hc in Hin.
  destruct (Hbuilt t c Hin) as [Hle Hentries]. split; [done|].
  destruct (decide (_resolutions c = _resolutions self)) as [->|Hne]; [done|].
  intros k l Hkl. rewrite Hd in Hkl by done. by eapply Hentries.
Qed.

Lemma built_since_add n c σ :
  built_since n σ → n ≤ _resolutions c →
  entries_since n (_resolutions c) σ →
  built_since n (_Cache.add c σ).
Proof.
  intros Hbuilt Hle Hentries t c0 Hin. unfold _Cache.add in Hin. simpl in Hin.
  apply dict_set_elem in Hin as [[= -> ->]|Hin]; [done|].
  by apply (Hbuilt t c0).
Qed.

Lemma import_container_built n B σ :
  (∀ σ, wf σ → n ≤ next_id σ → built_since n σ →
        built_post n (__init__ B σ)) →
  wf σ → n ≤ next_id σ → built_since n σ →
  let out := import_container __init__ B σ in
  built_since n out.2 ∧ ∀ b, out.1 = Ok b → ∃ t, (t, b) ∈ _containers out.2.
Proof.
  intros IH Hwf Hn Hbuilt. cbv zeta. rewrite import_container_unfold.
  destruct (_Cache.get_by_token (k_token B) σ) as [container|] eqn:Hcached.
  - simpl. split; [done|]. intros b [= <-].
    exists (k_token B). by apply get_by_token_elem.
  - destruct (IH σ Hwf Hn Hbuilt) as [Hbuilt' Hres].
    destruct (__init__ B σ) as [[container|e] σ1]; simpl in *; [|by split].
    destruct (Hres container eq_refl) as [Hle Hentries].
    split; [by apply built_since_add|].
    intros b [= <-]. exists (c_token container).
    apply (get_by_token_elem _ _ (_Cache.add container σ1)),
      get_by_token_add.
Qed.

Lemma resolve_imports_built n self imports σ :
  Forall (λ B, ∀ σ, wf σ → n ≤ next_id σ → built_since n σ →
                    built_post n (__init__ B σ)) imports →
  wf σ → n ≤ next_id σ → _resolutions self < next_id σ →
  built_since n σ → entries_since n (_resolutions self) σ →
  let out := _resolve_imports __init__ self imports σ in
  built_since n out.2 ∧ entries_since n (_resolutions self) out.2
  ∧ n ≤ next_id out.2.
Proof.
  intros HIH. revert σ.
  induction HIH as [|B rest HB _ IH]; intros σ Hwf Hn Hself Hbuilt Hentries;
    cbv zeta; [done|].
  rewrite resolve_imports_cons.
  destruct (import_container_store B σ (init_store B) Hwf)
    as (Hwf1 & Hn1 & Hd1 & _).
  destruct (import_container_built n B σ HB Hwf Hn Hbuilt) as [Hbuilt1 Hb].
  assert (entries_since n (_resolutions self)
            (import_container __init__ B σ).2) as Hentries1.
  { intros k l Hkl. rewrite Hd1 in Hkl by done. by eapply Hentries. }
  destruct (import_container __init__ B σ) as [[b|e] σ1]; simpl in *;
    [|split_and!; [done|done|lia]].
  destruct (Hb b eq_refl) as [t Hcached].
  destruct (Hbuilt1 t b Hcached) as [_ Hexported].
  destruct (built_since_merge n self b (exports b σ1) σ1 Hbuilt1 Hentries1)
    as [Hbuilt2 Hentries2].
  { intros k l [_ Hkl]%list_elem_of_filter. by eapply Hexported. }
  rewrite <-merge_exports_items in Hbuilt2, Hentries2.
  destruct (merge_exports_store self b σ1) as [_ Hn2].
  apply IH; [by apply merge_exports_wf|lia|lia|done|done].
Qed.

Lemma resolve_provider_built n self cls σ :
  built_since n σ → entries_since n (_resolutions self) σ → n ≤ next_id σ →
  let out := resolve_provider self cls σ in
  built_since n out.2 ∧ entries_since n (_resolutions self) out.2
  ∧ n ≤ next_id out.2.
Proof.
  intros Hbuilt Hentries Hn. cbv zeta.
  destruct (resolve_provider self cls σ) as [[[]|e] σ1] eqn:Hstep; simpl.
  - apply resolve_provider_Ok in Hstep
      as (l & HD & Hother & Hc & Hn1 & _ & Hcase).
    assert (n ≤ l) as Hl.
    { destruct Hcase as [[Hhit _]|(_ & ? & _)]; [|lia].
      apply get_provider_in_Some in Hhit as (c & Hin & _ & Hget).
      apply list_elem_of_fmap in Hin as ([t c'] & -> & Hin).
      destruct (Hbuilt t c' Hin) as [_ Hc'].
      by apply dict_get_Some_elem, Hc' in Hget. }
    assert (entries_since n (_resolutions self) σ1) as Hentries1.
    { intros k l'. rewrite HD. intros [[= -> ->]|?]%dict_set_elem; [done|].
      by eapply Hentries. }
    split_and!; [|done|lia].
    intros t c Hin. rewrite Hc in Hin.
    destruct (Hbuilt t c Hin) as [Hle Hec]. split; [done|].
    destruct (decide (_resolutions c = _resolutions self)) as [->|Hne];
      [done|].
    intros k l' Hkl. rewrite Hother in Hkl by done. by eapply Hec.
  - apply resolve_provider_Raise in Hstep as (_ & Hd & Hc & Hn1).
    split_and!; [|..|lia].
    + intros t c Hin. rewrite Hc in Hin.
      destruct (Hbuilt t c Hin) as [Hle Hec]. split; [done|].
      intros k l. unfold dict_at. rewrite Hd. apply Hec.
    + intros k l. unfold dict_at. rewrite Hd. apply Hentries.
Qed.

Lemma resolve_providers_built n self classes σ :
  built_since n σ → entries_since n (_resolutions self) σ → n ≤ next_id σ →
  let out := resolve_providers self classes σ in
  built_since n out.2 ∧ entries_since n (_resolutions self) out.2
  ∧ n ≤ next_id out.2.
Proof.
  revert σ. induction classes as [|cls rest IH];
    intros σ Hbuilt Hentries Hn; cbv zeta; [done|].
  rewrite resolve_providers_cons.
  destruct (resolve_provider_built n self cls σ Hbuilt Hentries Hn)
    as (Hbuilt1 & Hentries1 & Hn1).
  destruct (resolve_provider self cls σ) as [[[]|e] σ1]; simpl in *; [|done].
  by apply IH.
Qed.

Lemma make_resolution_built n self σ :
  n ≤ _resolutions self →
  built_since n σ → entries_since n (_resolutions self) σ → n ≤ next_id σ →
  built_post n (_make_resolution self σ).
Proof.
  intros Hself Hbuilt Hentries Hn. unfold _make_resolution.
  destruct (_Cache.get_by_token (c_token self) σ) as [container|] eqn:Hcached.
  - split; [done|]. intros c [= <-]. simpl.
    by apply (Hbuilt (c_token self)), get_by_token_elem.
  - destruct (resolve_providers_built n self (_providers self ++ _exports self)
                σ Hbuilt Hentries Hn) as (Hbuilt1 & Hentries1 & _).
    destruct (resolve_providers self (_providers self ++ _exports self) σ)
      as [[[]|e] σ1]; simpl in *; [|by split].
    split; [by apply built_since_add|]. by intros c [= <-].
Qed.

Lemma init_built n K :
  ∀ σ, wf σ → n ≤ next_id σ → built_since n σ → built_post n (__init__ K σ).
Proof.
  induction K as [K IH] using ContainerClass_tree_ind.
  intros σ Hwf Hn Hbuilt. rewrite init_unfold.
  destruct (k_config K) as [cfg|] eqn:Hcfg; [|by split].
  destruct (k_meta K) as [m|]; [|by split]. cbv zeta.
  set (self := new_self K cfg σ).
  assert (built_since n (init_state σ)) as Hbuilt0.
  { intros t c Hin. destruct (Hbuilt t c Hin) as [Hle Hec]. split; [done|].
    destruct (wf_cached _ Hwf _ _ Hin) as [Hlt _].
    intros k l. unfold dict_at, init_state. simpl.
    rewrite lookup_total_insert_ne by lia. apply Hec. }
  assert (entries_since n (_resolutions self) (init_state σ)) as Hentries0.
  { intros k l. change (_resolutions self) with (S (next_id σ)).
    rewrite init_state_dict. by intros ?%elem_of_nil. }
  destruct (resolve_imports_built n self (cfg_imports cfg) (init_state σ)
              (IH cfg eq_refl) (wf_init_state _ Hwf))
    as (Hbuilt1 & Hentries1 & Hn1); [simpl; lia|simpl; lia|done|done|].
  destruct (_resolve_imports __init__ self (cfg_imports cfg) (init_state σ))
    as [[[]|e] σ1]; simpl in *; [|by split].
  apply make_resolution_built; [simpl; lia|done..].
Qed.

(** X16. With an empty cache, as in a new process or right after [clear],
    a construction shares nothing with what was built before: the
    resolutions map of the container and every record in it, those merged
    from its imports included, are created by this construction. *)
Theorem construction_on_empty_cache_builds_anew
    (K : ContainerClass) (σ σ' : State) (c : ContainerObj) :
  wf σ →
  _containers σ = [] →
  __init__ K σ = (Ok c, σ') →
  next_id σ ≤ _resolutions c
  ∧ ∀ symbol resolution,
      (symbol, resolution) ∈ resolutions c σ' → next_id σ ≤ resolution.
Proof.
  intros Hwf Hempty Hinit.
  destruct (init_built (next_id σ) K σ Hwf) as [_ Hres]; [done|..].
  { intros t c0 Hin. rewrite Hempty in Hin. by apply elem_of_nil in Hin. }
  rewrite Hinit in Hres. by destruct (Hres c eq_refl).
Qed.

(** ** Injection *)

Lemma resolve_params_other self hints init_args deps σ args descr σ' k :
  resolve_params self hints init_args deps σ = (Ok (args, descr), σ') →
  k ∉ (filter (λ h : string * Requested, h.1 ≠ "return") hints).*1 →
  dict_get k args = dict_get k init_args.
Proof.
  revert init_args deps σ.
  induction hints as [|[p ty] rest IH]; intros init_args deps σ; simpl.
  { by intros [= <- _ _]. }
  rewrite filter_cons. simpl.
  destruct (decide (p = "return")) as [->|Hp].
  - rewrite decide_False by (by intros ?). apply IH.
  - rewrite decide_True by done. rewrite fmap_cons, not_elem_of_cons. simpl.
    unfold bind.
    destruct (_get self ty σ) as [[dependency|e] σ1]; [|done].
    intros Hrest [Hne Hnin]. rewrite (IH _ _ _ Hrest Hnin).
    by rewrite dict_get_set_ne.
Qed.

Lemma resolve_params_injects self hints init_args deps σ args descr σ'
    param (T : PyType) l :
  resolve_params self hints init_args deps σ = (Ok (args, descr), σ') →
  NoDup hints.*1 →
  (param, T : Requested)
  ∈ filter (λ h : string * Requested, h.1 ≠ "return") hints →
  no_match T (declared self) →
  dict_get (__token__ T) (resolutions self σ) = Some l →
  dict_get param args = Some (instance (res_at σ l)).
Proof.
  intros Hres Hnd Hin Hno. revert init_args deps σ Hres Hnd Hin.
  induction hints as [|[p ty] rest IH];
    intros init_args deps σ Hres Hnd Hin Hl.
  { by apply elem_of_nil in Hin. }
  rewrite fmap_cons in Hnd. apply NoDup_cons in Hnd as [Hp_rest Hnd].
  rewrite filter_cons in Hin. simpl in *.
  destruct (decide (p = "return")) as [->|Hp].
  - rewrite decide_False in Hin by (by intros ?). by eapply IH.
  - rewrite decide_True in Hin by done. unfold bind in Hres.
    apply elem_of_cons in Hin as [[= <- <-]|Hin].
    + rewrite (get_stored _ _ _ _ _ Hno eq_refl Hl) in Hres.
      rewrite (resolve_params_other _ _ _ _ _ _ _ _ param Hres).
      * by rewrite dict_get_set_eq.
      * intros ([p' ty'] & -> & Hin')%list_elem_of_fmap.
        apply list_elem_of_filter in Hin' as [_ Hin']. apply Hp_rest.
        apply list_elem_of_fmap. by exists (p', ty').
    + destruct (_get self ty σ) as [[dependency|e] σ1] eqn:Hget; [|done].
      apply get_store in Hget as (Hr & Hd & _).
      assert (res_at σ l = res_at σ1 l) as -> by (unfold res_at; by rewrite Hr).
      eapply IH; [done..|]. unfold resolutions, dict_at in *. by rewrite Hd.
Qed.

(** X17. What a class is built with. If the type of a constructor
    parameter is matched by no declared class and the container has an
    entry under its token, then the instance [_resolve] returns was
    called with the instance stored in that entry as the keyword argument
    of that name: the dependency is the stored object, not a copy and not
    a new one. *)
Theorem resolve_injects_the_stored_instance
    (self : ContainerObj) (cls : Class) (σ σ' : State)
    (inst : Instance) (descr : list string)
    (param : string) (T : PyType) (resolution : nat) :
  _resolve self cls σ = (Ok (inst, descr), σ') →
  NoDup (cls_hints cls).*1 →
  (param, T : Requested) ∈ resolved_params cls →
  no_match T (_providers self ++ _exports self) →
  dict_get (__token__ T) (resolutions self σ) = Some resolution →
  (param, obj_id (instance (res_at σ resolution))) ∈ obj_kwargs inst
  ∧ res_at σ' resolution = res_at σ resolution.
Proof.
  intros Hres Hnd Hin Hno Hl.
  destruct (resolve_store _ _ _ _ _ Hres) as (Hr & _).
  split; [|unfold res_at; by rewrite Hr].
  unfold _resolve, bind in Hres.
  destruct (resolve_params self (cls_hints cls) [] [] σ)
    as [[[args ds]|e] σ1] eqn:Hparams; [|done].
  pose proof (resolve_params_injects _ _ _ _ _ _ _ _ _ _ _
                Hparams Hnd Hin Hno Hl) as Harg.
  simpl in Hres.
  destruct (instantiate cls args σ1) as [[i|e] σ2] eqn:Hinst; [|done].
  apply instantiate_Ok in Hinst as (_ & _ & _ & -> & _).
  injection Hres as <- _ _. simpl.
  apply dict_get_Some_elem in Harg.
  apply list_elem_of_fmap. by exists (param, instance (res_at σ resolution)).
Qed.

(** ** The check of the adapter decorator *)

Lemma implemented_methods_elem adapter name :
  name ∈ Adapter.implemented_methods adapter ↔ (name, false) ∈ __dict__ adapter.
Proof.
  unfold Adapter.implemented_methods. rewrite list_elem_of_fmap. split.
  - intros ([n a] & -> & [Ha Hin]%list_elem_of_filter). simpl in *. by subst.
  - intros Hin. exists (name, false). split; [done|].
    by apply list_elem_of_filter.
Qed.

Lemma check_items_spec base_name implemented items :
  match Adapter.check_items base_name implemented items with
  | Passed => ∀ name, (name, true) ∈ items → name ∈ implemented
  | NotImplementedError message =>
      ∃ name, (name, true) ∈ items ∧ (name ∉ implemented)
              ∧ message = "Method '" +:+ base_name +:+ "." +:+ name
                                     +:+ "' is not implemented."
  end.
Proof.
  induction items as [|[name attr] rest IH]; simpl.
  { by intros name ?%elem_of_nil. }
  destruct attr; simpl.
  - destruct (bool_decide_reflect (name ∈ implemented)) as [Hin|Hnin]; simpl.
    + destruct (Adapter.check_items base_name implemented rest).
      * intros name' [[= ->]|?]%elem_of_cons; [done|by apply IH].
      * destruct IH as (name' & ? & ? & ?). exists name'.
        split; [by right|done].
    + exists name. split; [left|done].
  - destruct (Adapter.check_items base_name implemented rest).
    + intros name' [[= ]|?]%elem_of_cons. by apply IH.
    + destruct IH as (name' & ? & ? & ?). exists name'. split; [by right|done].
Qed.

Lemma check_bases_spec implemented classes :
  match Adapter.check_bases implemented classes with
  | Passed =>
      ∀ base_class name, base_class ∈ classes →
        (name, true) ∈ __dict__ base_class → name ∈ implemented
  | NotImplementedError message =>
      ∃ base_class name,
        base_class ∈ classes ∧ (name, true) ∈ __dict__ base_class
        ∧ (name ∉ implemented)
        ∧ message = "Method '" +:+ def_name base_class +:+ "." +:+ name
                               +:+ "' is not implemented."
  end.
Proof.
  induction classes as [|base_class rest IH]; simpl.
  { by intros ? ? ?%elem_of_nil. }
  pose proof (check_items_spec (def_name base_class) implemented
                (__dict__ base_class)) as Hitems.
  destruct (Adapter.check_items (def_name base_class) implemented
              (__dict__ base_class)).
  - destruct (Adapter.check_bases implemented rest).
    + intros b name [->|?]%elem_of_cons; [by apply Hitems|by apply IH].
    + destruct IH as (b & name & ? & ?). exists b, name. split; [by right|done].
  - destruct Hitems as (name & ? & ? & ?). exists base_class, name.
    split; [left|done].
Qed.

(** X18. [_check_adapter] returns exactly when every abstract method in
    the own dictionary of the port or of a direct base of the adapter
    class is defined, and not abstract, in the own dictionary of the
    adapter class. A method the adapter class only inherits does not
    count, and the bases of the bases are not looked at. *)
Theorem check_adapter_passes_iff (adapter port : ClassDef) :
  Adapter._check_adapter adapter port = Passed
  ↔ ∀ base_class name,
      base_class ∈ __bases__ adapter ++ [port] →
      (name, true) ∈ __dict__ base_class →
      (name, false) ∈ __dict__ adapter.
Proof.
  unfold Adapter._check_adapter.
  pose proof (check_bases_spec (Adapter.implemented_methods adapter)
                (__bases__ adapter ++ [port])) as Hspec.
  destruct (Adapter.check_bases _ _) as [|message]; split.
  - intros _ b name Hb Hname. by apply implemented_methods_elem, (Hspec b).
  - done.
  - done.
  - intros Hall. destruct Hspec as (b & name & Hb & Hname & Hnin & _).
    exfalso. apply Hnin, implemented_methods_elem. by apply (Hall b).
Qed.

(** X19. When [_check_adapter] raises, the message names a method that is
    indeed missing: an abstract method of the port or of a direct base
    that the adapter class does not define itself, with the name of the
    class that declares it. *)
Theorem check_adapter_names_a_missing_method
    (adapter port : ClassDef) (message : string) :
  Adapter._check_adapter adapter port = NotImplementedError message →
  ∃ base_class name,
    base_class ∈ __bases__ adapter ++ [port]
    ∧ (name, true) ∈ __dict__ base_class
    ∧ ((name, false) ∉ __dict__ adapter)
    ∧ message = "Method '" +:+ def_name base_class +:+ "." +:+ name
                           +:+ "' is not implemented.".
Proof.
  unfold Adapter._check_adapter. intros Hcheck.
  pose proof (check_bases_spec (Adapter.implemented_methods adapter)
                (__bases__ adapter ++ [port])) as Hspec.
  rewrite Hcheck in Hspec. destruct Hspec as (b & name & Hb & Hname & Hnin & ->).
  exists b, name. split_and!; try done.
  by rewrite <-implemented_methods_elem.
Qed.

(** ** The singleton decorator *)

Lemma singleton_calls_cached {Args T World : Type}
    (cls : Args → World → Result T * World) argss inst w :
  Singleton.calls cls argss (Some inst) w
  = (replicate (length argss) (Ok inst), (Some inst, w)).
Proof.
  induction argss as [|args rest IH]; [done|]. simpl. by rewrite IH.
Qed.

(** X20. Once [get_instance] has returned an instance, every later call
    returns that same instance, whatever arguments it is given, and the
    constructor is not run again: the world is left as it is. *)
Theorem singleton_returns_the_first_instance {Args T World : Type}
    (cls : Args → World → Result T * World)
    (args : Args) (instances instances' : option T) (w w' : World)
    (inst : T) (later : list Args) :
  Singleton.get_instance cls args instances w = (Ok inst, (instances', w')) →
  instances' = Some inst
  ∧ Singleton.calls cls later instances' w'
    = (replicate (length later) (Ok inst), (instances', w')).
Proof.
  unfold Singleton.get_instance. intros Hcall.
  assert (instances' = Some inst) as ->.
  { destruct instances as [i|]; [by injection Hcall as <- <- _|].
    destruct (cls args w) as [[i|e] w1]; [|done]. by injection Hcall as <- <- _. }
  split; [done|]. apply singleton_calls_cached.
Qed.

(** ** The arguments of a constructor call *)

(** X21. What [_resolve] calls the constructor with: one keyword argument
    for each hinted parameter other than the return slot, in the order of
    the hints and under the name of the parameter, and nothing else; and
    [deps] describes these arguments in the same order, each as the
    parameter name with the class name of the object passed. *)
Theorem resolve_calls_with_hinted_parameters
    (self : ContainerObj) (cls : Class) (σ σ' : State)
    (inst : Instance) (descr : list string) :
  _resolve self cls σ = (Ok (inst, descr), σ') →
  NoDup (cls_hints cls).*1 →
  ∃ dependencies : list Instance,
    length dependencies = length (resolved_params cls)
    ∧ obj_kwargs inst
      = zip (resolved_params cls).*1 (obj_id <$> dependencies)
    ∧ descr = zip_with describe (resolved_params cls).*1 dependencies.
Proof.
  intros Hres Hnd. unfold _resolve, bind in Hres.
  destruct (resolve_params self (cls_hints cls) [] [] σ)
    as [[[args ds]|e] σ1] eqn:Hparams; [|done].
  destruct (resolve_params_exact _ _ _ _ _ _ _ _ Hparams Hnd)
    as (dependencies & Hlen & -> & ->).
  { intros h _. apply not_elem_of_nil. }
  simpl in Hres.
  destruct (instantiate cls _ σ1) as [[i|e] σ2] eqn:Hinst; [|done].
  apply instantiate_Ok in Hinst as (_ & _ & _ & -> & _).
  injection Hres as <- <- _. exists dependencies. simpl.
  split; [done|]. split; [apply fmap_zip_ids|done].
Qed.

(** ** What [get] returns *)

Lemma resolve_provider_builds self cls σ σ' :
  _Cache.get_provider cls σ = None →
  resolve_provider self cls σ = (Ok tt, σ') →
  ∃ inst l,
    obj_class inst = cls ∧ next_id σ ≤ obj_id inst
    ∧ l < next_id σ' ∧ next_id σ ≤ next_id σ'
    ∧ dict_get (__token__ cls) (dict_at σ' (_resolutions self)) = Some l
    ∧ token (res_at σ' l) = __token__ cls
    ∧ instance (res_at σ' l) = inst.
Proof.
  intros Hnone. unfold resolve_provider. rewrite Hnone.
  destruct (_resolve self cls σ) as [[[inst deps]|e] σ1] eqn:Hres; [|done].
  intros [= <-].
  destruct (resolve_store _ _ _ _ _ Hres) as (_ & _ & _ & Hn).
  unfold _resolve, bind in Hres.
  destruct (resolve_params self (cls_hints cls) [] [] σ)
    as [[[args ds]|e] σ0] eqn:Hparams; [|done].
  apply resolve_params_store in Hparams as (_ & _ & _ & Hn0).
  simpl in Hres.
  destruct (instantiate cls args σ0) as [[i|e] σ2] eqn:Hinst; [|done].
  apply instantiate_Ok in Hinst as (_ & _ & _ & -> & ->).
  injection Hres as <- _ <-.
  eexists (Build_Instance (next_id σ0) cls _), (next_id (bump σ0)).
  split; [done|]. split; [done|].
  split; [simpl; lia|]. split; [simpl in *; lia|].
  rewrite dict_at_store_eq, dict_get_set_eq. split; [done|].
  unfold res_at, dict_store, with_dict, with_res. simpl.
  by rewrite lookup_total_insert_eq.
Qed.

(** X22. [get] returns an instance of the class that was declared. Take a
    container without imports that is built afresh from classes of
    pairwise distinct tokens, and a declared class that no cached
    container provides. Then [get] of any element class with the token of
    that class (the class itself, or the port of an adapter) returns an
    instance of that class, created by this construction, and leaves the
    store as it is. *)
Theorem get_returns_instance_of_declared_class
    (K : ContainerClass) (cfg : _Config) (m : _Meta) (σ σ' : State)
    (c : ContainerObj) (cls element : Class) :
  wf σ →
  k_config K = Some cfg → k_meta K = Some m → cfg_imports cfg = [] →
  _Cache.get_by_token (k_token K) σ = None →
  NoDup (tokens (cfg_providers cfg ++ cfg_exports cfg)) →
  cls ∈ cfg_providers cfg ++ cfg_exports cfg →
  _Cache.get_provider cls σ = None →
  __init__ K σ = (Ok c, σ') →
  issubclass element Element = true →
  __token__ element = __token__ cls →
  ∃ inst,
    _Container_api.get c element σ' = (Ok inst, σ')
    ∧ obj_class inst = cls
    ∧ next_id σ ≤ obj_id inst.
Proof.
  intros Hwf Hcfg Hm Himp Hnew Hnd Hcls Hlookup Hinit Helem Htok.
  rewrite (init_no_imports K cfg m σ Hcfg Hm Himp) in Hinit.
  set (self := new_self K cfg σ) in *.
  assert (_Cache.get_by_token (c_token self) (init_state σ) = None) as Hnew0
    by done.
  rewrite make_resolution_fresh in Hinit by done.
  destruct (resolve_providers self (declared self) (init_state σ))
    as [[[]|e] σ3] eqn:Hloop; [|done].
  injection Hinit as <- <-.
  assert (declared self = cfg_providers cfg ++ cfg_exports cfg) as Hdecl
    by done.
  rewrite Hdecl in Hloop.
  apply list_elem_of_split in Hcls as (before & after & Hsplit).
  rewrite Hsplit in Hloop, Hnd.
  destruct (tokens_split _ _ _ Hnd) as [Hbefore Hafter].
  rewrite resolve_providers_app in Hloop.
  destruct (resolve_providers self before (init_state σ))
    as [[[]|e] σ1] eqn:Hloop1; [|done].
  rewrite resolve_providers_cons in Hloop.
  destruct (resolve_provider self cls σ1) as [[[]|e] σ2] eqn:Hstep; [|done].
  pose proof (wf_init_state _ Hwf) as Hwf0.
  pose proof (init_state_unpublished _ Hwf) as Hunp.
  assert (_Cache.get_provider cls σ1 = None) as Hnone1.
  { rewrite (resolve_providers_lookup_frame self _ _ _ _ cls Hwf0 Hunp Hloop1)
      by done.
    by rewrite get_provider_init_state. }
  destruct (resolve_providers_frame _ _ _ _ _ Hwf0 Hloop1)
    as (Hwf1 & Hn1 & _).
  pose proof (resolve_provider_wf _ _ _ _ _ Hwf1 Hstep) as Hwf2.
  destruct (resolve_provider_builds _ _ _ _ Hnone1 Hstep)
    as (inst & l & Hclass & Hid & Hl & Hn2 & Hget & Htoken & Hinst).
  destruct (resolve_providers_frame _ _ _ _ _ Hwf2 Hloop)
    as (_ & _ & _ & Hkeys & Hrecs & _).
  exists inst. split; [|split; [done|simpl in *; lia]].
  assert (dict_get (__token__ element)
            (resolutions self (_Cache.add self σ3)) = Some l) as Hentry.
  { change (resolutions self (_Cache.add self σ3))
      with (dict_at σ3 (_resolutions self)).
    by rewrite Htok, Hkeys, Hget. }
  assert (instance (res_at (_Cache.add self σ3) l) = inst) as Hstored.
  { change (res_at (_Cache.add self σ3) l) with (res_at σ3 l).
    rewrite Hrecs; [done|done|by rewrite Htoken]. }
  unfold _Container_api.get.
  change (is_element element) with (issubclass element Element).
  rewrite Helem. simpl. by rewrite Hentry, Hstored.
Qed.

(** ** The order of the entries and of the lookups *)

Lemma resolve_providers_key_order self classes σ σ' :
  resolve_providers self classes σ = (Ok tt, σ') →
  NoDup (dict_keys (dict_at σ (_resolutions self)) ++ tokens classes) →
  dict_keys (dict_at σ' (_resolutions self))
  = dict_keys (dict_at σ (_resolutions self)) ++ tokens classes.
Proof.
  revert σ. induction classes as [|cls rest IH]; intros σ.
  { simpl. intros [= <-] _. by rewrite app_nil_r. }
  rewrite resolve_providers_cons.
  destruct (resolve_provider self cls σ) as [[[]|e] σ1] eqn:Hstep; [|done].
  intros Hrest Hnd.
  apply resolve_provider_Ok in Hstep as (l & HD & _).
  assert (__token__ cls ∉ dict_keys (dict_at σ (_resolutions self))) as Hnew.
  { apply NoDup_app in Hnd as (_ & Hdisj & _). intros Hin.
    apply (Hdisj _ Hin). left. }
  rewrite (dict_set_new _ _ _ Hnew) in HD.
  assert (dict_keys (dict_at σ1 (_resolutions self))
          = dict_keys (dict_at σ (_resolutions self)) ++ [__token__ cls])
    as Hkeys1.
  { rewrite HD. unfold dict_keys. by rewrite fmap_app. }
  rewrite (IH _ Hrest); rewrite Hkeys1, <-app_assoc; [done|].
  exact Hnd.
Qed.

(** X23. The resolutions map of a container without imports that is
    built afresh from classes of pairwise distinct tokens has exactly the
    tokens of the declared classes as its keys, in the order of
    declaration: the providers first, then the exports. *)
Theorem fresh_map_lists_declared_tokens
    (K : ContainerClass) (cfg : _Config) (m : _Meta) (σ σ' : State)
    (c : ContainerObj) :
  k_config K = Some cfg → k_meta K = Some m → cfg_imports cfg = [] →
  _Cache.get_by_token (k_token K) σ = None →
  NoDup (tokens (cfg_providers cfg ++ cfg_exports cfg)) →
  __init__ K σ = (Ok c, σ') →
  dict_keys (resolutions c σ')
  = tokens (cfg_providers cfg) ++ tokens (cfg_exports cfg).
Proof.
  intros Hcfg Hm Himp Hnew Hnd Hinit.
  rewrite (init_no_imports K cfg m σ Hcfg Hm Himp) in Hinit.
  set (self := new_self K cfg σ) in *.
  assert (_Cache.get_by_token (c_token self) (init_state σ) = None) as Hnew0
    by done.
  rewrite make_resolution_fresh in Hinit by done.
  destruct (resolve_providers self (declared self) (init_state σ))
    as [[[]|e] σ1] eqn:Hloop; [|done].
  injection Hinit as <- <-.
  apply resolve_providers_key_order in Hloop.
  - change (resolutions self (_Cache.add self σ1))
      with (dict_at σ1 (_resolutions self)).
    rewrite Hloop. change (_resolutions self) with (S (next_id σ)).
    rewrite init_state_dict. unfold declared, tokens. simpl.
    by rewrite fmap_app.
  - change (_resolutions self) with (S (next_id σ)).
    by rewrite init_state_dict.
Qed.

(** X24. Among the cached containers the one cached first answers: if no
    container cached before has the token of the class in its [providers]
    view, and this one has, then [get_provider] returns its entry, whatever
    the containers cached later hold. *)
Theorem get_provider_first_cached_wins
    (cls : Class) (σ : State) (earlier later : PyDict ContainerObj)
    (t : string) (container : ContainerObj) (resolution : nat) :
  wf σ →
  _containers σ = earlier ++ (t, container) :: later →
  (∀ t' c', (t', c') ∈ earlier →
            dict_get (__token__ cls) (providers c' σ) = None) →
  dict_get (__token__ cls) (providers container σ) = Some resolution →
  _Cache.get_provider cls σ = Some resolution.
Proof.
  intros Hwf Hsplit Hearlier Hprov. unfold _Cache.get_provider.
  rewrite Hsplit, fmap_app, fmap_cons.
  rewrite get_provider_in_app_None.
  - simpl. rewrite Hprov.
    by apply (dict_get_filter_NoDup _ _ _ _ (wf_keys _ Hwf _)) in Hprov.
  - apply get_provider_in_None_iff.
    intros c ([t' c'] & -> & Hin)%list_elem_of_fmap. left. by eapply Hearlier.
Qed.

(** ** What an import does to the imported container *)

Lemma filter_provider_all σ (d : PyDict nat) :
  filter (has_role σ export) d = [] → filter (has_role σ provider) d = d.
Proof.
  induction d as [|entry d IH]; [done|].
  rewrite !filter_cons.
  destruct (decide (has_role σ export entry)) as [He|He]; [done|].
  intros Hnone. rewrite (IH Hnone).
  rewrite decide_True; [done|].
  unfold has_role in *. by destruct (type (res_at σ entry.2)).
Qed.

(** X25. The merge of an import takes the exports away from the imported
    container: when a container merges a container that holds another
    map, the imported container has the same entries afterwards, but all
    of them are providers and its [exports] view is empty; every symbol it
    exported is in the map of the importer. *)
Theorem import_merge_consumes_exports
    (self b : ContainerObj) (σ : State) :
  _resolutions self ≠ _resolutions b →
  exports b (merge_exports self b σ) = []
  ∧ resolutions b (merge_exports self b σ) = resolutions b σ
  ∧ providers b (merge_exports self b σ) = resolutions b σ
  ∧ ∀ symbol exported,
      (symbol, exported) ∈ exports b σ →
      type (res_at (merge_exports self b σ) exported) = provider
      ∧ is_Some (dict_get symbol (resolutions self (merge_exports self b σ))).
Proof.
  intros Hne.
  pose proof (merge_exports_empties_view self b σ Hne) as Hempty.
  assert (resolutions b (merge_exports self b σ) = resolutions b σ) as Hsame.
  { rewrite merge_exports_items.
    destruct (merge_items_store self b (exports b σ) σ) as (_ & _ & Hd & _).
    unfold resolutions. by apply Hd. }
  split; [done|]. split; [done|]. split.
  - unfold providers. rewrite <-Hsame. by apply filter_provider_all.
  - intros symbol exported Hin. rewrite merge_exports_items.
    destruct (merge_items_result self b (exports b σ) σ symbol exported Hin)
      as (Hty & _ & _ & l' & _ & Hget).
    split; [done|]. unfold resolutions. by rewrite Hget.
Qed.

(** ** Declarations that can be built *)




(** ** The container decorator *)

Lemma check_imports_spec imports :
  match Container.check_imports imports with
  | Ok containers => imports = ContainerType <$> containers
  | Raise e =>
      e = TypeError "The element must be a subclass of 'Container'."
      ∧ ∃ cls, ElementClass cls ∈ imports
  end.
Proof.
  induction imports as [|[cls|K] rest IH]; simpl; [done|..].
  - split; [done|]. exists cls. left.
  - destruct (Container.check_imports rest) as [containers|e].
    + by rewrite IH.
    + destruct IH as [-> [cls Hin]]. split; [done|]. exists cls. by right.
Qed.

(** X27. The decorator accepts its arguments exactly when every import is
    a container class; otherwise it raises [TypeError]. What it accepts is
    kept as given, and the cache never refuses an import of an accepted
    configuration as not being a container. *)
Theorem container_decorator_checks_imports
    (name description version : string) (authors : list string)
    (providers exports : list Class) (imports : list PyClass)
    (re_export : bool) :
  match Container.__init__ name description version authors providers
          exports imports re_export with
  | Ok decorator =>
      imports = ContainerType <$> cfg_imports (Container.config decorator)
      ∧ cfg_providers (Container.config decorator) = providers
      ∧ cfg_exports (Container.config decorator) = exports
      ∧ cfg_re_export (Container.config decorator) = re_export
      ∧ ∀ imp σ, imp ∈ imports → ∃ found, _Cache.get imp σ = Ok found
  | Raise e =>
      e = TypeError "The element must be a subclass of 'Container'."
      ∧ ∃ cls, ElementClass cls ∈ imports
  end.
Proof.
  unfold Container.__init__.
  pose proof (check_imports_spec imports) as Hspec.
  destruct (Container.check_imports imports) as [containers|e]; [|done].
  simpl. split_and!; try done.
  intros imp σ Himp. rewrite Hspec in Himp.
  apply list_elem_of_fmap in Himp as (K & -> & _). simpl. by eexists.
Qed.

(** X28. Container classes are cached by the name of the class alone. If
    a decorated container class was constructed, then a second decorated
    class of the same name that imports nothing, whatever it declares, is
    constructed without building anything: it takes over the resolutions
    map of the first. *)
Theorem same_name_containers_share_resolutions
    (first second : Container.t) (cls_name : string)
    (σ σ1 : State) (c1 : ContainerObj) :
  cfg_imports (Container.config second) = [] →
  __init__ (Container.__call__ first cls_name) σ = (Ok c1, σ1) →
  ∃ c2,
    __init__ (Container.__call__ second cls_name) σ1 = (Ok c2, init_state σ1)
    ∧ _resolutions c2 = _resolutions c1
    ∧ _providers c2 = cfg_providers (Container.config second)
    ∧ _exports c2 = cfg_exports (Container.config second).
Proof.
  intros Himp Hfirst.
  destruct (init_cache (Container.__call__ first cls_name) σ) as [_ Hpost].
  rewrite Hfirst in Hpost.
  destruct (Hpost c1 eq_refl) as (_ & _ & cached & Hcached & Hsame).
  simpl in Hcached.
  rewrite (init_no_imports (Container.__call__ second cls_name)
             (Container.config second) (Container.meta second) σ1
             eq_refl eq_refl Himp).
  rewrite (make_resolution_cached _ cached); [|done].
  eexists. split; [done|]. by simpl.
Qed.

(** ** The further properties on the classes of the test suite *)

Section further_scenarios.
Import Calculator Scenario Inputs.

(** X4 after the first test of the suite: the adapter of the substractor
    container is found. *)
Lemma get_provider_finds_provider_records_witness :
  ∃ resolution,
    _Cache.get_provider SubstractorAdapter
      (after [SubstractorContainer] empty_state) = Some resolution
    ∧ token (res_at (after [SubstractorContainer] empty_state) resolution)
      = "SubstractorPort"
    ∧ type (res_at (after [SubstractorContainer] empty_state) resolution)
      = provider.
Proof.
  eexists. split; [vm_compute; reflexivity|].
  apply (get_provider_finds_provider_records SubstractorAdapter
           (after [SubstractorContainer] empty_state)).
  - apply wf_after, wf_empty.
  - vm_compute; reflexivity.
Defined.

(** X8: building an importer of the substractor container keeps the
    substractor container in the cache, with its map. *)
Lemma construction_never_evicts_witness :
  ∃ cached,
    _Cache.get_by_token "SubstractorContainer"
      (after [SubstractorContainer] empty_state) = Some cached
    ∧ ∃ cached',
        _Cache.get_by_token "SubstractorContainer"
          (__init__ ImporterContainer
             (after [SubstractorContainer] empty_state)).2 = Some cached'
        ∧ _resolutions cached' = _resolutions cached
        ∧ (wf (after [SubstractorContainer] empty_state) →
           resolutions cached'
             (__init__ ImporterContainer
                (after [SubstractorContainer] empty_state)).2
           = resolutions cached (after [SubstractorContainer] empty_state)).
Proof.
  eexists. split; [vm_compute; reflexivity|].
  apply (construction_never_evicts ImporterContainer
           (after [SubstractorContainer] empty_state)
           "SubstractorContainer").
  vm_compute; reflexivity.
Defined.

(** X9 at the first test of the suite. *)
Lemma constructed_container_is_cached_witness :
  ∃ c σ',
    __init__ SubstractorContainer empty_state = (Ok c, σ')
    ∧ c_token c = k_token SubstractorContainer
    ∧ c_name c = k_name SubstractorContainer
    ∧ ∃ cached,
        _Cache.get (ContainerType SubstractorContainer) σ' = Ok (Some cached)
        ∧ _Cache.try_get (ContainerType SubstractorContainer) σ' = Ok cached
        ∧ _resolutions cached = _resolutions c
        ∧ ∀ τ, resolutions cached τ = resolutions c τ.
Proof.
  eexists _, _. split; [vm_compute; reflexivity|].
  apply (constructed_container_is_cached SubstractorContainer empty_state).
  vm_compute; reflexivity.
Defined.

(** X10: the substractor container, cached by the first test, across the
    second test of the suite. *)
Lemma construction_keeps_cached_maps_and_instances_witness :
  ∃ cached,
    ("SubstractorContainer", cached)
      ∈ _containers (after [SubstractorContainer] empty_state)
    ∧ next_id (after [SubstractorContainer] empty_state)
      ≤ next_id (__init__ CalculatorWithMultipleProvidersContainer
                   (after [SubstractorContainer] empty_state)).2
    ∧ resolutions cached
        (__init__ CalculatorWithMultipleProvidersContainer
           (after [SubstractorContainer] empty_state)).2
      = resolutions cached (after [SubstractorContainer] empty_state)
    ∧ ∀ symbol resolution,
        (symbol, resolution)
          ∈ resolutions cached (after [SubstractorContainer] empty_state) →
        token (res_at (__init__ CalculatorWithMultipleProvidersContainer
                         (after [SubstractorContainer] empty_state)).2
                 resolution) = symbol
        ∧ instance (res_at (__init__ CalculatorWithMultipleProvidersContainer
                              (after [SubstractorContainer] empty_state)).2
                      resolution)
          = instance (res_at (after [SubstractorContainer] empty_state)
                        resolution).
Proof.
  eexists. split; [vm_compute; left|].
  apply (construction_keeps_cached_maps_and_instances
           CalculatorWithMultipleProvidersContainer
           (after [SubstractorContainer] empty_state)
           "SubstractorContainer").
  - apply wf_after, wf_empty.
  - vm_compute; left.
Defined.

(** X11 at the composed container of the suite. *)
Lemma successful_construction_caches_imports_witness :
  ∃ c σ',
    __init__ CalculatorWithImportsContainer empty_state = (Ok c, σ')
    ∧ ∃ b, _Cache.get (ContainerType AdderContainer) σ' = Ok (Some b)
           ∧ _Cache.try_get (ContainerType AdderContainer) σ' = Ok b.
Proof.
  eexists _, _. split; [vm_compute; reflexivity|].
  eapply (successful_construction_caches_imports
            CalculatorWithImportsContainer
            (Mk_Config [] [CalculatorServiceFromServices]
               [AdderContainer; SubstractorContainer;
                MultiplierContainer; DividerContainer] false)
            empty_state).
  - reflexivity.
  - vm_compute; reflexivity.
  - left.
Defined.

(** X12 at the first test of the suite: the adapter is retrieved by its
    port. *)
Lemma declared_classes_are_retrievable_witness :
  ∃ c σ',
    __init__ SubstractorContainer empty_state = (Ok c, σ')
    ∧ ∃ resolution,
        dict_get (__token__ SubstractorPort) (resolutions c σ')
        = Some resolution
        ∧ _Container_api.get c SubstractorPort σ'
          = (Ok (instance (res_at σ' resolution)), σ').
Proof.
  eexists _, _. split; [vm_compute; reflexivity|].
  eapply (declared_classes_are_retrievable SubstractorContainer
            (Mk_Config [SubstractorAdapter] [SubstractorService] [] false)
            meta empty_state).
  - reflexivity.
  - reflexivity.
  - vm_compute; reflexivity.
  - vm_compute; reflexivity.
  - vm_compute; reflexivity.
  - reflexivity.
  - vm_compute; left.
Defined.

(** X13 at the adapter of the substractor container. *)
Lemma resolve_only_creates_objects_witness :
  ∃ r σ',
    _resolve substractor SubstractorAdapter (init_state empty_state)
    = (r, σ')
    ∧ heap_res σ' = heap_res (init_state empty_state)
    ∧ heap_dict σ' = heap_dict (init_state empty_state)
    ∧ _containers σ' = _containers (init_state empty_state)
    ∧ next_id (init_state empty_state) ≤ next_id σ'
    ∧ ∀ inst descr, r = Ok (inst, descr) →
        obj_class inst = SubstractorAdapter
        ∧ next_id (init_state empty_state) ≤ obj_id inst
        ∧ next_id σ' = S (obj_id inst).
Proof.
  eexists _, _. split; [vm_compute; reflexivity|].
  apply (resolve_only_creates_objects substractor SubstractorAdapter
           (init_state empty_state)).
  vm_compute; reflexivity.
Defined.

(** X14 at the calculator service in a container that provides no
    adder. *)
Lemma resolve_fails_on_missing_dependency_witness :
  ∃ e σ',
    _resolve (new_self BrokenCalculatorContainer
                (Mk_Config [] [CalculatorService] [SubstractorContainer]
                   false) empty_state)
      CalculatorService (init_state empty_state) = (Raise e, σ')
    ∧ heap_res σ' = heap_res (init_state empty_state)
    ∧ heap_dict σ' = heap_dict (init_state empty_state)
    ∧ _containers σ' = _containers (init_state empty_state).
Proof.
  apply (resolve_fails_on_missing_dependency _ CalculatorService
           (init_state empty_state) "adder" AdderPort).
  - vm_compute; left.
  - repeat constructor.
  - reflexivity.
Defined.

(** X15 at a container that lists the service before its adapter, and
    at one that lists, after the adapter, a second adapter of the same
    port that asks for the adder port. *)
Lemma construction_fails_on_unprovided_dependency_witness :
  (∃ e σ',
     __init__ MisorderedContainer empty_state = (Raise e, σ')
     ∧ _Cache.get_by_token (k_token MisorderedContainer) σ' = None)
  ∧ ∃ e σ',
      __init__ AdderBackedContainer empty_state = (Raise e, σ')
      ∧ _Cache.get_by_token (k_token AdderBackedContainer) σ' = None.
Proof.
  split.
  - apply (construction_fails_on_unprovided_dependency MisorderedContainer
             (Mk_Config [SubstractorService; SubstractorAdapter] [] []
                false)
             meta empty_state [] [SubstractorAdapter] SubstractorService
             "substractor" SubstractorPort wf_empty).
    + reflexivity.
    + reflexivity.
    + reflexivity.
    + reflexivity.
    + reflexivity.
    + reflexivity.
    + vm_compute; left.
    + repeat constructor.
    + apply not_elem_of_nil.
  - apply (construction_fails_on_unprovided_dependency AdderBackedContainer
             (Mk_Config [SubstractorAdapter; AdderBackedAdapter] [] []
                false)
             meta empty_state [SubstractorAdapter] [] AdderBackedAdapter
             "adder" AdderPort wf_empty).
    + reflexivity.
    + reflexivity.
    + reflexivity.
    + reflexivity.
    + reflexivity.
    + reflexivity.
    + vm_compute; left.
    + repeat constructor.
    + compute_done.
Defined.

(** X16: the substractor container built again after [clear]. *)
Lemma construction_on_empty_cache_builds_anew_witness :
  ∃ c σ',
    __init__ SubstractorContainer
      (_Cache.clear (after [SubstractorContainer] empty_state)) = (Ok c, σ')
    ∧ next_id (_Cache.clear (after [SubstractorContainer] empty_state))
      ≤ _resolutions c
    ∧ ∀ symbol resolution,
        (symbol, resolution) ∈ resolutions c σ' →
        next_id (_Cache.clear (after [SubstractorContainer] empty_state))
        ≤ resolution.
Proof.
  eexists _, _. split; [vm_compute; reflexivity|].
  apply (construction_on_empty_cache_builds_anew SubstractorContainer
           (_Cache.clear (after [SubstractorContainer] empty_state))).
  - apply wf_clear, wf_after, wf_empty.
  - reflexivity.
  - vm_compute; reflexivity.
Defined.

(** X17 at the substractor service: it is built with the adapter that
    the container has stored. *)
Lemma resolve_injects_the_stored_instance_witness :
  ∃ inst descr σ' resolution,
    _resolve substractor SubstractorService adapter_resolved
    = (Ok (inst, descr), σ')
    ∧ dict_get (__token__ SubstractorPort)
        (resolutions substractor adapter_resolved) = Some resolution
    ∧ ("substractor", obj_id (instance (res_at adapter_resolved resolution)))
        ∈ obj_kwargs inst
    ∧ res_at σ' resolution = res_at adapter_resolved resolution.
Proof.
  eexists _, _, _, _. split; [vm_compute; reflexivity|].
  split; [vm_compute; reflexivity|].
  eapply (resolve_injects_the_stored_instance substractor SubstractorService
            adapter_resolved _ _ _ "substractor" SubstractorPort).
  - vm_compute; reflexivity.
  - compute_done.
  - vm_compute; left.
  - repeat constructor.
  - vm_compute; reflexivity.
Defined.

(** X19 at an adapter class with an empty body. *)
Lemma check_adapter_names_a_missing_method_witness :
  ∃ base_class name,
    base_class ∈ __bases__ EmptyAdapterDef ++ [SubstractorPortDef]
    ∧ (name, true) ∈ __dict__ base_class
    ∧ ((name, false) ∉ __dict__ EmptyAdapterDef)
    ∧ "Method 'SubstractorPort.substract' is not implemented."
      = "Method '" +:+ def_name base_class +:+ "." +:+ name
                   +:+ "' is not implemented.".
Proof.
  apply (check_adapter_names_a_missing_method EmptyAdapterDef
           SubstractorPortDef).
  vm_compute; reflexivity.
Defined.

(** X20 at a class that records its argument. *)
Lemma singleton_returns_the_first_instance_witness :
  Some 5 = Some 5
  ∧ Singleton.calls Recorder [7; 9] (Some 5) 1
    = (replicate (length [7; 9]) (Ok 5), (Some 5, 1)).
Proof.
  apply (singleton_returns_the_first_instance Recorder 5 None (Some 5) 0 1 5
           [7; 9]).
  reflexivity.
Defined.

(** X21 at the substractor service. *)
Lemma resolve_calls_with_hinted_parameters_witness :
  ∃ inst descr σ',
    _resolve substractor SubstractorService adapter_resolved
    = (Ok (inst, descr), σ')
    ∧ ∃ dependencies : list Instance,
        length dependencies = length (resolved_params SubstractorService)
        ∧ obj_kwargs inst
          = zip (resolved_params SubstractorService).*1
                (obj_id <$> dependencies)
        ∧ descr
          = zip_with describe (resolved_params SubstractorService).*1
              dependencies.
Proof.
  eexists _, _, _. split; [vm_compute; reflexivity|].
  eapply (resolve_calls_with_hinted_parameters substractor
            SubstractorService adapter_resolved).
  - vm_compute; reflexivity.
  - compute_done.
Defined.

(** X22 at the first test of the suite: [get] of the port returns an
    instance of the adapter class. *)
Lemma get_returns_instance_of_declared_class_witness :
  ∃ c σ',
    __init__ SubstractorContainer empty_state = (Ok c, σ')
    ∧ ∃ inst,
        _Container_api.get c SubstractorPort σ' = (Ok inst, σ')
        ∧ obj_class inst = SubstractorAdapter
        ∧ next_id empty_state ≤ obj_id inst.
Proof.
  eexists _, _. split; [vm_compute; reflexivity|].
  eapply (get_returns_instance_of_declared_class SubstractorContainer
            (Mk_Config [SubstractorAdapter] [SubstractorService] [] false)
            meta empty_state _ _ SubstractorAdapter SubstractorPort
            wf_empty).
  - reflexivity.
  - reflexivity.
  - reflexivity.
  - reflexivity.
  - compute_done.
  - left.
  - reflexivity.
  - vm_compute; reflexivity.
  - reflexivity.
  - reflexivity.
Defined.

(** X23 at the second test of the suite, in a new process. *)
Lemma fresh_map_lists_declared_tokens_witness :
  ∃ c σ',
    __init__ CalculatorWithMultipleProvidersContainer empty_state
    = (Ok c, σ')
    ∧ dict_keys (resolutions c σ')
      = tokens [AdderAdapter; SubstractorAdapter; MultiplierAdapter;
                DividerAdapter]
        ++ tokens [CalculatorService].
Proof.
  eexists _, _. split; [vm_compute; reflexivity|].
  eapply (fresh_map_lists_declared_tokens
            CalculatorWithMultipleProvidersContainer
            (Mk_Config [AdderAdapter; SubstractorAdapter; MultiplierAdapter;
                        DividerAdapter] [CalculatorService] [] false)
            meta empty_state).
  - reflexivity.
  - reflexivity.
  - reflexivity.
  - reflexivity.
  - compute_done.
  - vm_compute; reflexivity.
Defined.

(** X24: two siblings provide the substractor adapter and the first
    one answers. *)
Lemma get_provider_first_cached_wins_witness :
  ∃ first second resolution,
    _containers (after [FirstSiblingContainer; TwoAdaptersContainer]
                   empty_state)
    = [] ++ ("FirstSiblingContainer", first)
            :: [("TwoAdaptersContainer", second)]
    ∧ dict_get (__token__ SubstractorAdapter)
        (providers first (after [FirstSiblingContainer;
                                 TwoAdaptersContainer] empty_state))
      = Some resolution
    ∧ _Cache.get_provider SubstractorAdapter
        (after [FirstSiblingContainer; TwoAdaptersContainer] empty_state)
      = Some resolution.
Proof.
  eexists _, _, _. split; [vm_compute; reflexivity|].
  split; [vm_compute; reflexivity|].
  eapply (get_provider_first_cached_wins SubstractorAdapter
            (after [FirstSiblingContainer; TwoAdaptersContainer]
               empty_state) []).
  - apply wf_after, wf_empty.
  - vm_compute; reflexivity.
  - by intros t' c' ?%elem_of_nil.
  - vm_compute; reflexivity.
Defined.

(** X25: the store after the substractor container is built, merged
    into a new importer. *)
Lemma import_merge_consumes_exports_witness :
  ∃ b,
    _Cache.get_by_token "SubstractorContainer"
      (after [SubstractorContainer] empty_state) = Some b
    ∧ length (exports b (after [SubstractorContainer] empty_state)) = 1
    ∧ exports b
        (merge_exports
           (new_self ImporterContainer
              (Mk_Config [] [] [SubstractorContainer] false)
              (after [SubstractorContainer] empty_state))
           b (init_state (after [SubstractorContainer] empty_state)))
      = [].
Proof.
  eexists. split; [vm_compute; reflexivity|]. split; [by vm_compute|].
  apply (import_merge_consumes_exports
           (new_self ImporterContainer
              (Mk_Config [] [] [SubstractorContainer] false)
              (after [SubstractorContainer] empty_state))).
  by vm_compute.
Defined.


(** X28: a second class named like the substractor container, which
    declares the adder adapter alone. *)
Lemma same_name_containers_share_resolutions_witness :
  ∃ c1 σ1,
    __init__ SubstractorContainer empty_state = (Ok c1, σ1)
    ∧ ∃ c2,
        __init__ (Container "SubstractorContainer" [AdderAdapter] [] []
                    false) σ1 = (Ok c2, init_state σ1)
        ∧ _resolutions c2 = _resolutions c1
        ∧ _providers c2 = [AdderAdapter]
        ∧ _exports c2 = [].
Proof.
  eexists _, _. split; [vm_compute; reflexivity|].
  apply (same_name_containers_share_resolutions
           {| Container.config :=
                Mk_Config [SubstractorAdapter] [SubstractorService] []
                  false;
              Container.meta := meta |}
           {| Container.config := Mk_Config [AdderAdapter] [] [] false;
              Container.meta := meta |}
           "SubstractorContainer" empty_state).
  - reflexivity.
  - vm_compute; reflexivity.
Defined.

(** The check on the substractor classes: the adapter passes for its
    port, an adapter class with an empty body does not. *)
Example test_check_adapter :
  Adapter._check_adapter SubstractorAdapterDef SubstractorPortDef = Passed
  ∧ Adapter._check_adapter EmptyAdapterDef SubstractorPortDef
    = NotImplementedError
        "Method 'SubstractorPort.substract' is not implemented.".
Proof. by vm_compute. Qed.

(** [get] on the substractor container of the suite: the port and the
    service are found, the adder port is not, and a class that is no
    element or has no token is refused before the resolutions are
    read. *)
Example test_get :
  ∃ substractor σ adapter service,
    __init__ SubstractorContainer empty_state = (Ok substractor, σ)
    ∧ _Container_api.get substractor SubstractorPort σ = (Ok adapter, σ)
    ∧ obj_class adapter = SubstractorAdapter
    ∧ _Container_api.get substractor SubstractorService σ = (Ok service, σ)
    ∧ obj_kwargs service = [("substractor", obj_id adapter)]
    ∧ _Container_api.get substractor AdderPort σ
      = (Raise (KeyError "Provider with AdderPort not found"), σ)
    ∧ _Container_api.get substractor NotElementClass σ
      = (Raise (TypeError "The element must be a subclass of 'Element'."), σ)
    ∧ _Container_api.get substractor EmptyElementClass σ
      = (Raise (AttributeError
                  "type object 'EmptyElement' has no attribute '__token__'"),
         σ).
Proof.
  eexists _, _, _, _. split; [vm_compute; reflexivity|].
  split; [vm_compute; reflexivity|]. split; [reflexivity|].
  split; [vm_compute; reflexivity|]. by vm_compute.
Qed.

End further_scenarios.
